(** * ComponentAnalyticField: a shallow embedding of the analytic wire-chamber
    field solver (Source/ComponentAnalyticField.cc) and the properties of its
    specification.

    Layout: numbers (C++ [double] as IEEE binary64), the data model, the
    external numeric kernel, the operations of the class in source order,
    concrete scenarios, and then the theorems. *)

From Stdlib Require Import ZArith List Bool String Ascii Lia Floats Uint63.
From Stdlib Require QArith.
Import ListNotations.
Set Warnings "-inexact-float".

(* ================================================================== *)
(** * Numbers *)
(* ================================================================== *)

(** A C++ [double] is a primitive binary64 float.  Literals are rounded to
    the nearest double as a C++ compiler does; [+ - * /] and [sqrt] are the
    correctly rounded IEEE operations; [<?], [<=?], [=?] are the IEEE
    comparisons (all false on NaN). *)

Module Dbl.
Local Open Scope float_scope.

(** [x > y], [x >= y] and [x != y] of C++. *)
Definition gtb (x y : float) : bool := y <? x.
Definition geb (x y : float) : bool := y <=? x.
Definition neb (x y : float) : bool := negb (x =? y).

(** [sqrt], [fabs], [std::min], [std::max]. *)
Definition sqrt (x : float) : float := PrimFloat.sqrt x.
Definition fabs (x : float) : float := abs x.
Definition min (a b : float) : float := if b <? a then b else a.
Definition max (a b : float) : float := if a <? b then b else a.

(** Conversion of an [int] or [unsigned int] to [double] (exact below 2^53). *)
Definition of_int (z : Z) : float :=
  if (z <? 0)%Z then - of_uint63 (Uint63.of_Z (- z)) else of_uint63 (Uint63.of_Z z).

Definition INT_MIN : Z := (- 2 ^ 31)%Z.

(** [int(round(x))]: [round] rounds half-way cases away from zero; the
    conversion of a value outside the range of [int] (or of an infinity or a
    NaN) is undefined in C++ and yields the "integer indefinite" value
    INT_MIN on x86-64, which is what is modelled. *)
Definition int_round (x : float) : Z :=
  match Prim2SF x with
  | S754_zero _ => 0%Z
  | S754_finite s m e =>
      let mag :=
        if (0 <=? e)%Z then (Zpos m * 2 ^ e)%Z
        else
          let d := (2 ^ (- e))%Z in
          let q := (Zpos m / d)%Z in
          if (d <=? 2 * (Zpos m mod d))%Z then (q + 1)%Z else q in
      let v := if s then (- mag)%Z else mag in
      if ((INT_MIN <=? v) && (v <? 2 ^ 31))%Z then v else INT_MIN
  | _ => INT_MIN
  end.

(** [int(x)]: truncation towards zero, with the same out-of-range value. *)
Definition int_trunc (x : float) : Z :=
  match Prim2SF x with
  | S754_zero _ => 0%Z
  | S754_finite s m e =>
      let mag := if (0 <=? e)%Z then (Zpos m * 2 ^ e)%Z else (Zpos m / 2 ^ (- e))%Z in
      let v := if s then (- mag)%Z else mag in
      if ((INT_MIN <=? v) && (v <? 2 ^ 31))%Z then v else INT_MIN
  | _ => INT_MIN
  end.

(** [pow(x, 2)] and [pow(x, 3)].  libm's [pow] is modelled as correctly
    rounded at these two integer exponents; wherever the exact power is
    representable (as at every concrete input used below) any [pow] with an
    error under one ulp returns this value. *)
Definition pow2 (x : float) : float := x * x.

Definition pow3 (x : float) : float :=
  match Prim2SF x with
  | S754_finite s m e =>
      SF2Prim (binary_normalize prec emax
                 (if s then Zneg (m ^ 3) else Zpos (m ^ 3)) (e * 3) s)
  | _ => x
  end.

End Dbl.

(** Arithmetic of [unsigned int] counters. *)
Definition UINT_MOD : Z := 2 ^ 32.
Definition uincr (n : Z) : Z := (n + 1) mod UINT_MOD.

(** Vectors indexed as in C++: reading, and writing one slot. *)
Fixpoint upd {A : Type} (i : nat) (v : A) (l : list A) : list A :=
  match l, i with
  | [], _ => []
  | _ :: t, O => v :: t
  | h :: t, S j => h :: upd j v t
  end.

Definition zidx (i : Z) : nat := Z.to_nat i.

(* ================================================================== *)
(** * Data model *)
(* ================================================================== *)

Module wire.
Record t : Type := mk
  { x : float; y : float; d : float; v : float; u : float;
    type : string; e : float; ind : Z; nTrap : Z }.
Definition dflt : t := mk 0 0 0 0 0 "" 0 0 0.
Definition set_x (a : float) (w : t) : t :=
  mk a (y w) (d w) (v w) (u w) (type w) (e w) (ind w) (nTrap w).
Definition set_y (a : float) (w : t) : t :=
  mk (x w) a (d w) (v w) (u w) (type w) (e w) (ind w) (nTrap w).
Definition set_e (a : float) (w : t) : t :=
  mk (x w) (y w) (d w) (v w) (u w) (type w) a (ind w) (nTrap w).
Definition set_ind (i : Z) (w : t) : t :=
  mk (x w) (y w) (d w) (v w) (u w) (type w) (e w) i (nTrap w).
End wire.

Module strip.
Record t : Type := mk
  { type : string; ind : Z; smin : float; smax : float; gap : float }.
Definition set_gap (g : float) (s : t) : t := mk (type s) (ind s) (smin s) (smax s) g.
Definition set_ind (i : Z) (s : t) : t := mk (type s) i (smin s) (smax s) (gap s).
End strip.

Module pixel.
Record t : Type := mk
  { type : string; ind : Z; smin : float; smax : float;
    zmin : float; zmax : float; gap : float }.
Definition set_gap (g : float) (p : t) : t :=
  mk (type p) (ind p) (smin p) (smax p) (zmin p) (zmax p) g.
Definition set_ind (i : Z) (p : t) : t :=
  mk (type p) i (smin p) (smax p) (zmin p) (zmax p) (gap p).
End pixel.

Module plane.
Record t : Type := mk
  { type : string; ind : Z; ewxcor : float; ewycor : float;
    strips1 : list strip.t; strips2 : list strip.t; pixels : list pixel.t }.
Definition dflt : t := mk "" 0 0 0 [] [] [].
Definition set_label (lab : string) (p : t) : t :=
  mk lab (-1) (ewxcor p) (ewycor p) (strips1 p) (strips2 p) (pixels p).
Definition set_strips1 (l : list strip.t) (p : t) : t :=
  mk (type p) (ind p) (ewxcor p) (ewycor p) l (strips2 p) (pixels p).
Definition set_strips2 (l : list strip.t) (p : t) : t :=
  mk (type p) (ind p) (ewxcor p) (ewycor p) (strips1 p) l (pixels p).
Definition set_pixels (l : list pixel.t) (p : t) : t :=
  mk (type p) (ind p) (ewxcor p) (ewycor p) (strips1 p) (strips2 p) l.
Definition set_ind (i : Z) (p : t) : t :=
  mk (type p) i (ewxcor p) (ewycor p) (strips1 p) (strips2 p) (pixels p).
Definition set_ewxcor (c : float) (p : t) : t :=
  mk (type p) (ind p) c (ewycor p) (strips1 p) (strips2 p) (pixels p).
Definition set_ewycor (c : float) (p : t) : t :=
  mk (type p) (ind p) (ewxcor p) c (strips1 p) (strips2 p) (pixels p).
End plane.

Module charge3d.
Record t : Type := mk { x : float; y : float; z : float; e : float }.
End charge3d.

(** The topology tags of the class' cell-type enumeration. *)
Inductive Cell : Type :=
  A00 | B1X | B1Y | B2X | B2Y | C10 | C2X | C2Y | C30 | D10 | D20 | D30 | D40 | Unknown.

Definition Cell_eqb (a b : Cell) : bool :=
  match a, b with
  | A00, A00 | B1X, B1X | B1Y, B1Y | B2X, B2X | B2Y, B2Y | C10, C10 | C2X, C2X
  | C2Y, C2Y | C30, C30 | D10, D10 | D20, D20 | D30, D30 | D40, D40
  | Unknown, Unknown => true
  | _, _ => false
  end.

(** Constants the [Setup...] routines derive for the field evaluators
    (B2 cells: [b2sin]; C cells: [mode], [m_zmult], [m_p1], [m_p2], [m_c1];
    D3 cells: [wmap], [m_kappa]). *)
Record Derived : Type := mkDerived
  { b2sin : list float; mode : Z; m_zmult : float * float;
    m_p1 : float; m_p2 : float; m_c1 : float;
    wmap : list (float * float); m_kappa : float }.

Definition set_b2sin (l : list float) (d : Derived) : Derived :=
  mkDerived l (mode d) (m_zmult d) (m_p1 d) (m_p2 d) (m_c1 d) (wmap d) (m_kappa d).

(** The members of the signal calculation: the number of Fourier terms, the
    cell type used for the signal matrices, the directions and the range of
    the convolutions, the signal matrix (complex numbers as pairs) and the
    charges induced in the planes and the tube. *)
Record Signals : Type := mkSignals
  { nFourier : Z; m_scellTypeFourier : string;
    fperx : bool; fpery : bool; mfexp : Z;
    mxmin : Z; mxmax : Z; mymin : Z; mymax : Z;
    m_sigmat : list (list (float * float));
    m_qplane : list (list float) }.

(** The object state: the data members the modelled member functions read
    or write.  [m_xPeriodic] and [m_yPeriodic] are the request flags of the
    base class; [m_perx] and [m_pery] are the flags in force. *)
Record State : Type := mkState
  { m_cellset : bool; m_sigset : bool; m_polar : bool;
    m_scellType : string; m_cellType : Cell;
    xmin : float; xmax : float; ymin : float; ymax : float;
    zmin : float; zmax : float; vmin : float; vmax : float;
    m_xPeriodic : bool; m_yPeriodic : bool;
    m_perx : bool; m_pery : bool; m_sx : float; m_sy : float;
    m_readout : list string;
    m_nWires : Z; m_w : list wire.t;
    dipole : bool; m_derived : Derived;
    m_v0 : float; m_corvta : float; m_corvtb : float; m_corvtc : float;
    planes : list plane.t;
    m_ynplan : list bool; m_coplan : list float; m_vtplan : list float;
    m_ynplax : bool; m_ynplay : bool; m_coplax : float; m_coplay : float;
    m_tube : bool; m_ntube : Z; m_mtube : Z; m_cotube : float; m_vttube : float;
    m_a : list (list float);
    m_ch3d : list charge3d.t; m_nTermBessel : Z; m_nTermPoly : Z;
    m_signals : Signals }.

(** Field update: [setter p] is the function that replaces the field read by
    the projection [p] and keeps every other field. *)
Definition eta_State (s : State) : State :=
  mkState (m_cellset s) (m_sigset s) (m_polar s) (m_scellType s) (m_cellType s)
    (xmin s) (xmax s) (ymin s) (ymax s) (zmin s) (zmax s) (vmin s) (vmax s)
    (m_xPeriodic s) (m_yPeriodic s) (m_perx s) (m_pery s) (m_sx s) (m_sy s)
    (m_readout s) (m_nWires s) (m_w s) (dipole s) (m_derived s)
    (m_v0 s) (m_corvta s) (m_corvtb s) (m_corvtc s) (planes s)
    (m_ynplan s) (m_coplan s) (m_vtplan s)
    (m_ynplax s) (m_ynplay s) (m_coplax s) (m_coplay s)
    (m_tube s) (m_ntube s) (m_mtube s) (m_cotube s) (m_vttube s)
    (m_a s) (m_ch3d s) (m_nTermBessel s) (m_nTermPoly s) (m_signals s).

Ltac setter proj :=
  let v := fresh "v" in
  let s := fresh "s" in
  intros v s;
  let body := eval cbv beta delta [eta_State] in (eta_State s) in
  match eval pattern (proj s) in body with
  | ?f _ => let r := eval cbv beta in (f v) in exact r
  end.

Definition set_m_cellset : bool -> State -> State := ltac:(setter m_cellset).
Definition set_m_sigset : bool -> State -> State := ltac:(setter m_sigset).
Definition set_m_polar : bool -> State -> State := ltac:(setter m_polar).
Definition set_m_scellType : string -> State -> State := ltac:(setter m_scellType).
Definition set_m_cellType : Cell -> State -> State := ltac:(setter m_cellType).
Definition set_xmin : float -> State -> State := ltac:(setter xmin).
Definition set_xmax : float -> State -> State := ltac:(setter xmax).
Definition set_ymin : float -> State -> State := ltac:(setter ymin).
Definition set_ymax : float -> State -> State := ltac:(setter ymax).
Definition set_zmin : float -> State -> State := ltac:(setter zmin).
Definition set_zmax : float -> State -> State := ltac:(setter zmax).
Definition set_vmin : float -> State -> State := ltac:(setter vmin).
Definition set_vmax : float -> State -> State := ltac:(setter vmax).
Definition set_m_xPeriodic : bool -> State -> State := ltac:(setter m_xPeriodic).
Definition set_m_yPeriodic : bool -> State -> State := ltac:(setter m_yPeriodic).
Definition set_m_perx : bool -> State -> State := ltac:(setter m_perx).
Definition set_m_pery : bool -> State -> State := ltac:(setter m_pery).
Definition set_m_sx : float -> State -> State := ltac:(setter m_sx).
Definition set_m_sy : float -> State -> State := ltac:(setter m_sy).
Definition set_m_readout : list string -> State -> State := ltac:(setter m_readout).
Definition set_m_nWires : Z -> State -> State := ltac:(setter m_nWires).
Definition set_m_w : list wire.t -> State -> State := ltac:(setter m_w).
Definition set_m_derived : Derived -> State -> State := ltac:(setter m_derived).
Definition set_m_v0 : float -> State -> State := ltac:(setter m_v0).
Definition set_m_corvta : float -> State -> State := ltac:(setter m_corvta).
Definition set_m_corvtb : float -> State -> State := ltac:(setter m_corvtb).
Definition set_m_corvtc : float -> State -> State := ltac:(setter m_corvtc).
Definition set_planes : list plane.t -> State -> State := ltac:(setter planes).
Definition set_m_ynplan : list bool -> State -> State := ltac:(setter m_ynplan).
Definition set_m_coplan : list float -> State -> State := ltac:(setter m_coplan).
Definition set_m_vtplan : list float -> State -> State := ltac:(setter m_vtplan).
Definition set_m_ynplax : bool -> State -> State := ltac:(setter m_ynplax).
Definition set_m_ynplay : bool -> State -> State := ltac:(setter m_ynplay).
Definition set_m_coplax : float -> State -> State := ltac:(setter m_coplax).
Definition set_m_coplay : float -> State -> State := ltac:(setter m_coplay).
Definition set_m_tube : bool -> State -> State := ltac:(setter m_tube).
Definition set_m_ntube : Z -> State -> State := ltac:(setter m_ntube).
Definition set_m_cotube : float -> State -> State := ltac:(setter m_cotube).
Definition set_m_vttube : float -> State -> State := ltac:(setter m_vttube).
Definition set_m_a : list (list float) -> State -> State := ltac:(setter m_a).
Definition set_m_ch3d : list charge3d.t -> State -> State := ltac:(setter m_ch3d).
Definition set_m_nTermBessel : Z -> State -> State := ltac:(setter m_nTermBessel).
Definition set_m_nTermPoly : Z -> State -> State := ltac:(setter m_nTermPoly).
Definition set_m_signals : Signals -> State -> State := ltac:(setter m_signals).

(** Array slots [m_ynplan[i]], [m_coplan[i]], [m_vtplan[i]], [planes[i]],
    [m_w[i]]. *)
Definition ynplan (s : State) (i : nat) : bool := nth i (m_ynplan s) false.
Definition coplan (s : State) (i : nat) : float := nth i (m_coplan s) 0%float.
Definition vtplan (s : State) (i : nat) : float := nth i (m_vtplan s) 0%float.
Definition planes_at (s : State) (i : nat) : plane.t := nth i (planes s) plane.dflt.
Definition w_at (s : State) (i : nat) : wire.t := nth i (m_w s) wire.dflt.

Definition set_ynplan (i : nat) (b : bool) (s : State) : State :=
  set_m_ynplan (upd i b (m_ynplan s)) s.
Definition set_coplan (i : nat) (c : float) (s : State) : State :=
  set_m_coplan (upd i c (m_coplan s)) s.
Definition set_vtplan (i : nat) (c : float) (s : State) : State :=
  set_m_vtplan (upd i c (m_vtplan s)) s.
Definition set_planes_at (i : nat) (p : plane.t) (s : State) : State :=
  set_planes (upd i p (planes s)) s.
Definition set_w_at (i : nat) (w : wire.t) (s : State) : State :=
  set_m_w (upd i w (m_w s)) s.

Definition set_m_sigmat (m : list (list (float * float))) (s : State) : State :=
  let g := m_signals s in
  set_m_signals
    (mkSignals (nFourier g) (m_scellTypeFourier g) (fperx g) (fpery g) (mfexp g)
               (mxmin g) (mxmax g) (mymin g) (mymax g) m (m_qplane g)) s.
Definition set_m_qplane (q : list (list float)) (s : State) : State :=
  let g := m_signals s in
  set_m_signals
    (mkSignals (nFourier g) (m_scellTypeFourier g) (fperx g) (fpery g) (mfexp g)
               (mxmin g) (mxmax g) (mymin g) (mymax g) (m_sigmat g) q) s.

(* ================================================================== *)
(** * The external numeric kernel *)
(* ================================================================== *)

(** What the class consumes and this file does not define: the constants of
    GarfieldConstants.hh, libm, the coordinate helpers of the class header,
    the routines of Numerics.hh, the medium lookup of the base class, and the
    closed-form arithmetic of the per-topology routines of this file whose
    values no property below depends on.  Every theorem holds for every
    instance. *)
Record Extern : Type := mkExtern
  { (* GarfieldConstants.hh *)
    Small : float; Pi : float; TwoPi : float; HalfPi : float;
    FourPiEpsilon0 : float;
    (* libm *)
    c_log : float -> float; c_exp : float -> float;
    c_cos : float -> float; c_sin : float -> float;
    c_atan2 : float -> float -> float;
    (* helpers declared in the class header *)
    Cartesian2Polar : float -> float -> float * float;
    Polar2Cartesian : float -> float -> float * float;
    (* Numerics.hh: Deqinv(n, a, ifail, b) replaces [a] by its inverse and
       [b] by the solution of a.x = b, and reports failure in [ifail] *)
    Deqinv : Z -> list (list float) -> list float -> Z * list (list float) * list float;
    BesselK0S : float -> float; BesselK1S : float -> float;
    BesselK0L : float -> float; BesselK1L : float -> float;
    (* the capacitance matrix and derived constants that the Setup routine of
       the current cell type fills in before it calls Charge, and the
       constants it stores after a successful Charge.  These are total
       functions here; SetupD30 (through ConformalMap) reads its coefficient
       tables at m_ntube - 3, which the source leaves undefined for a polygon
       of fewer than 3 or more than 8 edges *)
    SetupFill : State -> list (list float) * Derived;
    SetupFinish : State -> Derived;
    SetupDipole : State -> bool;
    (* the closed-form wire sums FieldA00 ... FieldD30 at a folded point:
       (ex, ey, volt) *)
    FieldWires : State -> float -> float -> bool -> float * float * float;
    (* GetMedium(x, y, z): no medium, or a medium and whether it is driftable *)
    GetMedium : float -> float -> float -> option bool;
    (* SetupWireSignals: the value it returns, the signal matrix m_sigmat as
       it leaves it (filled by the Ipr... routine of the Fourier cell type,
       Fourier transformed and inverted by Numerics::Cinv) and the vector
       b2sin, which IprB2X and IprB2Y overwrite; and the weighting-field
       evaluator Wfield: (wx, wy, wz, volt) *)
    SignalMatrix : State -> bool * list (list (float * float)) * list float;
    Wfield : State -> float -> float -> float -> Z -> bool
             -> float * float * float * float }.

(* ================================================================== *)
(** * The charge solve, generic in the arithmetic *)
(* ================================================================== *)

(** [Charge] is written once over an arbitrary number type, so that the
    lemmas on what it stores do not depend on the arithmetic; the class
    runs it on doubles.  [W] is the wire record, seen through the members [Charge]
    reads ([v], [x], [y]) and the one it writes ([e]). *)

Fixpoint mapi_from {A B : Type} (k : nat) (f : nat -> A -> B) (l : list A) : list B :=
  match l with
  | [] => []
  | a :: t => f k a :: mapi_from (S k) f t
  end.

Section Solver.
Variable num : Type.
Variables zero one : num.
Variables add sub mul div : num -> num -> num.
Variable neb : num -> num -> bool.
Variable W : Type.
Variables wv wx wy : W -> num.
Variable set_we : num -> W -> W.
Variable Deqinv : Z -> list (list num) -> list num -> Z * list (list num) * list num.

Definition mat_at (a : list (list num)) (i j : nat) : num := nth j (nth i a []) zero.

(** [m_a.resize(n)] on the rows. *)
Definition resize_rows (n : nat) (a : list (list num)) : list (list num) :=
  firstn n a ++ repeat [] (n - List.length a).

(** "Transfer the voltages to rhs vector, correcting for the equipotential
    planes". *)
Definition Charge_rhs (corvta corvtb corvtc : num) (ws : list W) : list num :=
  map (fun w => sub (wv w) (add (add (mul corvta (wx w)) (mul corvtb (wy w))) corvtc)) ws.

(** "Add extra elements to A, acting as constraints": a column of ones, and
    a last row of ones closed by a zero. *)
Definition augment (n : nat) (a : list (list num)) : list (list num) :=
  map (fun row => row ++ [one]) (firstn n (resize_rows (S n) a))
  ++ [repeat one n ++ [zero]].

(** "Modify A to give true inverse of capacitance matrix". *)
Definition true_inverse (n : nat) (a : list (list num)) : list (list num) :=
  let t := div one (mat_at a n n) in
  mapi_from 0
    (fun i row =>
       if (i <? n)%nat then
         mapi_from 0
           (fun j aij =>
              if (j <? n)%nat
              then sub aij (mul (mul t (mat_at a i n)) (mat_at a n j))
              else aij) row
       else row) a.

(** "Copy the charges to E". *)
Definition store_charges (n : nat) (b : list num) (ws : list W) : list W :=
  mapi_from 0 (fun i w => if (i <? n)%nat then set_we (nth i b zero) w else w) ws.

(** The result is the return value and the new [m_a], [m_v0] and [m_w].
    [anchored] says whether a plane or the tube is present; [n] is
    [m_nWires]. *)
Definition Charge_core (anchored : bool) (n : nat) (corvta corvtb corvtc v0 : num)
    (a : list (list num)) (ws : list W)
  : bool * (list (list num) * num * list W) :=
  let b := Charge_rhs corvta corvtb corvtc (firstn n ws) in
  if negb anchored then
    let '(ifail, a, b) := Deqinv (Z.of_nat (S n)) (augment n a) (b ++ [zero]) in
    if negb (ifail =? 0)%Z then (false, (a, v0, ws))
    else if neb (mat_at a n n) zero
    then (true, (true_inverse n a, nth n b zero, store_charges n b ws))
    else (false, (a, nth n b zero, ws))
  else
    let '(ifail, a, b) := Deqinv (Z.of_nat n) a b in
    (true, (a, zero, store_charges n b ws)).

End Solver.

(* ================================================================== *)
(** * Operations *)
(* ================================================================== *)

Section Component.
Variable ext : Extern.
Local Open Scope float_scope.
Import Dbl.

(** ** CellInit and the constructor *)

Definition plane_init : plane.t := plane.mk "?" (-1) 0 0 [] [] [].

Definition Derived_init : Derived := mkDerived [] 0 (0, 0) 0 0 0 [] 0.

Definition CellInit (s : State) : State :=
  {| m_cellset := false; m_sigset := false; m_polar := false;
     m_scellType := "A  "; m_cellType := A00;
     xmin := 0; xmax := 0; ymin := 0; ymax := 0;
     zmin := 0; zmax := 0; vmin := 0; vmax := 0;
     m_xPeriodic := m_xPeriodic s; m_yPeriodic := m_yPeriodic s;
     m_perx := false; m_pery := false; m_sx := 1; m_sy := 1;
     m_readout := [];
     m_nWires := 0; m_w := [];
     dipole := false; m_derived := Derived_init;
     m_v0 := 0; m_corvta := 0; m_corvtb := 0; m_corvtc := 0;
     planes := repeat plane_init 5;
     m_ynplan := repeat false 4; m_coplan := repeat 0 4; m_vtplan := repeat 0 4;
     m_ynplax := false; m_ynplay := false; m_coplax := 1; m_coplay := 1;
     m_tube := false; m_ntube := 0; m_mtube := 1; m_cotube := 1; m_vttube := 0;
     m_a := [];
     m_ch3d := []; m_nTermBessel := 10; m_nTermPoly := 100;
     m_signals := mkSignals 1 "A  " false false 0 0 0 0 0 [] [] |}.

(** The state a freshly constructed object has: the base class starts with
    no periodicity requested, then [CellInit] runs. *)
Definition construct : State :=
  CellInit (mkState false false false "" A00 0 0 0 0 0 0 0 0 false false
              false false 0 0 [] 0 [] false Derived_init 0 0 0 0 [] [] [] []
              false false 0 0 false 0 0 0 0 [] [] 0 0
              (mkSignals 0 "" false false 0 0 0 0 0 [] [])).

(** ** IsWireCrossed *)

(** The loop [for (int i = m_nWires; i--;)] visits [m_nWires-1 .. 0]. *)
Definition down_indices (n : Z) : list nat := rev (seq 0 (Z.to_nat n)).

Definition IsWireCrossed_wire (s : State) (x0 y0 z0 x1 y1 z1 : float) (i : nat)
  : option (float * float * float) :=
  let dx := x1 - x0 in
  let dy := y1 - y0 in
  let d2 := dx * dx + dy * dy in
  let xm := 0.5 * (x0 + x1) in
  let ym := 0.5 * (y0 + y1) in
  let xw := wire.x (w_at s i) in
  let yw := wire.y (w_at s i) in
  let xw := if m_perx s then xw + m_sx s * of_int (int_round ((xm - xw) / m_sx s)) else xw in
  let yw := if m_pery s then yw + m_sy s * of_int (int_round ((ym - yw) / m_sy s)) else yw in
  let xIn0 := dx * (xw - x0) + dy * (yw - y0) in
  if xIn0 <? 0 then None else
  let xIn1 := - (dx * (xw - x1) + dy * (yw - y1)) in
  if xIn1 <? 0 then None else
  let xw0 := xw - x0 in
  let xw1 := xw - x1 in
  let yw0 := yw - y0 in
  let yw1 := yw - y1 in
  let dw02 := xw0 * xw0 + yw0 * yw0 in
  let dw12 := xw1 * xw1 + yw1 * yw1 in
  let dMin2 :=
    if gtb (xIn1 * xIn1 * dw02) (xIn0 * xIn0 * dw12)
    then dw02 - xIn0 * xIn0 / d2
    else dw12 - xIn1 * xIn1 / d2 in
  let r2 := 0.25 * wire.d (w_at s i) * wire.d (w_at s i) in
  if dMin2 <? r2 then
    let p := - xIn0 / d2 in
    let q := (dw02 - r2) / d2 in
    let t1 := - p + sqrt (p * p - q) in
    let t2 := - p - sqrt (p * p - q) in
    let t := Dbl.min t1 t2 in
    Some (x0 + t * dx, y0 + t * dy, z0 + t * (z1 - z0))
  else None.

Fixpoint IsWireCrossed_loop (s : State) (x0 y0 z0 x1 y1 z1 : float) (idx : list nat)
  : option (float * float * float) :=
  match idx with
  | [] => None
  | i :: rest =>
      match IsWireCrossed_wire s x0 y0 z0 x1 y1 z1 i with
      | Some c => Some c
      | None => IsWireCrossed_loop s x0 y0 z0 x1 y1 z1 rest
      end
  end.

(** The result is the returned flag and the crossing point (xc, yc, zc). *)
Definition IsWireCrossed (s : State) (x0 y0 z0 x1 y1 z1 : float)
  : bool * (float * float * float) :=
  let start := (x0, y0, z0) in
  match m_w s with
  | [] => (false, start)
  | _ :: _ =>
      let dx := x1 - x0 in
      let dy := y1 - y0 in
      let d2 := dx * dx + dy * dy in
      if d2 <? Small ext then (false, start)
      else if (m_perx s && geb (fabs dx) (m_sx s)) || (m_pery s && geb (fabs dy) (m_sy s))
      then (false, start)
      else
        match IsWireCrossed_loop s x0 y0 z0 x1 y1 z1 (down_indices (m_nWires s)) with
        | Some c => (true, c)
        | None => (false, start)
        end
  end.

(** ** Mutators *)

(** Every mutator ends with "force recalculation of the capacitance and
    signal matrices". *)
Definition invalidate (s : State) : State := set_m_sigset false (set_m_cellset false s).

Definition AddWire (x y diameter voltage : float) (label : string)
    (length tension rho : float) (ntrap : Z) (s : State) : State :=
  if diameter <=? 0 then s
  else if tension <=? 0 then s
  else if rho <=? 0 then s
  else if length <=? 0 then s
  else if (ntrap <=? 0)%Z then s
  else
    let newWire := wire.mk x y diameter voltage length label 0 (-1) ntrap in
    let s := set_m_w (m_w s ++ [newWire]) s in
    let s := set_m_nWires (uincr (m_nWires s)) s in
    invalidate s.

Definition AddTube (radius voltage : float) (nEdges : Z) (label : string)
    (s : State) : State :=
  if radius <=? 0 then s
  else if ((nEdges <? 3) && negb (nEdges =? 0))%Z then s
  else
    let s := set_m_tube true s in
    let s := set_m_polar false s in
    let s := set_m_cotube radius s in
    let s := set_m_vttube voltage s in
    let s := set_m_ntube nEdges s in
    let s := set_planes_at 4 (plane.set_label label (planes_at s 4)) s in
    invalidate s.

(** [AddPlaneX]/[AddPlaneY] fill slot [lo] first and slot [lo+1] second. *)
Definition AddPlane (lo : nat) (c v : float) (lab : string) (s : State) : State :=
  if ynplan s lo && ynplan s (S lo) then s
  else
    let i := if ynplan s lo then S lo else lo in
    let s := set_ynplan i true s in
    let s := set_coplan i c s in
    let s := set_vtplan i v s in
    let s := set_planes_at i (plane.set_label lab (planes_at s i)) s in
    invalidate s.

Definition AddPlaneX (x v : float) (lab : string) (s : State) : State := AddPlane 0 x v lab s.
Definition AddPlaneY (y v : float) (lab : string) (s : State) : State := AddPlane 2 y v lab s.

Definition is_char (c : ascii) (a b : string) : bool :=
  String.eqb (String c EmptyString) a || String.eqb (String c EmptyString) b.

Definition gap_of (gap : float) : float := if gtb gap (Small ext) then gap else (-1).

(** [AddStripOnPlaneX] ([lo] = 0, first direction y) and [AddStripOnPlaneY]
    ([lo] = 2, first direction x). *)
Definition AddStripOnPlane (lo : nat) (dir1a dir1b : string) (direction : ascii)
    (c smin smax : float) (label : string) (gap : float) (s : State) : State :=
  if negb (ynplan s lo) && negb (ynplan s (S lo)) then s
  else if negb (is_char direction dir1a dir1b) && negb (is_char direction "z" "Z") then s
  else if fabs (smax - smin) <? Small ext then s
  else
    let newStrip := strip.mk label (-1) (Dbl.min smin smax) (Dbl.max smin smax) (gap_of gap) in
    let iplane :=
      if ynplan s (S lo) && (fabs (coplan s (S lo) - c) <? fabs (coplan s lo - c))
      then S lo else lo in
    let p := planes_at s iplane in
    if is_char direction dir1a dir1b
    then set_planes_at iplane (plane.set_strips1 (plane.strips1 p ++ [newStrip]) p) s
    else set_planes_at iplane (plane.set_strips2 (plane.strips2 p ++ [newStrip]) p) s.

Definition AddStripOnPlaneX := AddStripOnPlane 0 "y" "Y".
Definition AddStripOnPlaneY := AddStripOnPlane 2 "x" "X".

Definition AddPixelOnPlane (lo : nat) (c smin smax zmin zmax : float)
    (label : string) (gap : float) (s : State) : State :=
  if negb (ynplan s lo) && negb (ynplan s (S lo)) then s
  else if (fabs (smax - smin) <? Small ext) || (fabs (zmax - zmin) <? Small ext) then s
  else
    let newPixel :=
      pixel.mk label (-1) (Dbl.min smin smax) (Dbl.max smin smax)
               (Dbl.min zmin zmax) (Dbl.max zmin zmax) (gap_of gap) in
    let iplane :=
      if ynplan s (S lo) && (fabs (coplan s (S lo) - c) <? fabs (coplan s lo - c))
      then S lo else lo in
    let p := planes_at s iplane in
    set_planes_at iplane (plane.set_pixels (plane.pixels p ++ [newPixel]) p) s.

Definition AddPixelOnPlaneX := AddPixelOnPlane 0.
Definition AddPixelOnPlaneY := AddPixelOnPlane 2.

Definition UpdatePeriodicity (s : State) : State :=
  let s :=
    if m_perx s && negb (m_xPeriodic s) then invalidate (set_m_perx false s)
    else if negb (m_perx s) && m_xPeriodic s then
      if m_sx s <? Small ext then s else invalidate (set_m_perx true s)
    else s in
  let s :=
    if m_pery s && negb (m_yPeriodic s) then invalidate (set_m_pery false s)
    else if negb (m_pery s) && m_yPeriodic s then
      if m_sy s <? Small ext then s else invalidate (set_m_pery true s)
    else s in
  s.

Definition SetPeriodicityX (sp : float) (s : State) : State :=
  if sp <? Small ext then s
  else UpdatePeriodicity (set_m_sx sp (set_m_xPeriodic true s)).

Definition SetPeriodicityY (sp : float) (s : State) : State :=
  if sp <? Small ext then s
  else UpdatePeriodicity (set_m_sy sp (set_m_yPeriodic true s)).

Definition AddCharge (x y z q : float) (s : State) : State :=
  set_m_ch3d (m_ch3d s ++ [charge3d.mk x y z (q / FourPiEpsilon0 ext)]) s.

Definition ClearCharges (s : State) : State :=
  set_m_nTermPoly 100 (set_m_nTermBessel 10 (set_m_ch3d [] s)).

(** ** Accessors *)

(** [GetWire(i, ...)]: [None] is the return value false (outputs untouched);
    otherwise x, y, diameter, voltage, label, length, charge, ntrap. *)
Definition GetWire (s : State) (i : Z)
  : option (float * float * float * float * string * float * float * Z) :=
  if (m_nWires s <=? i)%Z then None
  else
    let w := w_at s (zidx i) in
    Some (wire.x w, wire.y w, wire.d w, wire.v w, wire.type w, wire.u w,
          wire.e w, wire.nTrap w).

(** ** AddReadout *)

Definition AddReadout (label : string) (s : State) : State :=
  if existsb (String.eqb label) (m_readout s) then s
  else set_m_sigset false (set_m_readout (m_readout s ++ [label]) s).

(** ** InTube *)

Definition InTube (x0 y0 a : float) (n : Z) : bool :=
  if (x0 =? 0) && (y0 =? 0) then true
  else if (n =? 0)%Z then negb (gtb (x0 * x0 + y0 * y0) (a * a))
  else if ((n <? 0) || (n =? 1) || (n =? 2))%Z then false
  else
    let phi := c_atan2 ext y0 x0 in
    let phi := if phi <? 0 then phi + TwoPi ext else phi in
    let phi := phi - TwoPi ext * of_int (int_trunc (0.5 * of_int n * phi / Pi ext)) / of_int n in
    negb (gtb ((x0 * x0 + y0 * y0) * pow2 (c_cos ext (Pi ext / of_int n - phi)))
              (a * a * pow2 (c_cos ext (Pi ext / of_int n)))).

(** ** CellCheck *)

(** The wires in use are [m_w[0 .. m_nWires-1]]; the vector may be longer. *)
Definition nW (s : State) : nat := Z.to_nat (m_nWires s).
Definition wires (s : State) : list wire.t := firstn (nW s) (m_w s).

(** A loop [for (i = 0; i < m_nWires; ++i) m_w[i] = f(m_w[i])]. *)
Definition map_wires (f : wire.t -> wire.t) (s : State) : State :=
  set_m_w (map f (wires s) ++ skipn (nW s) (m_w s)) s.

(** Folding of a coordinate into the basic period: [c - sp * int(round(c / sp))]. *)
Definition fold_period (c sp : float) : float := c - sp * of_int (int_round (c / sp)).

(** "Move the planes to the basic cell" for the pair of planes [lo], [lo+1]
    with period [sp]; the result also says whether the periodicity stays. *)
Definition CellCheck_planes (lo : nat) (sp : float) (s : State) : State * bool :=
  let both := ynplan s lo && ynplan s (S lo) in
  let conew1 := fold_period (coplan s lo) sp in
  let conew2 := fold_period (coplan s (S lo)) sp in
  let '(conew1, conew2) :=
    if both && (conew1 =? conew2) then
      if gtb conew1 0 then (conew1 - sp, conew2) else (conew1, conew2 + sp)
    else (conew1, conew2) in
  let s := set_coplan lo conew1 s in
  let s := set_coplan (S lo) conew2 s in
  let per := true in
  let per := if both && neb (fabs (coplan s (S lo) - coplan s lo)) sp then false else per in
  let per := if both && neb (vtplan s lo) (vtplan s (S lo)) then false else per in
  (s, per).

(** "Check that there is no voltage conflict of crossing planes":
    [for i in 0..1, for j in 2..2]. *)
Definition CellCheck_conflict (i j : nat) (s : State) : State :=
  if ynplan s i && ynplan s j && neb (vtplan s i) (vtplan s j)
  then set_ynplan j false s else s.

(** "Make sure the coordinates of the planes are properly ordered". *)
Definition CellCheck_order (i : nat) (s : State) : State :=
  if ynplan s i && ynplan s (S i) then
    let s := if coplan s i =? coplan s (S i) then set_ynplan (S i) false s else s in
    if gtb (coplan s i) (coplan s (S i)) then
      let cohlp := coplan s i in
      let s := set_coplan i (coplan s (S i)) s in
      let s := set_coplan (S i) cohlp s in
      let vthlp := vtplan s i in
      let s := set_vtplan i (vtplan s (S i)) s in
      let s := set_vtplan (S i) vthlp s in
      let plahlp := planes_at s i in
      let s := set_planes_at i (planes_at s (S i)) s in
      set_planes_at (S i) plahlp s
    else s
  else s.

(** Wires moved to the basic phi period of a tube. *)
Definition CellCheck_phi (s : State) (w : wire.t) : wire.t :=
  let '(xnew, ynew) := Cartesian2Polar ext (wire.x w) (wire.y w) in
  if negb (int_round ((Pi ext / ynew) / (m_sy s * 180)) =? 0)%Z then
    let ynew := ynew - 180 * m_sy s * of_int (int_round ((Pi ext * ynew) / (m_sy s * 180))) / Pi ext in
    let '(x', y') := Polar2Cartesian ext xnew ynew in
    wire.set_y y' (wire.set_x x' w)
  else w.

(** The number of wires in use with [f w <= c]. *)
Definition count_le (f : wire.t -> float) (c : float) (s : State) : Z :=
  Z.of_nat (List.length (filter (fun w => f w <=? c) (wires s))).

(** "Find out whether smaller (-1) or larger (+1) coord. are to be kept",
    for the planes [lo], [lo+1] with wire counts [ipl] and [iph]. *)
Definition CellCheck_keep (lo : nat) (ipl iph : Z) (s : State) : State * Z * Z :=
  let half := (m_nWires s / 2)%Z in
  let '(s, ipl, iph) :=
    if ynplan s lo && ynplan s (S lo) then
      let '(s, ipl) :=
        if (half <? ipl)%Z then (set_ynplan (S lo) false s, (-1)%Z) else (s, 1%Z) in
      let '(s, iph) :=
        if (iph <? half)%Z then (set_ynplan lo false s, 1%Z) else (s, (-1)%Z) in
      (s, ipl, iph)
    else (s, ipl, iph) in
  let ipl :=
    if ynplan s lo && negb (ynplan s (S lo))
    then (if (half <? ipl)%Z then (-1)%Z else 1%Z) else ipl in
  let iph :=
    if ynplan s (S lo) && negb (ynplan s lo)
    then (if (iph <? half)%Z then 1%Z else (-1)%Z) else iph in
  (s, ipl, iph).

(** "Adapt the numbering of the planes if necessary": move slot [from] to
    slot [to]. *)
Definition CellCheck_move (from to : nat) (s : State) : State :=
  let s := set_ynplan from false s in
  let s := set_ynplan to true s in
  let s := set_coplan to (coplan s from) s in
  let s := set_vtplan to (vtplan s from) s in
  set_planes_at to (planes_at s from) s.

(** "Second pass for the wires, check position relative to the planes". *)
Definition CellCheck_wrong (s : State) (w : wire.t) : bool :=
  let wrong :=
    (ynplan s 0 && (wire.x w - 0.5 * wire.d w <=? coplan s 0))
    || (ynplan s 1 && geb (wire.x w + 0.5 * wire.d w) (coplan s 1))
    || (ynplan s 2 && (wire.y w - 0.5 * wire.d w <=? coplan s 2))
    || (ynplan s 3 && geb (wire.y w + 0.5 * wire.d w) (coplan s 3)) in
  if m_tube s then
    if negb (InTube (wire.x w) (wire.y w) (m_cotube s) (m_ntube s)) then true else wrong
  else if wrong then true
  else (m_perx s && geb (wire.d w) (m_sx s)) || (m_pery s && geb (wire.d w) (m_sy s)).

(** "Check the wire spacing": do wires [wi] and [wj] overlap? *)
Definition CellCheck_overlap (s : State) (wi wj : wire.t) : bool :=
  let '(xsepar, ysepar) :=
    if m_tube s then
      if m_pery s then
        let '(xaux1, yaux1) := Cartesian2Polar ext (wire.x wi) (wire.y wi) in
        let '(xaux2, yaux2) := Cartesian2Polar ext (wire.x wj) (wire.y wj) in
        let yaux1 := fold_period yaux1 (m_sy s) in
        let yaux2 := fold_period yaux2 (m_sy s) in
        let '(xaux1, yaux1) := Polar2Cartesian ext xaux1 yaux1 in
        let '(xaux2, yaux2) := Polar2Cartesian ext xaux2 yaux2 in
        (xaux1 - xaux2, yaux1 - yaux2)
      else (wire.x wi - wire.x wj, wire.y wi - wire.y wj)
    else
      let xsepar := fabs (wire.x wi - wire.x wj) in
      let xsepar := if m_perx s then fold_period xsepar (m_sx s) else xsepar in
      let ysepar := fabs (wire.y wi - wire.y wj) in
      let ysepar := if m_pery s then fold_period ysepar (m_sy s) else ysepar in
      (xsepar, ysepar) in
  xsepar * xsepar + ysepar * ysepar <? 0.25 * pow2 (wire.d wi + wire.d wj).

(** The inner loop over [j = i+1 ..] and the outer loop over [i]; [wrong] is
    updated in place. *)
Definition CellCheck_spacing_j (s : State) (i : nat) (wrong : list bool) (j : nat)
  : list bool :=
  if nth j wrong false then wrong
  else if CellCheck_overlap s (w_at s i) (w_at s j) then upd j true wrong
  else wrong.

Definition CellCheck_spacing_i (s : State) (wrong : list bool) (i : nat) : list bool :=
  if nth i wrong false then wrong
  else fold_left (CellCheck_spacing_j s i) (seq (S i) (nW s - S i)) wrong.

Definition CellCheck_spacing (s : State) (wrong : list bool) : list bool :=
  fold_left (CellCheck_spacing_i s) (seq 0 (nW s)) wrong.

(** "Remove the wires which are not acceptable": the kept wires are copied
    down slot by slot and counted; the vector itself keeps its length. *)
Definition CellCheck_remove_i (wrong : list bool) (s : State) (i : nat) : State :=
  if nth i wrong false then s
  else
    let s := set_w_at (nW s) (w_at s i) s in
    set_m_nWires (uincr (m_nWires s)) s.

Definition CellCheck_remove (wrong : list bool) (s : State) : State :=
  let iWires := nW s in
  fold_left (CellCheck_remove_i wrong) (seq 0 iWires) (set_m_nWires 0 s).

(** The bounding box and voltage range under construction. *)
Record Box : Type := mkBox
  { bxmin : float; bxmax : float; bymin : float; bymax : float;
    bzmin : float; bzmax : float; bvmin : float; bvmax : float;
    setx : bool; sety : bool; setz : bool; setv : bool }.

Definition Box_wire (s : State) (b : Box) (i : nat) : Box :=
  let w := w_at s i in
  let lo c := c - wire.d w / 2 in
  let hi c := c + wire.d w / 2 in
  let '(x0, x1) :=
    if setx b then (Dbl.min (bxmin b) (lo (wire.x w)), Dbl.max (bxmax b) (hi (wire.x w)))
    else (lo (wire.x w), hi (wire.x w)) in
  let '(y0, y1) :=
    if sety b then (Dbl.min (bymin b) (lo (wire.y w)), Dbl.max (bymax b) (hi (wire.y w)))
    else (lo (wire.y w), hi (wire.y w)) in
  let '(z0, z1) :=
    if setz b then (Dbl.min (bzmin b) (- wire.u w / 2), Dbl.max (bzmax b) (wire.u w / 2))
    else (- wire.u w / 2, wire.u w / 2) in
  let '(v0, v1) :=
    if setv b then (Dbl.min (bvmin b) (wire.v w), Dbl.max (bvmax b) (wire.v w))
    else (wire.v w, wire.v w) in
  mkBox x0 x1 y0 y1 z0 z1 v0 v1 true true true true.

Definition Box_plane (s : State) (b : Box) (i : nat) : Box :=
  if negb (ynplan s i) then b
  else
    let c := coplan s i in
    let b :=
      if (i <? 2)%nat then
        if setx b
        then mkBox (Dbl.min (bxmin b) c) (Dbl.max (bxmax b) c) (bymin b) (bymax b)
                   (bzmin b) (bzmax b) (bvmin b) (bvmax b) true (sety b) (setz b) (setv b)
        else mkBox c c (bymin b) (bymax b)
                   (bzmin b) (bzmax b) (bvmin b) (bvmax b) true (sety b) (setz b) (setv b)
      else
        if sety b
        then mkBox (bxmin b) (bxmax b) (Dbl.min (bymin b) c) (Dbl.max (bymax b) c)
                   (bzmin b) (bzmax b) (bvmin b) (bvmax b) (setx b) true (setz b) (setv b)
        else mkBox (bxmin b) (bxmax b) c c
                   (bzmin b) (bzmax b) (bvmin b) (bvmax b) (setx b) true (setz b) (setv b) in
    let v := vtplan s i in
    if setv b
    then mkBox (bxmin b) (bxmax b) (bymin b) (bymax b) (bzmin b) (bzmax b)
               (Dbl.min (bvmin b) v) (Dbl.max (bvmax b) v) (setx b) (sety b) (setz b) true
    else mkBox (bxmin b) (bxmax b) (bymin b) (bymax b) (bzmin b) (bzmax b)
               v v (setx b) (sety b) (setz b) true.

Definition Box_tube (s : State) (b : Box) : Box :=
  if m_tube s then
    mkBox (-1.1 * m_cotube s) (1.1 * m_cotube s) (-1.1 * m_cotube s) (1.1 * m_cotube s)
          (bzmin b) (bzmax b)
          (Dbl.min (bvmin b) (m_vttube s)) (Dbl.max (bvmax b) (m_vttube s))
          true true (setz b) true
  else b.

Definition Box_periods (s : State) (b : Box) : Box :=
  let b :=
    if m_perx s && gtb (m_sx s) (bxmax b - bxmin b)
    then mkBox (- m_sx s / 2) (m_sx s / 2) (bymin b) (bymax b) (bzmin b) (bzmax b)
               (bvmin b) (bvmax b) true (sety b) (setz b) (setv b)
    else b in
  let b :=
    if m_pery s && gtb (m_sy s) (bymax b - bymin b)
    then mkBox (bxmin b) (bxmax b) (- m_sy s / 2) (m_sy s / 2) (bzmin b) (bzmax b)
               (bvmin b) (bvmax b) (setx b) true (setz b) (setv b)
    else b in
  if m_polar s && geb (bymax b - bymin b) (TwoPi ext)
  then mkBox (bxmin b) (bxmax b) (- Pi ext) (Pi ext) (bzmin b) (bzmax b)
             (bvmin b) (bvmax b) (setx b) true (setz b) (setv b)
  else b.

Definition Box_fill (b : Box) : Box :=
  let b :=
    if setx b && neb (bxmin b) (bxmax b) && ((bymin b =? bymax b) || negb (sety b))
    then mkBox (bxmin b) (bxmax b)
               (bymin b - fabs (bxmax b - bxmin b) / 2) (bymax b + fabs (bxmax b - bxmin b) / 2)
               (bzmin b) (bzmax b) (bvmin b) (bvmax b) (setx b) true (setz b) (setv b)
    else b in
  let b :=
    if sety b && neb (bymin b) (bymax b) && ((bxmin b =? bxmax b) || negb (setx b))
    then mkBox (bxmin b - fabs (bymax b - bymin b) / 2) (bxmax b + fabs (bymax b - bymin b) / 2)
               (bymin b) (bymax b)
               (bzmin b) (bzmax b) (bvmin b) (bvmax b) true (sety b) (setz b) (setv b)
    else b in
  if negb (setz b)
  then mkBox (bxmin b) (bxmax b) (bymin b) (bymax b)
             (- (fabs (bxmax b - bxmin b) + fabs (bymax b - bymin b)) / 4)
             ((fabs (bxmax b - bxmin b) + fabs (bymax b - bymin b)) / 4)
             (bvmin b) (bvmax b) (setx b) (sety b) true (setv b)
  else b.

Definition store_Box (b : Box) (s : State) : State :=
  let s := set_xmin (bxmin b) (set_xmax (bxmax b) s) in
  let s := set_ymin (bymin b) (set_ymax (bymax b) s) in
  let s := set_zmin (bzmin b) (set_zmax (bzmax b) s) in
  set_vmin (bvmin b) (set_vmax (bvmax b) s).

(** "Checks on the planes": the planes are moved to the basic cell, conflicts
    between crossing planes are resolved and each pair is put in order. *)
Definition CellCheck_planes_phase (s : State) : State :=
  let s :=
    if m_perx s then
      let '(s, per) := CellCheck_planes 0 (m_sx s) s in set_m_perx per s
    else s in
  let s :=
    if m_pery s then
      let '(s, per) := CellCheck_planes 2 (m_sy s) s in set_m_pery per s
    else s in
  let s := CellCheck_conflict 1 2 (CellCheck_conflict 0 2 s) in
  CellCheck_order 2 (CellCheck_order 0 s).

(** "Checks on the wires, start moving them to the basic period". *)
Definition CellCheck_wires_phase (s : State) : State :=
  let s :=
    if m_perx s
    then map_wires (fun w => wire.set_x (fold_period (wire.x w) (m_sx s)) w) s
    else s in
  if m_tube s && m_pery s then map_wires (CellCheck_phi s) s
  else if m_pery s
  then map_wires (fun w => wire.set_y (fold_period (wire.y w) (m_sy s)) w) s
  else s.

(** "Make sure the plane numbering is standard: P1 wires P2, P3 wires P4". *)
Definition CellCheck_numbering (s : State) : State :=
  let iplan1 := if ynplan s 0 then count_le wire.x (coplan s 0) s else 0%Z in
  let iplan2 := if ynplan s 1 then count_le wire.x (coplan s 1) s else 0%Z in
  let iplan3 := if ynplan s 2 then count_le wire.y (coplan s 2) s else 0%Z in
  let iplan4 := if ynplan s 3 then count_le wire.y (coplan s 3) s else 0%Z in
  let '(s, iplan1, iplan2) := CellCheck_keep 0 iplan1 iplan2 s in
  let '(s, iplan3, iplan4) := CellCheck_keep 2 iplan3 iplan4 s in
  let s := if (iplan1 =? -1)%Z then CellCheck_move 0 1 s else s in
  let s := if (iplan2 =? 1)%Z then CellCheck_move 1 0 s else s in
  let s := if (iplan3 =? -1)%Z then CellCheck_move 2 3 s else s in
  if (iplan4 =? 1)%Z then CellCheck_move 3 2 s else s.

(** The wires: position relative to the planes, spacing, removal. *)
Definition CellCheck_prune (s : State) : State :=
  let wrong := map (CellCheck_wrong s) (wires s) in
  let wrong := CellCheck_spacing s wrong in
  CellCheck_remove wrong s.

(** "Ensure that some elements are left", the cell dimensions and the
    voltage range, "check that at least some different voltages are
    present". *)
Definition CellCheck_box (s : State) : bool * State :=
  let b2z (b : bool) : Z := if b then 1%Z else 0%Z in
  let nElements :=
    (m_nWires s + b2z (ynplan s 0) + b2z (ynplan s 1) + b2z (ynplan s 2)
     + b2z (ynplan s 3) + b2z (m_tube s))%Z in
  if (nElements <? 2)%Z then (false, s)
  else
    let b := mkBox 0 0 0 0 0 0 0 0 false false false false in
    let b := fold_left (Box_wire s) (down_indices (m_nWires s)) b in
    let b := fold_left (Box_plane s) (seq 0 4) b in
    let b := Box_tube s b in
    let b := Box_periods s b in
    let b := Box_fill b in
    let s := store_Box b s in
    if (bvmin b =? bvmax b) || negb (setv b) then (false, s) else (true, s).

Definition CellCheck (s : State) : bool * State :=
  CellCheck_box
    (CellCheck_prune
       (CellCheck_numbering (CellCheck_wires_phase (CellCheck_planes_phase s)))).

(** ** CellType *)

Definition set_type (name : string) (c : Cell) (s : State) : State :=
  set_m_cellType c (set_m_scellType name s).

Definition CellType (s : State) : bool * State :=
  let p0 := ynplan s 0 in
  let p1 := ynplan s 1 in
  let p2 := ynplan s 2 in
  let p3 := ynplan s 3 in
  let perx := m_perx s in
  let pery := m_pery s in
  let sx' := fabs (coplan s 1 - coplan s 0) in
  let sy' := fabs (coplan s 3 - coplan s 2) in
  (* Tube geometries *)
  if m_tube s then
    if (m_ntube s =? 0)%Z then
      if pery then (true, set_type "D2 " D20 s) else (true, set_type "D1 " D10 s)
    else if ((3 <=? m_ntube s) && (m_ntube s <=? 8))%Z then
      if pery then (true, set_type "D4 " D40 s) else (true, set_type "D3 " D30 s)
    else
      (true, set_m_cellType D30 (set_m_ntube 0 (set_m_scellType "D3 " s)))
  (* Find the 'A' type cell. *)
  else if negb (perx || pery) && negb (p0 && p1) && negb (p2 && p3) then
    (true, set_type "A  " A00 s)
  (* Find the 'B1X' type cell. *)
  else if perx && negb pery && negb (p0 || p1) && negb (p2 && p3) then
    (true, set_type "B1X" B1X s)
  (* Find the 'B1Y' type cell. *)
  else if pery && negb perx && negb (p0 && p1) && negb (p2 || p3) then
    (true, set_type "B1Y" B1Y s)
  (* Find the 'B2X' type cell. *)
  else if perx && negb pery && negb (p2 && p3) then
    (true, set_type "B2X" B2X s)
  else if negb (perx || pery) && negb (p2 && p3) && (p0 && p1) then
    (true, set_type "B2X" B2X (set_m_sx sx' s))
  (* Find the 'B2Y' type cell. *)
  else if pery && negb perx && negb (p0 && p1) then
    (true, set_type "B2Y" B2Y s)
  else if negb (perx || pery) && negb (p0 && p1) && (p2 && p3) then
    (true, set_type "B2Y" B2Y (set_m_sy sy' s))
  (* Find the 'C1 ' type cell. *)
  else if negb (p0 || p1 || p2 || p3) && perx && pery then
    (true, set_type "C1 " C10 s)
  (* Find the 'C2X' type cell. *)
  else if negb ((p2 && pery) || (p2 && p3)) && (p0 && p1) then
    (true, set_type "C2X" C2X (set_m_sx sx' s))
  else if negb ((p2 && pery) || (p2 && p3)) && (perx && p0) then
    (true, set_type "C2X" C2X s)
  (* Find the 'C2Y' type cell. *)
  else if negb ((p0 && perx) || (p0 && p1)) && (p2 && p3) then
    (true, set_type "C2Y" C2Y (set_m_sy sy' s))
  else if negb ((p0 && perx) || (p0 && p1)) && (pery && p2) then
    (true, set_type "C2Y" C2Y s)
  (* Find the 'C3 ' type cell. *)
  else if perx && pery then (true, set_type "C3 " C30 s)
  else if perx then (true, set_type "C3 " C30 (set_m_sy sy' s))
  else if pery then (true, set_type "C3 " C30 (set_m_sx sx' s))
  else if p0 && p1 && p2 && p3 then
    (true, set_type "C3 " C30 (set_m_sy sy' (set_m_sx sx' s)))
  (* Cell is not recognised. *)
  else (false, s).

(** ** PrepareStrips *)

(** The default gap of plane [lo]: the distance to the facing plane [other]
    if present, else to the nearest wire, else -1. *)
Definition gap_default (s : State) (this other : nat) (dist : wire.t -> float) : float :=
  if ynplan s this then
    if ynplan s other then coplan s (Nat.max this other) - coplan s (Nat.min this other)
    else if (m_nWires s <=? 0)%Z then (-1)
    else
      fold_left (fun g i => if dist (w_at s i) <? g then dist (w_at s i) else g)
                (down_indices (m_nWires s)) (dist (w_at s 0))
  else 0.

(** One loop over strips (or pixels): missing gaps get the default; the loop
    returns false at the first element left without a gap. *)
Fixpoint assign_gaps {A : Type} (gap : A -> float) (set_gap : float -> A -> A)
    (gd : float) (l : list A) : bool * list A :=
  match l with
  | [] => (true, [])
  | a :: t =>
      let a := if gap a <? 0 then set_gap gd a else a in
      if gap a <? 0 then (false, a :: t)
      else let '(ok, t) := assign_gaps gap set_gap gd t in (ok, a :: t)
  end.

Definition PrepareStrips_plane (gapDef : list float) (r : bool * State) (i : nat)
  : bool * State :=
  let '(ok, s) := r in
  if negb ok then r
  else
    let gd := nth i gapDef 0 in
    let p := planes_at s i in
    let '(ok, l) := assign_gaps strip.gap strip.set_gap gd (plane.strips1 p) in
    let p := plane.set_strips1 l p in
    if negb ok then (false, set_planes_at i p s)
    else
      let '(ok, l) := assign_gaps strip.gap strip.set_gap gd (plane.strips2 p) in
      let p := plane.set_strips2 l p in
      if negb ok then (false, set_planes_at i p s)
      else
        let '(ok, l) := assign_gaps pixel.gap pixel.set_gap gd (plane.pixels p) in
        (ok, set_planes_at i (plane.set_pixels l p) s).

Definition PrepareStrips (s : State) : bool * State :=
  let gapDef :=
    [ gap_default s 0 1 (fun w => wire.x w - coplan s 0);
      gap_default s 1 0 (fun w => coplan s 1 - wire.x w);
      gap_default s 2 3 (fun w => wire.y w - coplan s 2);
      gap_default s 3 2 (fun w => coplan s 3 - wire.y w) ] in
  fold_left (PrepareStrips_plane gapDef) (seq 0 4) (true, s).

(** ** Charge, Setup, Prepare *)

Definition anchored (s : State) : bool :=
  ynplan s 0 || ynplan s 1 || ynplan s 2 || ynplan s 3 || m_tube s.

Definition Charge (s : State) : bool * State :=
  let '(ok, (a, v0, ws)) :=
    Charge_core float 0 1 PrimFloat.add PrimFloat.sub PrimFloat.mul PrimFloat.div neb
                wire.t wire.v wire.x wire.y wire.set_e (Deqinv ext)
                (anchored s) (nW s) (m_corvta s) (m_corvtb s) (m_corvtc s) (m_v0 s)
                (m_a s) (m_w s) in
  (ok, set_m_w ws (set_m_v0 v0 (set_m_a a s))).

(** The routines [SetupA00] ... [SetupD30]: fill the capacitance matrix and
    the derived constants, call [Charge], and (C cells) store the
    non-logarithmic term once the charges are known. *)
Definition SetupCell (s : State) : bool * State :=
  let '(a, der) := SetupFill ext s in
  let s := set_m_derived der (set_m_a a s) in
  let '(ok, s) := Charge s in
  if ok then (true, set_m_derived (SetupFinish ext s) s) else (false, s).

Definition setup_types : list string :=
  ["A  "; "B1X"; "B1Y"; "B2X"; "B2Y"; "C1 "; "C2X"; "C2Y"; "C3 "; "D1 "; "D2 "; "D3 "]%string.

Definition set_corvt (a b c : float) (s : State) : State :=
  set_m_corvtc c (set_m_corvtb b (set_m_corvta a s)).

(** "Set a separate set of plane variables to avoid repeated loops". *)
Definition Setup_shorthand (s : State) : State :=
  let s :=
    if ynplan s 0 then set_m_ynplax true (set_m_coplax (coplan s 0) s)
    else if ynplan s 1 then set_m_ynplax true (set_m_coplax (coplan s 1) s)
    else set_m_ynplax false s in
  if ynplan s 2 then set_m_ynplay true (set_m_coplay (coplan s 2) s)
  else if ynplan s 3 then set_m_ynplay true (set_m_coplay (coplan s 3) s)
  else set_m_ynplay false s.

(** "Set the correction parameters for the planes". *)
Definition Setup_corrections (s : State) : State :=
  if m_tube s then set_corvt 0 0 (m_vttube s) s
  else if (ynplan s 0 && ynplan s 1) && negb (ynplan s 2 || ynplan s 3) then
    set_corvt ((vtplan s 0 - vtplan s 1) / (coplan s 0 - coplan s 1)) 0
              ((vtplan s 1 * coplan s 0 - vtplan s 0 * coplan s 1)
               / (coplan s 0 - coplan s 1)) s
  else if (ynplan s 2 && ynplan s 3) && negb (ynplan s 0 || ynplan s 1) then
    set_corvt 0 ((vtplan s 2 - vtplan s 3) / (coplan s 2 - coplan s 3))
              ((vtplan s 3 * coplan s 2 - vtplan s 2 * coplan s 3)
               / (coplan s 2 - coplan s 3)) s
  else
    let c := 0 in
    let c := if ynplan s 0 then vtplan s 0 else c in
    let c := if ynplan s 1 then vtplan s 1 else c in
    let c := if ynplan s 2 then vtplan s 2 else c in
    let c := if ynplan s 3 then vtplan s 3 else c in
    set_corvt 0 0 c s.

Definition Setup (s : State) : bool * State :=
  let s := Setup_corrections (Setup_shorthand s) in
  (* Skip wire calculations if there aren't any. *)
  if (m_nWires s <=? 0)%Z then (true, s)
  else
    (* Redimension the capacitance matrix *)
    let s := set_m_a (repeat (repeat 0 (nW s)) (nW s)) s in
    (* Call the set routine appropriate for the present cell type. *)
    let '(ok, s) :=
      if existsb (String.eqb (m_scellType s)) setup_types then SetupCell s
      else (true, s) in
    (* Add dipole terms if required *)
    let ok := if ok && dipole s then SetupDipole ext s else ok in
    let s := set_m_a [] s in
    (ok, s).

Definition Prepare (s : State) : bool * State :=
  let '(ok, s) := CellCheck s in
  if negb ok then (false, s)
  else
    let '(ok, s) := CellType s in
    if negb ok then (false, s)
    else
      let '(ok, s) := Setup s in
      if negb ok then (false, s)
      else
        let '(ok, s) := PrepareStrips s in
        if negb ok then (false, s)
        else (true, set_m_cellset true s).

(** ** The 3-D point-charge evaluators *)

(** [for (unsigned int j = j0; cond(j); ++j) acc = body(j, acc);] run for at
    most [fuel] iterations.  [None]: the loop has not ended within [fuel]
    iterations. *)
Fixpoint for_uint {A : Type} (fuel : nat) (cond : Z -> bool) (body : Z -> A -> A)
    (j : Z) (acc : A) : option A :=
  if cond j then
    match fuel with
    | O => None
    | S fuel' => for_uint fuel' cond body (uincr j) (body j acc)
    end
  else Some acc.

(** Enough iterations for a loop bounded by [n]: a loop that has not ended
    after [n + 1] rounds never ends (its counter has wrapped around). *)
Definition loop_fuel (n : Z) : nat := S (Z.to_nat n).

(** The per-charge sums [exsum], [eysum], [ezsum], [vsum]. *)
Record Sums : Type := mkSums
  { exsum : float; eysum : float; ezsum : float; vsum : float }.

Definition Sums0 : Sums := mkSums 0 0 0 0.

(** The field and potential accumulated over the charges. *)
Record EV : Type := mkEV { Ex : float; Ey : float; Ez : float; Volt : float }.

Definition EV0 : EV := mkEV 0 0 0 0.

Definition BesselK0 (rr : float) : float :=
  if rr <? 2 then BesselK0S ext rr else BesselK0L ext rr.
Definition BesselK1 (rr : float) : float :=
  if rr <? 2 then BesselK1S ext rr else BesselK1L ext rr.

(** [j * 2 * m_sx]: the product [j * 2] is taken in [unsigned int]. *)
Definition j2 (j : Z) (sp : float) : float := of_int ((j * 2) mod UINT_MOD) * sp.

(** *** Field3dA00 *)

Definition Field3dA00_charge (s : State) (xpos ypos zpos : float) (acc : EV)
    (c : charge3d.t) : EV :=
  let dx := xpos - charge3d.x c in
  let dy := ypos - charge3d.y c in
  let dz := zpos - charge3d.z c in
  let r := sqrt (dx * dx + dy * dy + dz * dz) in
  if fabs r <? Small ext then acc else
  let r3 := pow3 r in
  let exhelp := - dx / r3 in
  let eyhelp := - dy / r3 in
  let ezhelp := - dz / r3 in
  let vhelp := 1 / r in
  (* Take care of a plane at constant x. *)
  let dxm := if m_ynplax s then charge3d.x c + xpos - 2 * m_coplax s else 0 in
  let rplanx := sqrt (dxm * dxm + dy * dy) in
  if m_ynplax s && (fabs rplanx <? Small ext) then acc else
  let '(exhelp, eyhelp, ezhelp, vhelp) :=
    if m_ynplax s then
      let rplan3 := pow3 rplanx in
      (exhelp + dxm / rplan3, eyhelp + dy / rplan3, ezhelp + dz / rplan3,
       vhelp - 1 / rplanx)
    else (exhelp, eyhelp, ezhelp, vhelp) in
  (* Take care of a plane at constant y. *)
  let dym := if m_ynplay s then charge3d.y c + ypos - 2 * m_coplay s else 0 in
  let rplany := sqrt (dx * dx + dym * dym) in
  if m_ynplay s && (fabs rplany <? Small ext) then acc else
  let '(exhelp, eyhelp, ezhelp, vhelp) :=
    if m_ynplay s then
      let rplan3 := pow3 rplany in
      (exhelp + dx / rplan3, eyhelp + dym / rplan3, ezhelp + dz / rplan3,
       vhelp - 1 / rplany)
    else (exhelp, eyhelp, ezhelp, vhelp) in
  (* Take care of pairs of planes. *)
  let rplanxy := sqrt (dxm * dxm + dym * dym) in
  if m_ynplax s && m_ynplay s && (fabs rplanxy <? Small ext) then acc else
  let '(exhelp, eyhelp, ezhelp, vhelp) :=
    if m_ynplax s && m_ynplay s then
      let rplan3 := pow3 rplanxy in
      (exhelp - dxm / rplan3, eyhelp - dym / rplan3, ezhelp - dz / rplan3,
       vhelp + 1 / rplanxy)
    else (exhelp, eyhelp, ezhelp, vhelp) in
  (* Add the terms to the electric field and the potential. *)
  mkEV (Ex acc - charge3d.e c * exhelp) (Ey acc - charge3d.e c * eyhelp)
       (Ez acc - charge3d.e c * ezhelp) (Volt acc + charge3d.e c * vhelp).

Definition Field3dA00 (s : State) (xpos ypos zpos : float) : EV :=
  fold_left (Field3dA00_charge s xpos ypos zpos) (m_ch3d s) EV0.

(** *** Field3dB2X *)

(** One term of the Bessel series of [Field3dB2X]: the first loop
    ([perj] = true, transverse distance [dy]) and the loop of the plane at
    constant y ([perj] = false, transverse distance [dym]). *)
Definition Field3dB2X_bessel_term (sx dx dxm t dz : float) (perj : bool) (j : Z)
    (sm : Sums) : Sums :=
  let rr := Pi ext * of_int j * sqrt (t * t + dz * dz) / sx in
  let zzp := Pi ext * of_int j * dx / sx in
  let zzn := Pi ext * of_int j * dxm / sx in
  let k0r := BesselK0 rr in
  let k1r := BesselK1 rr in
  let czzp := c_cos ext zzp in
  let czzn := c_cos ext zzn in
  let fac := if perj then TwoPi ext * of_int j / (sx * sx) else TwoPi ext / (sx * sx) in
  let err := fac * k1r * (czzp - czzn) in
  let ezz := fac * k0r * (c_sin ext zzp - c_sin ext zzn) in
  mkSums (exsum sm + ezz)
         (eysum sm + err * t / sqrt (t * t + dz * dz))
         (ezsum sm + err * dz / sqrt (t * t + dz * dz))
         (vsum sm + (1 / sx) * k0r * (czzp - czzn)).

(** One term of "direct polynomial summing". *)
Definition Field3dB2X_poly_term (sx dx dxm dy dz : float) (j : Z) (sm : Sums) : Sums :=
  let rr1 := sqrt (pow2 (dx + j2 j sx) + dy * dy + dz * dz) in
  let rr2 := sqrt (pow2 (dx - j2 j sx) + dy * dy + dz * dz) in
  let rm1 := sqrt (pow2 (dxm - j2 j sx) + dy * dy + dz * dz) in
  let rm2 := sqrt (pow2 (dxm + j2 j sx) + dy * dy + dz * dz) in
  let rr13 := pow3 rr1 in
  let rm13 := pow3 rm1 in
  if (j =? 0)%Z then
    mkSums (dx / rr13 - dxm / rm13)
           (dy * (1 / rr13 - 1 / rm13))
           (dz * (1 / rr13 - 1 / rm13))
           (1 / rr1 - 1 / rm1)
  else
    let rr23 := pow3 rr2 in
    let rm23 := pow3 rm2 in
    mkSums (exsum sm + ((dx + j2 j sx) / rr13 + (dx - j2 j sx) / rr23
                        - (dxm - j2 j sx) / rm13 - (dxm + j2 j sx) / rm23))
           (eysum sm + dy * (1 / rr13 + 1 / rr23 - 1 / rm13 - 1 / rm23))
           (ezsum sm + dz * (1 / rr13 + 1 / rr23 - 1 / rm13 - 1 / rm23))
           (vsum sm + (1 / rr1 + 1 / rr2 - 1 / rm1 - 1 / rm2)).

(** The same for the mirror images in the plane at constant y. *)
Definition Field3dB2X_poly_term_plane (sx dx dxm dym dz : float) (j : Z) (sm : Sums)
  : Sums :=
  let rr1 := sqrt (pow2 (dx + j2 j sx) + dym * dym + dz * dz) in
  let rr2 := sqrt (pow2 (dx - j2 j sx) + dym * dym + dz * dz) in
  let rm1 := sqrt (pow2 (dxm - j2 j sx) + dym * dym + dz * dz) in
  let rm2 := sqrt (pow2 (dxm + j2 j sx) + dym * dym + dz * dz) in
  let rr13 := pow3 rr1 in
  let rm13 := pow3 rm1 in
  if (j =? 0)%Z then
    mkSums (exsum sm + (- dx / rr13 + dxm / rm13))
           (eysum sm + - dym * (1 / rr13 - 1 / rm13))
           (ezsum sm + - dz * (1 / rr13 - 1 / rm13))
           (vsum sm + (-1 / rr1 + 1 / rm1))
  else
    let rr23 := pow3 rr2 in
    let rm23 := pow3 rm2 in
    mkSums (exsum sm + (- (dx + j2 j sx) / rr13 - (dx - j2 j sx) / rr23
                        + (dxm - j2 j sx) / rm13 + (dxm + j2 j sx) / rm23))
           (eysum sm + - dym * (1 / rr13 + 1 / rr23 - 1 / rm13 - 1 / rm23))
           (ezsum sm + - dz * (1 / rr13 + 1 / rr23 - 1 / rm13 - 1 / rm23))
           (vsum sm + (-1 / rr1 - 1 / rr2 + 1 / rm1 + 1 / rm2)).

(** The near-field loop of [Field3dB2X]:
    [for (unsigned int j = 0; j <= m_nTermPoly; ++j)]. *)
Definition Field3dB2X_poly (nTermPoly : Z) (sx dx dxm dy dz : float) (sm : Sums)
  : option Sums :=
  for_uint (loop_fuel nTermPoly) (fun j => (j <=? nTermPoly)%Z)
           (Field3dB2X_poly_term sx dx dxm dy dz) 0 sm.

Definition far_zone (a b sp : float) : bool := gtb (a * a + b * b) (pow2 (1 * 2 * sp)).

Definition add_sums (e : float) (sm : Sums) (acc : EV) : EV :=
  mkEV (Ex acc + e * exsum sm) (Ey acc + e * eysum sm) (Ez acc + e * ezsum sm)
       (Volt acc + e * vsum sm).

(** The body of the loop over the charges: the running sums are declared
    outside the loop and are carried from one charge to the next. *)
Definition Field3dB2X_charge (s : State) (xpos ypos zpos : float)
    (r : option (Sums * EV)) (c : charge3d.t) : option (Sums * EV) :=
  match r with
  | None => None
  | Some (sm, acc) =>
      if (xpos =? charge3d.x c) && (ypos =? charge3d.y c) && (zpos =? charge3d.z c)
      then Some (sm, acc)
      else
        let sx := m_sx s in
        let dx := xpos - charge3d.x c in
        let dy := ypos - charge3d.y c in
        let dz := zpos - charge3d.z c in
        let dxm := xpos + charge3d.x c - 2 * m_coplax s in
        let sm1 :=
          if far_zone dy dz sx then
            for_uint (loop_fuel (m_nTermBessel s)) (fun j => (j <=? m_nTermBessel s)%Z)
                     (Field3dB2X_bessel_term sx dx dxm dy dz true) 1 Sums0
          else Field3dB2X_poly (m_nTermPoly s) sx dx dxm dy dz sm in
        match sm1 with
        | None => None
        | Some sm =>
            let sm2 :=
              if m_ynplay s then
                let dym := ypos + charge3d.y c - 2 * m_coplay s in
                if far_zone dym dz sx then
                  for_uint (loop_fuel (m_nTermBessel s))
                           (fun j => (j <=? m_nTermBessel s)%Z)
                           (Field3dB2X_bessel_term sx dx dxm dym dz false) 1 sm
                else
                  for_uint (loop_fuel (m_nTermPoly s)) (fun j => (j <=? m_nTermPoly s)%Z)
                           (Field3dB2X_poly_term_plane sx dx dxm dym dz) 0 sm
              else Some sm in
            match sm2 with
            | None => None
            | Some sm => Some (sm, add_sums (charge3d.e c) sm acc)
            end
        end
  end.

Definition Field3dB2X (s : State) (xpos ypos zpos : float) : option EV :=
  option_map snd
    (fold_left (Field3dB2X_charge s xpos ypos zpos) (m_ch3d s) (Some (Sums0, EV0))).

(** *** Field3dB2Y *)

Definition Field3dB2Y_bessel_term (sy dy dym t dz : float) (perj : bool) (j : Z)
    (sm : Sums) : Sums :=
  let rr := Pi ext * of_int j * sqrt (t * t + dz * dz) / sy in
  let zzp := Pi ext * of_int j * dy / sy in
  let zzn := Pi ext * of_int j * dym / sy in
  let k0r := BesselK0 rr in
  let k1r := BesselK1 rr in
  let czzp := c_cos ext zzp in
  let czzn := c_cos ext zzn in
  let fac := if perj then TwoPi ext * of_int j / (sy * sy) else TwoPi ext / (sy * sy) in
  let err := fac * k1r * (czzp - czzn) in
  let ezz := fac * k0r * (c_sin ext zzp - c_sin ext zzn) in
  mkSums (exsum sm + err * t / sqrt (t * t + dz * dz))
         (eysum sm + ezz)
         (ezsum sm + err * dz / sqrt (t * t + dz * dz))
         (vsum sm + (1 / sy) * k0r * (czzp - czzn)).

Definition Field3dB2Y_poly_term (sy dx dy dym dz : float) (j : Z) (sm : Sums) : Sums :=
  let rr1 := sqrt (dx * dx + dz * dz + pow2 (dy + j2 j sy)) in
  let rr2 := sqrt (dx * dx + dz * dz + pow2 (dy - j2 j sy)) in
  let rm1 := sqrt (dx * dx + dz * dz + pow2 (dym - j2 j sy)) in
  let rm2 := sqrt (dx * dx + dz * dz + pow2 (dym + j2 j sy)) in
  let rr13 := pow3 rr1 in
  let rm13 := pow3 rm1 in
  if (j =? 0)%Z then
    mkSums (dx * (1 / rr13 - 1 / rm13))
           (dy / rr13 - dym / rm13)
           (dz * (1 / rr13 - 1 / rm13))
           (1 / rr1 - 1 / rm1)
  else
    let rr23 := pow3 rr2 in
    let rm23 := pow3 rm2 in
    mkSums (exsum sm + dx * (1 / rr13 + 1 / rr23 - 1 / rm13 - 1 / rm23))
           (eysum sm + ((dy + j2 j sy) / rr13 + (dy - j2 j sy) / rr23
                        - (dym - j2 j sy) / rm13 - (dym + j2 j sy) / rm23))
           (ezsum sm + dz * (1 / rr13 + 1 / rr23 - 1 / rm13 - 1 / rm23))
           (vsum sm + (1 / rr1 + 1 / rr2 - 1 / rm1 - 1 / rm2)).

Definition Field3dB2Y_poly_term_plane (sy dxm dy dym dz : float) (j : Z) (sm : Sums)
  : Sums :=
  let rr1 := sqrt (pow2 (dy + j2 j sy) + dxm * dxm + dz * dz) in
  let rr2 := sqrt (pow2 (dy - j2 j sy) + dxm * dxm + dz * dz) in
  let rm1 := sqrt (pow2 (dym - j2 j sy) + dxm * dxm + dz * dz) in
  let rm2 := sqrt (pow2 (dym + j2 j sy) + dxm * dxm + dz * dz) in
  let rr13 := pow3 rr1 in
  let rm13 := pow3 rm1 in
  if (j =? 0)%Z then
    mkSums (exsum sm + - dxm * (1 / rr13 - 1 / rm13))
           (eysum sm + (- dy / rr13 + dym / rm13))
           (ezsum sm + - dz * (1 / rr13 - 1 / rm13))
           (vsum sm + (-1 / rr1 + 1 / rm1))
  else
    let rr23 := pow3 rr2 in
    let rm23 := pow3 rm2 in
    mkSums (exsum sm + - dxm * (1 / rr13 + 1 / rr23 - 1 / rm13 - 1 / rm23))
           (eysum sm + (- (dy + j2 j sy) / rr13 - (dy - j2 j sy) / rr23
                        + (dym - j2 j sy) / rm13 + (dym + j2 j sy) / rm23))
           (ezsum sm + - dz * (1 / rr13 + 1 / rr23 - 1 / rm13 - 1 / rm23))
           (vsum sm + (-1 / rr1 - 1 / rr2 + 1 / rm1 + 1 / rm2)).

(** The near-field loop of [Field3dB2Y]:
    [for (unsigned int j = 0; j <= m_nTermPoly; ++j)]. *)
Definition Field3dB2Y_poly (nTermPoly : Z) (sy dx dy dym dz : float) (sm : Sums)
  : option Sums :=
  for_uint (loop_fuel nTermPoly) (fun j => (j <=? nTermPoly)%Z)
           (Field3dB2Y_poly_term sy dx dy dym dz) 0 sm.

Definition Field3dB2Y_charge (s : State) (xpos ypos zpos : float)
    (r : option (Sums * EV)) (c : charge3d.t) : option (Sums * EV) :=
  match r with
  | None => None
  | Some (sm, acc) =>
      if (xpos =? charge3d.x c) && (ypos =? charge3d.y c) && (zpos =? charge3d.z c)
      then Some (sm, acc)
      else
        let sy := m_sy s in
        let dx := xpos - charge3d.x c in
        let dy := ypos - charge3d.y c in
        let dz := zpos - charge3d.z c in
        let dym := ypos + charge3d.y c - 2 * m_coplay s in
        let sm1 :=
          if far_zone dx dz sy then
            for_uint (loop_fuel (m_nTermBessel s)) (fun j => (j <=? m_nTermBessel s)%Z)
                     (Field3dB2Y_bessel_term sy dy dym dx dz true) 1 Sums0
          else Field3dB2Y_poly (m_nTermPoly s) sy dx dy dym dz sm in
        match sm1 with
        | None => None
        | Some sm =>
            let sm2 :=
              if m_ynplax s then
                let dxm := xpos + charge3d.x c - 2 * m_coplax s in
                if far_zone dxm dz sy then
                  for_uint (loop_fuel (m_nTermBessel s))
                           (fun j => (j <=? m_nTermBessel s)%Z)
                           (Field3dB2Y_bessel_term sy dy dym dxm dz false) 1 sm
                else
                  for_uint (loop_fuel (m_nTermPoly s)) (fun j => (j <=? m_nTermPoly s)%Z)
                           (Field3dB2Y_poly_term_plane sy dxm dy dym dz) 0 sm
              else Some sm in
            match sm2 with
            | None => None
            | Some sm => Some (sm, add_sums (charge3d.e c) sm acc)
            end
        end
  end.

Definition Field3dB2Y (s : State) (xpos ypos zpos : float) : option EV :=
  option_map snd
    (fold_left (Field3dB2Y_charge s xpos ypos zpos) (m_ch3d s) (Some (Sums0, EV0))).

(** *** Field3dD10 *)

(** As [Field3dB2X_poly_term] in the mapped frame, except for the first
    summand of [exsum] at [j == 0]. *)
Definition Field3dD10_poly_term (ssx dx dxm dy dz : float) (j : Z) (sm : Sums) : Sums :=
  let rr1 := sqrt (pow2 (dx + j2 j ssx) + dy * dy + dz * dz) in
  let rr2 := sqrt (pow2 (dx - j2 j ssx) + dy * dy + dz * dz) in
  let rm1 := sqrt (pow2 (dxm - j2 j ssx) + dy * dy + dz * dz) in
  let rm2 := sqrt (pow2 (dxm + j2 j ssx) + dy * dy + dz * dz) in
  let rr13 := pow3 rr1 in
  let rm13 := pow3 rm1 in
  if (j =? 0)%Z then
    mkSums (dxm / rr13 - dxm / rm13)
           (dy * (1 / rr13 - 1 / rm13))
           (dz * (1 / rr13 - 1 / rm13))
           (1 / rr1 - 1 / rm1)
  else
    let rr23 := pow3 rr2 in
    let rm23 := pow3 rm2 in
    mkSums (exsum sm + ((dx + j2 j ssx) / rr13 + (dx - j2 j ssx) / rr23
                        - (dxm - j2 j ssx) / rm13 - (dxm + j2 j ssx) / rm23))
           (eysum sm + dy * (1 / rr13 + 1 / rr23 - 1 / rm13 - 1 / rm23))
           (ezsum sm + dz * (1 / rr13 + 1 / rr23 - 1 / rm13 - 1 / rm23))
           (vsum sm + (1 / rr1 + 1 / rr2 - 1 / rm1 - 1 / rm2)).

(** The near-field loop of [Field3dD10]:
    [for (unsigned int j = 0; j < m_nTermPoly; ++j)]. *)
Definition Field3dD10_poly (nTermPoly : Z) (ssx dx dxm dy dz : float) (sm : Sums)
  : option Sums :=
  for_uint (loop_fuel nTermPoly) (fun j => (j <? nTermPoly)%Z)
           (Field3dD10_poly_term ssx dx dxm dy dz) 0 sm.

(** The body of [for (int ii = -1; ii <= 1; ++ii)] for the charge [c]; the
    Bessel series is that of [Field3dB2X] with the period [ssx]. *)
Definition Field3dD10_image (s : State) (ssx cpl xpos ypos zpos : float)
    (c : charge3d.t) (r : option (Sums * EV)) (ii : Z) : option (Sums * EV) :=
  match r with
  | None => None
  | Some (sm, acc) =>
      let x3d := 0.5 * c_log ext (charge3d.x c * charge3d.x c + charge3d.y c * charge3d.y c) in
      let y3d := c_atan2 ext (charge3d.y c) (charge3d.x c + of_int ii * TwoPi ext) in
      let z3d := charge3d.z c in
      let dx := xpos - x3d in
      let dy := ypos - y3d in
      let dz := zpos - z3d in
      let dxm := xpos + x3d - 2 * cpl in
      if (xpos =? x3d) && (ypos =? y3d) && (zpos =? z3d) then Some (sm, acc)
      else
        let sm1 :=
          if far_zone dy dz ssx then
            for_uint (loop_fuel (m_nTermBessel s)) (fun j => (j <=? m_nTermBessel s)%Z)
                     (Field3dB2X_bessel_term ssx dx dxm dy dz true) 1 Sums0
          else Field3dD10_poly (m_nTermPoly s) ssx dx dxm dy dz sm in
        match sm1 with
        | None => None
        | Some sm =>
            Some (sm, mkEV (Ex acc + charge3d.e c * exsum sm)
                           (Ey acc + charge3d.e c * eysum sm)
                           (Ez acc + charge3d.e c * ezsum sm) (Volt acc))
        end
  end.

Definition Field3dD10 (s : State) (xxpos yypos zzpos : float) : option EV :=
  if (m_nWires s <? 1)%Z then Some EV0
  else
    let ssx := c_log ext (2 * m_cotube s / wire.d (w_at s 0)) in
    let cpl := c_log ext (wire.d (w_at s 0) / 2) in
    let xpos := 0.5 * c_log ext (xxpos * xxpos + yypos * yypos) in
    let ypos := c_atan2 ext yypos xxpos in
    let zpos := zzpos in
    match
      fold_left
        (fun r c => fold_left (Field3dD10_image s ssx cpl xpos ypos zpos c)
                              [(-1)%Z; 0%Z; 1%Z] r)
        (m_ch3d s) (Some (Sums0, EV0))
    with
    | None => None
    | Some (_, acc) =>
        Some (mkEV (c_exp ext (- xpos)
                    * (Ex acc * c_cos ext ypos - Ey acc * c_sin ext ypos))
                   (c_exp ext (- ypos)
                    * (Ex acc * c_sin ext ypos + Ey acc * c_cos ext ypos))
                   (Ez acc) 0)
    end.

(** ** Field *)

(** "In case of periodicity, move the point into the basic cell" and "move
    the point to the correct side of the plane": the folded point and the
    rotation [arot]. *)
Definition Field_fold (s : State) (xin yin : float) : float * float * float :=
  let xpos := if m_perx s then fold_period xin (m_sx s) else xin in
  let ypos := yin in
  let '(xpos, ypos, arot) :=
    if m_pery s && m_tube s then
      let '(xpos, ypos) := Cartesian2Polar ext xin yin in
      let arot := 180 * m_sy s * of_int (int_round ((Pi ext * ypos) / (m_sy s * 180))) / Pi ext in
      let ypos := ypos - arot in
      let '(xpos, ypos) := Polar2Cartesian ext xpos ypos in
      (xpos, ypos, arot)
    else if m_pery s then (xpos, fold_period yin (m_sy s), 0)
    else (xpos, ypos, 0) in
  let xpos := if m_perx s && ynplan s 0 && (xpos <=? coplan s 0) then xpos + m_sx s else xpos in
  let xpos := if m_perx s && ynplan s 1 && geb xpos (coplan s 1) then xpos - m_sx s else xpos in
  let ypos := if m_pery s && ynplan s 2 && (ypos <=? coplan s 2) then ypos + m_sy s else ypos in
  let ypos := if m_pery s && ynplan s 3 && geb ypos (coplan s 3) then ypos - m_sy s else ypos in
  (xpos, ypos, arot).

(** "In case (XPOS,YPOS) is located behind a plane there is no field":
    the voltage of the conductor the point is behind, if any. *)
Definition Field_behind (s : State) (xpos ypos : float) : option float :=
  if m_tube s then
    if negb (InTube xpos ypos (m_cotube s) (m_ntube s)) then Some (m_vttube s) else None
  else if ynplan s 0 && (xpos <? coplan s 0) then Some (vtplan s 0)
  else if ynplan s 1 && gtb xpos (coplan s 1) then Some (vtplan s 1)
  else if ynplan s 2 && (ypos <? coplan s 2) then Some (vtplan s 2)
  else if ynplan s 3 && gtb ypos (coplan s 3) then Some (vtplan s 3)
  else None.

(** "If (xpos, ypos) is within a wire": the test of the wire loop. *)
Definition in_wire (s : State) (xpos ypos : float) (i : nat) : bool :=
  let w := w_at s i in
  let dx := xpos - wire.x w in
  let dy := ypos - wire.y w in
  let dx := if m_perx s then dx - m_sx s * of_int (int_round (dx / m_sx s)) else dx in
  let dy := if m_pery s then dy - m_sy s * of_int (int_round (dy / m_sy s)) else dy in
  dx * dx + dy * dy <? 0.25 * wire.d w * wire.d w.

(** The first wire of [for (int i = m_nWires; i--;)] that contains the point. *)
Definition Field_wire (s : State) (xpos ypos : float) : option nat :=
  find (in_wire s xpos ypos) (down_indices (m_nWires s)).

Definition has_evaluator (c : Cell) : bool :=
  match c with
  | A00 | B1X | B1Y | B2X | B2Y | C10 | C2X | C2Y | C30 | D10 | D20 | D30 => true
  | _ => false
  end.

Definition Field3d (s : State) (xin yin zin : float) : option EV :=
  match m_cellType s with
  | A00 | B1X | B1Y => Some (Field3dA00 s xin yin zin)
  | B2X => Field3dB2X s xin yin zin
  | B2Y => Field3dB2Y s xin yin zin
  | D10 => Field3dD10 s xin yin zin
  | _ => Some (Field3dA00 s xin yin zin)
  end.

(** The result is the returned status with (ex, ey, ez, volt); [None] stands
    for a call that does not return (a series loop of a 3-D evaluator that
    never ends). *)
Definition Field (s : State) (xin yin zin : float) (opt : bool) : option (Z * EV) :=
  let '(xpos, ypos, arot) := Field_fold s xin yin in
  match Field_behind s xpos ypos with
  | Some v => Some ((-4)%Z, mkEV 0 0 0 v)
  | None =>
      match Field_wire s xpos ypos with
      | Some i => Some ((Z.of_nat i + 1)%Z, mkEV 0 0 0 (wire.v (w_at s i)))
      | None =>
          if negb (has_evaluator (m_cellType s)) then Some ((-10)%Z, EV0)
          else
            let '(ex, ey, volt) := FieldWires ext s xpos ypos opt in
            (* Add dipole terms if requested *)
            let '(ex, ey, volt) :=
              if dipole s then (ex + 0, ey + 0, volt + 0) else (ex, ey, volt) in
            (* Rotate the field in some special cases. *)
            let '(ex, ey) :=
              if m_pery s && m_tube s then
                let '(xaux, yaux) := Cartesian2Polar ext ex ey in
                Polar2Cartesian ext xaux (yaux + arot)
              else (ex, ey) in
            (* Correct for the equipotential planes. *)
            let ex := ex - m_corvta s in
            let ey := ey - m_corvtb s in
            let volt := volt + (m_corvta s * xpos + m_corvtb s * ypos + m_corvtc s) in
            (* Add three dimensional point charges. *)
            match m_ch3d s with
            | [] => Some (0%Z, mkEV ex ey 0 volt)
            | _ :: _ =>
                match Field3d s xin yin zin with
                | None => None
                | Some e3 =>
                    Some (0%Z, mkEV (ex + Ex e3) (ey + Ey e3) (0 + Ez e3) (volt + Volt e3))
                end
            end
      end
  end.

(** ** ElectricField *)

(** Both overloads: [opt] is false for the one without the potential.  The
    result is the new state, the field and potential, the medium (and
    whether it is driftable) and the status. *)
Definition ElectricField (s : State) (x y z : float) (opt : bool)
  : option (State * EV * option bool * Z) :=
  let '(ok, s) := if negb (m_cellset s) then Prepare s else (true, s) in
  if negb ok then Some (s, EV0, None, (-11)%Z)
  else
    match Field s x y z opt with
    | None => None
    | Some (status, ev) =>
        if (status =? 0)%Z then
          match GetMedium ext x y z with
          | None => Some (s, ev, None, (-6)%Z)
          | Some driftable =>
              if driftable then Some (s, ev, Some driftable, 0%Z)
              else Some (s, ev, Some driftable, (-5)%Z)
          end
        else Some (s, ev, None, status)
    end.

(** ** PrepareSignals and the weighting-field queries *)

Definition in_types (t : string) (l : list string) : bool := existsb (String.eqb t) l.

(** "If using natural periodicity, copy the cell type.  Otherwise, eliminate
    true periodicities."  [None]: "no potentials available to handle cell
    type". *)
Definition Fourier_type (s : State) : option string :=
  let t := m_scellType s in
  if (nFourier (m_signals s) =? 0)%Z then Some t
  else if in_types t ["A  "; "B1X"; "B1Y"; "C1 "]%string then Some "A  "%string
  else if in_types t ["B2X"; "C2X"]%string then Some "B2X"%string
  else if in_types t ["B2Y"; "C2Y"]%string then Some "B2Y"%string
  else if String.eqb t "C3 " then Some "C3 "%string
  else if String.eqb t "D1 " then Some "D1 "%string
  else if String.eqb t "D3 " then Some "D3 "%string
  else None.

(** "Establish the directions in which convolutions occur" and "set maximum
    and minimum Fourier terms"; [nFourier / 2] is a division of [int]. *)
Definition Fourier_settings (tf : string) (s : State) : Signals :=
  let g := m_signals s in
  let nf := nFourier g in
  let t := m_scellType s in
  let '(fx, fy, mf) :=
    if (nf =? 0)%Z then (false, false, 0%Z)
    else
      let fx := in_types t ["B1X"; "C1 "; "C2Y"]%string in
      let fy := in_types t ["B1Y"; "C1 "; "C2X"]%string in
      let mf := int_trunc (0.1 + c_log ext (1 * of_int nf) / c_log ext 2) in
      if (mf =? 0)%Z then (false, false, mf) else (fx, fy, mf) in
  let '(xlo, xhi) :=
    if fx then (Z.min 0 (1 - Z.quot nf 2), Z.quot nf 2) else (0%Z, 0%Z) in
  let '(ylo, yhi) :=
    if fy then (Z.min 0 (1 - Z.quot nf 2), Z.quot nf 2) else (0%Z, 0%Z) in
  mkSignals nf tf fx fy mf xlo xhi ylo yhi (m_sigmat g) (m_qplane g).

(** [SetupWireSignals]: the numeric work is the kernel's; its results go to
    [m_sigmat] and [b2sin]. *)
Definition SetupWireSignals (s : State) : bool * State :=
  let '(ok, sigmat, b2) := SignalMatrix ext s in
  (ok, set_m_sigmat sigmat (set_m_derived (set_b2sin b2 (m_derived s)) s)).

(** The values [mx] of [for (int mx = lo; mx <= hi; ++mx)]. *)
Definition int_range (lo hi : Z) : list Z :=
  map (fun k => (lo + Z.of_nat k)%Z) (seq 0 (Z.to_nat (hi - lo + 1))).

Definition sig_re (s : State) (i j : nat) : float :=
  fst (nth j (nth i (m_sigmat (m_signals s)) []) (0, 0)).

(** [q[k][j] = f(q[k][j])]. *)
Definition q_upd (k j : nat) (f : float -> float) (q : list (list float))
  : list (list float) :=
  upd k (upd j (f (nth j (nth k q []) 0)) (nth k q [])) q.

(** "Set the weighting field voltages" for the plane in slot [k]. *)
Definition plane_vw (s : State) (k : nat) (w : wire.t) : float :=
  match k with
  | O =>
      if ynplan s 1 then - (coplan s 1 - wire.x w) / (coplan s 1 - coplan s 0)
      else if m_perx s then - (coplan s 0 + m_sx s - wire.x w) / m_sx s
      else -1
  | 1%nat =>
      if ynplan s 0 then - (coplan s 0 - wire.x w) / (coplan s 0 - coplan s 1)
      else if m_perx s then - (wire.x w - coplan s 1 + m_sx s) / m_sx s
      else -1
  | 2%nat =>
      if ynplan s 3 then - (coplan s 3 - wire.y w) / (coplan s 3 - coplan s 2)
      else if m_pery s then - (coplan s 2 + m_sy s - wire.y w) / m_sy s
      else -1
  | _ =>
      if ynplan s 2 then - (coplan s 2 - wire.y w) / (coplan s 2 - coplan s 3)
      else if m_pery s then - (wire.y w - coplan s 3 + m_sy s) / m_sy s
      else -1
  end.

(** "Multiply with the matrix": the x planes add to [q[k][j]], the y planes
    to [q[k][i]]. *)
Definition qplane_plane (s : State) (k : nat) (q : list (list float))
  : list (list float) :=
  fold_left
    (fun q i =>
       let vw := plane_vw s k (w_at s i) in
       fold_left
         (fun q j => q_upd k (if (k <? 2)%nat then j else i)
                           (fun v => v + sig_re s i j * vw) q)
         (seq 0 (nW s)) q)
    (seq 0 (nW s)) q.

Definition qplane_tube (s : State) (q : list (list float)) : list (list float) :=
  fold_left
    (fun q i =>
       fold_left (fun q j => q_upd 4 i (fun v => v - sig_re s i j) q) (seq 0 (nW s)) q)
    (seq 0 (nW s)) q.

(** One signal layer: "initialise the plane matrices", then the charges for
    the planes and the tube that are present. *)
Definition qplane_layer (s : State) : list (list float) :=
  let q := repeat (repeat 0 (nW s)) 5 in
  let q := if ynplan s 0 then qplane_plane s 0 q else q in
  let q := if ynplan s 1 then qplane_plane s 1 q else q in
  let q := if ynplan s 2 then qplane_plane s 2 q else q in
  let q := if ynplan s 3 then qplane_plane s 3 q else q in
  if m_tube s then qplane_tube s q else q.

Definition set_ewxcor (k : nat) (c : float) (s : State) : State :=
  set_planes_at k (plane.set_ewxcor c (planes_at s k)) s.
Definition set_ewycor (k : nat) (c : float) (s : State) : State :=
  set_planes_at k (plane.set_ewycor c (planes_at s k)) s.

(** "Compute the background weighting fields, first in x", "next also in
    y". *)
Definition SetupPlaneSignals_bias (s : State) : State :=
  let s :=
    if ynplan s 0 && ynplan s 1 then
      set_ewxcor 1 (1 / (coplan s 0 - coplan s 1))
        (set_ewxcor 0 (1 / (coplan s 1 - coplan s 0)) s)
    else if ynplan s 0 && m_perx s then set_ewxcor 1 0 (set_ewxcor 0 (1 / m_sx s) s)
    else if ynplan s 1 && m_perx s then set_ewxcor 1 (-1 / m_sx s) (set_ewxcor 0 0 s)
    else set_ewxcor 0 0 (set_ewxcor 1 0 s) in
  let s := set_ewxcor 2 0 (set_ewxcor 3 0 (set_ewxcor 4 0 s)) in
  let s := set_ewycor 0 0 (set_ewycor 1 0 s) in
  let s :=
    if ynplan s 2 && ynplan s 3 then
      set_ewycor 3 (1 / (coplan s 2 - coplan s 3))
        (set_ewycor 2 (1 / (coplan s 3 - coplan s 2)) s)
    else if ynplan s 2 && m_pery s then set_ewycor 3 0 (set_ewycor 2 (1 / m_sy s) s)
    else if ynplan s 3 && m_pery s then set_ewycor 3 (-1 / m_sy s) (set_ewycor 2 0 s)
    else set_ewycor 2 0 (set_ewycor 3 0 s) in
  set_ewycor 4 0 s.

(** [SetupPlaneSignals]: the plane charges of the last signal layer, then
    the bias fields.  It always returns true. *)
Definition SetupPlaneSignals (s : State) : bool * State :=
  let g := m_signals s in
  let layers := list_prod (int_range (mxmin g) (mxmax g)) (int_range (mymin g) (mymax g)) in
  let q := fold_left (fun _ _ => qplane_layer s) layers (repeat (repeat 0 (nW s)) 5) in
  (true, SetupPlaneSignals_bias (set_m_qplane q s)).

(** "Associate wires, planes and strips with readout groups": the elements
    labelled [label] get the index [i] of the group. *)
Definition associate_strip (i : Z) (label : string) (t : strip.t) : strip.t :=
  if String.eqb (strip.type t) label then strip.set_ind i t else t.

Definition associate_pixel (i : Z) (label : string) (t : pixel.t) : pixel.t :=
  if String.eqb (pixel.type t) label then pixel.set_ind i t else t.

Definition associate_plane (i : Z) (label : string) (p : plane.t) : plane.t :=
  let p := if String.eqb (plane.type p) label then plane.set_ind i p else p in
  let p := plane.set_strips1 (map (associate_strip i label) (plane.strips1 p)) p in
  let p := plane.set_strips2 (map (associate_strip i label) (plane.strips2 p)) p in
  plane.set_pixels (map (associate_pixel i label) (plane.pixels p)) p.

Definition associate (s : State) (i : Z) (label : string) : State :=
  let ws :=
    mapi_from 0
      (fun j w =>
         if (j <? nW s)%nat && String.eqb (wire.type w) label then wire.set_ind i w else w)
      (m_w s) in
  let ps :=
    mapi_from 0 (fun j p => if (j <? 5)%nat then associate_plane i label p else p)
              (planes s) in
  set_planes ps (set_m_w ws s).

Definition associate_all (s : State) : State :=
  snd (fold_left (fun r label => ((fst r + 1)%Z, associate (snd r) (fst r) label))
                 (m_readout s) (0%Z, s)).

(** [PrepareSignals] once the cell is prepared. *)
Definition PrepareSignals_setup (s : State) : bool * State :=
  match Fourier_type s with
  | None => (false, s)
  | Some tf =>
      let s := set_m_signals (Fourier_settings tf s) s in
      let '(ok, s) := SetupWireSignals s in
      if negb ok then (false, set_m_sigmat [] s)
      else
        let '(ok, s) := SetupPlaneSignals s in
        if negb ok then (false, set_m_qplane [] (set_m_sigmat [] s))
        else (true, set_m_sigset true (associate_all s))
  end.

Definition PrepareSignals (s : State) : bool * State :=
  match m_readout s with
  | [] => (false, s)
  | _ :: _ =>
      let '(ok, s) := if negb (m_cellset s) then Prepare s else (true, s) in
      if negb ok then (false, s) else PrepareSignals_setup s
  end.

Fixpoint index_of (label : string) (l : list string) (k : Z) : option Z :=
  match l with
  | [] => None
  | a :: t => if String.eqb a label then Some k else index_of label t (k + 1)%Z
  end.

(** The result is the new state and (wx, wy, wz). *)
Definition WeightingField (s : State) (x y z : float) (label : string)
  : State * (float * float * float) :=
  let zero := (0, 0, 0) in
  match m_readout s with
  | [] => (s, zero)
  | _ :: _ =>
      let '(ok, s) := if negb (m_sigset s) then PrepareSignals s else (true, s) in
      if negb ok then (s, zero)
      else if String.eqb label "" then (s, zero)
      else
        match index_of label (m_readout s) 0 with
        | None => (s, zero)
        | Some index =>
            let '(wx, wy, wz, _) := Wfield ext s x y z index false in
            (s, (wx, wy, wz))
        end
  end.

(** The result is the new state and the potential. *)
Definition WeightingPotential (s : State) (x y z : float) (label : string)
  : State * float :=
  match m_readout s with
  | [] => (s, 0)
  | _ :: _ =>
      let '(ok, s) := if negb (m_sigset s) then PrepareSignals s else (true, s) in
      if negb ok then (s, 0)
      else if String.eqb label "" then (s, 0)
      else
        match index_of label (m_readout s) 0 with
        | None => (s, 0)
        | Some index =>
            let '(_, _, _, volt) := Wfield ext s x y z index true in
            (s, volt)
        end
  end.

(** [GetVoltageRange]: the new state and, when the call returns true,
    (pmin, pmax). *)
Definition GetVoltageRange (s : State) : State * option (float * float) :=
  let '(ok, s) := if negb (m_cellset s) then Prepare s else (true, s) in
  if negb ok then (s, None) else (s, Some (vmin s, vmax s)).

End Component.

(* ================================================================== *)
(** * Call sequences *)
(* ================================================================== *)

(** The public calls that change the object, as a client issues them on a
    freshly constructed component.  A field query and a query of the voltage
    range change the object through the lazy [Prepare], a weighting-field
    query through the lazy [PrepareSignals]. *)
Inductive Call : Type :=
| CallAddWire (x y diameter voltage : float) (label : string)
              (length tension rho : float) (ntrap : Z)
| CallAddTube (radius voltage : float) (nEdges : Z) (label : string)
| CallAddPlaneX (x v : float) (lab : string)
| CallAddPlaneY (y v : float) (lab : string)
| CallAddStripOnPlaneX (direction : ascii) (x smin smax : float) (label : string) (gap : float)
| CallAddStripOnPlaneY (direction : ascii) (y smin smax : float) (label : string) (gap : float)
| CallAddPixelOnPlaneX (x ymin ymax zmin zmax : float) (label : string) (gap : float)
| CallAddPixelOnPlaneY (y xmin xmax zmin zmax : float) (label : string) (gap : float)
| CallSetPeriodicityX (sp : float)
| CallSetPeriodicityY (sp : float)
| CallAddCharge (x y z q : float)
| CallClearCharges
| CallAddReadout (label : string)
| CallElectricField (x y z : float)
| CallGetVoltageRange
| CallWeightingField (x y z : float) (label : string)
| CallWeightingPotential (x y z : float) (label : string).

Definition call (ext : Extern) (s : State) (c : Call) : State :=
  match c with
  | CallAddWire x y d v label len tension rho ntrap =>
      AddWire x y d v label len tension rho ntrap s
  | CallAddTube radius voltage nEdges label => AddTube radius voltage nEdges label s
  | CallAddPlaneX x v lab => AddPlaneX x v lab s
  | CallAddPlaneY y v lab => AddPlaneY y v lab s
  | CallAddStripOnPlaneX dir x smin smax label gap =>
      AddStripOnPlaneX ext dir x smin smax label gap s
  | CallAddStripOnPlaneY dir y smin smax label gap =>
      AddStripOnPlaneY ext dir y smin smax label gap s
  | CallAddPixelOnPlaneX x ymin ymax zmin zmax label gap =>
      AddPixelOnPlaneX ext x ymin ymax zmin zmax label gap s
  | CallAddPixelOnPlaneY y xmin xmax zmin zmax label gap =>
      AddPixelOnPlaneY ext y xmin xmax zmin zmax label gap s
  | CallSetPeriodicityX sp => SetPeriodicityX ext sp s
  | CallSetPeriodicityY sp => SetPeriodicityY ext sp s
  | CallAddCharge x y z q => AddCharge ext x y z q s
  | CallClearCharges => ClearCharges s
  | CallAddReadout label => AddReadout label s
  | CallElectricField x y z => if m_cellset s then s else snd (Prepare ext s)
  | CallGetVoltageRange => fst (GetVoltageRange ext s)
  | CallWeightingField x y z label => fst (WeightingField ext s x y z label)
  | CallWeightingPotential x y z label => fst (WeightingPotential ext s x y z label)
  end.

Definition run (ext : Extern) (calls : list Call) : State :=
  fold_left (call ext) calls construct.

(** The integers [0 .. n-1]. *)
Definition zrange (n : Z) : list Z := map Z.of_nat (seq 0 (Z.to_nat n)).

(* ================================================================== *)
(** * Specification vocabulary *)
(* ================================================================== *)

(** ** Exact solutions of a linear system *)

(** The value of a finite double as a rational number, and sums and
    products of such values without rounding. *)
Module Exact.
Import QArith.
Local Open Scope Q_scope.





End Exact.


(** The right-hand side [Charge] hands to the inversion routine. *)
Definition rhs_of (s : State) : list float :=
  Charge_rhs float PrimFloat.add PrimFloat.sub PrimFloat.mul wire.t wire.v wire.x wire.y
             (m_corvta s) (m_corvtb s) (m_corvtc s) (firstn (nW s) (m_w s)).

(** ** Concrete kernels and cells *)

Module Examples.
Local Open Scope float_scope.
Local Open Scope string_scope.

(** Kernels on which the model runs: the constants have the values of
    GarfieldConstants.hh, a drift medium is everywhere, the transcendental
    and the two-dimensional routines are inert, the matrix inversion leaves
    its arguments alone and reports [ifail], and the signal matrices are
    available or not as [signals] says.  They only serve to
    exhibit concrete inputs. *)
Definition kernel (ifail : Z) (signals : bool) : Extern :=
  {| Small := 1e-20; Pi := 3.141592653589793; TwoPi := 6.283185307179586;
     HalfPi := 1.5707963267948966; FourPiEpsilon0 := 1.1126500560536184e-12;
     c_log := fun _ => 0; c_exp := fun _ => 0; c_cos := fun _ => 0; c_sin := fun _ => 0;
     c_atan2 := fun _ _ => 0;
     Cartesian2Polar := fun x y => (x, y); Polar2Cartesian := fun r t => (r, t);
     Deqinv := fun _ a b => (ifail, a, b);
     BesselK0S := fun _ => 0; BesselK1S := fun _ => 0;
     BesselK0L := fun _ => 0; BesselK1L := fun _ => 0;
     SetupFill := fun s => (m_a s, m_derived s);
     SetupFinish := fun s => m_derived s;
     SetupDipole := fun _ => true;
     FieldWires := fun _ _ _ _ => (0, 0, 0);
     GetMedium := fun _ _ _ => Some true;
     SignalMatrix := fun s => (signals, [], b2sin (m_derived s));
     Wfield := fun _ _ _ _ _ _ => (0, 0, 0, 0) |}.

(** The inversion reports success. *)
Definition ext_inert : Extern := kernel 0 false.

(** Every inversion reports a singular matrix. *)
Definition ext_singular : Extern := kernel (-1) false.

(** The signal matrices are available (and empty). *)
Definition ext_signals : Extern := kernel 0 true.

(** A kernel whose transcendental functions are the simplest maps that
    keep their arguments apart. *)
Definition ext_linear : Extern :=
  {| Small := 1e-20; Pi := 3.141592653589793; TwoPi := 6.283185307179586;
     HalfPi := 1.5707963267948966; FourPiEpsilon0 := 1.1126500560536184e-12;
     c_log := fun x => x; c_exp := fun x => x;
     c_cos := fun _ => 1; c_sin := fun _ => 0;
     c_atan2 := fun y _ => y;
     Cartesian2Polar := fun x y => (x, y); Polar2Cartesian := fun r t => (r, t);
     Deqinv := fun _ a b => (0%Z, a, b);
     BesselK0S := fun _ => 0; BesselK1S := fun _ => 0;
     BesselK0L := fun _ => 0; BesselK1L := fun _ => 0;
     SetupFill := fun s => (m_a s, m_derived s);
     SetupFinish := fun s => m_derived s;
     SetupDipole := fun _ => true;
     FieldWires := fun _ _ _ _ => (0, 0, 0);
     GetMedium := fun _ _ _ => Some true;
     SignalMatrix := fun s => (false, [], b2sin (m_derived s));
     Wfield := fun _ _ _ _ _ _ => (0, 0, 0, 0) |}.

(** One sense wire above a grounded plane at y = 0, periodic in x with
    period 3, prepared by a first field query. *)
Definition strip_cell : list Call :=
  [ CallAddWire 0 1 0.01 1000 "s" 100 50 19.3 5;
    CallAddPlaneY 0 0 "p";
    CallSetPeriodicityX 3;
    CallElectricField 0.5 5 4 ].

(** The same cell with a point charge of 1 fC at (0.5, 2, 0). *)
Definition strip_cell_charged : list Call :=
  [ CallAddWire 0 1 0.01 1000 "s" 100 50 19.3 5;
    CallAddPlaneY 0 0 "p";
    CallSetPeriodicityX 3;
    CallAddCharge 0.5 2 0 1;
    CallElectricField 0.5 5 4 ].

(** A thick sense wire (diameter 0.2) above a grounded plane at y = 0,
    periodic in x with period 0.3, prepared by a first field query. *)
Definition edge_cell : list Call :=
  [ CallAddWire 0 1 0.2 1000 "s" 100 50 19.3 5;
    CallAddPlaneY 0 0 "p";
    CallSetPeriodicityX 0.3;
    CallElectricField 0.15 5 0 ].

(** A grounded round tube of radius 1 with a thick wire close to its wall:
    the wire centre (0.95, 0) is inside the tube, the wire surface is not. *)
Definition tube_cell : list Call :=
  [ CallAddTube 1 0 0 "t";
    CallAddWire 0.95 0 0.2 1000 "s" 100 50 19.3 5;
    CallElectricField 0 0.5 0 ].

(** Two overlapping wires and nothing else: the cell check removes the
    second wire and rejects the cell. *)
Definition pruned_cell : list Call :=
  [ CallAddWire 0 0 1 1000 "s" 100 50 19.3 5;
    CallAddWire 0.5 0 1 2000 "t" 100 50 19.3 5;
    CallElectricField 3 3 0 ].

(** The strip cell with the readout group of its wire, its signals prepared
    by a weighting-field query. *)
Definition readout_cell : list Call :=
  [ CallAddWire 0 1 0.01 1000 "s" 100 50 19.3 5;
    CallAddPlaneY 0 0 "p";
    CallSetPeriodicityX 3;
    CallAddReadout "s";
    CallWeightingField 0.5 5 4 "s" ].

(** A state with one wire at the origin, x-periodic with period 1. *)
Definition periodic_wire : State :=
  SetPeriodicityX ext_inert 1 (AddWire 0 0 0.01 1000 "s" 100 50 19.3 5 construct).

(** A tube with nine edges, as [AddTube] accepts it. *)
Definition tube9 : State := AddTube 1 0 9 "t" construct.




End Examples.

(** ** Two statements of the specification, as propositions about a kernel *)

Import Dbl.

(** Folding invariance as the specification states it: on every prepared
    cell reached by public calls, a query shifted by whole periods along the
    periodic axes returns what the unshifted query returns. *)
Definition shift (on : bool) (c : float) (n : Z) (sp : float) : float :=
  if on then (c + of_int n * sp)%float else c.

Definition folding_invariant (ext : Extern) : Prop :=
  forall calls x y z opt n m,
    let s := run ext calls in
    m_cellset s = true ->
    Field ext s (shift (m_perx s) x n (m_sx s)) (shift (m_pery s) y m (m_sy s)) z opt
    = Field ext s x y z opt.

(** A prepared cell and a query whose result changes when the query is
    shifted by [n] and [m] periods. *)
Definition folding_violation (ext : Extern) (calls : list Call)
    (x y z : float) (opt : bool) (n m : Z) : Prop :=
  let s := run ext calls in
  m_cellset s = true
  /\ Field ext s (shift (m_perx s) x n (m_sx s)) (shift (m_pery s) y m (m_sy s)) z opt
     <> Field ext s x y z opt.

(** ** The grid on which the fold is exact (C2) *)

(** The points of the grid of eighths: [a / 8] for an integer [a]. *)
Definition grid (a : Z) : float := (of_int a / 8)%float.

(** The integer [a] with [c = a / 8], if there is one. *)
Definition eighths (c : float) : option Z :=
  let a := int_round (c * 8) in
  if PrimFloat.Leibniz.eqb (grid a) c then Some a else None.

(** A coordinate [c], a period [sp] and a number of periods [n] for which
    the fold is computed without rounding: [c] and [sp] are multiples of
    1/8 with |c| <= 16 and 0 < sp <= 4, [c] is not half-way between two
    periods, and |n| <= 4. *)
Definition exact_fold (a b n : Z) : bool :=
  ((Z.abs a <=? 128) && (1 <=? b) && (b <=? 32) && (Z.abs n <=? 4)
   && negb ((2 * a) mod (2 * b) =? b))%Z.

Definition on_grid (c sp : float) (n : Z) : bool :=
  match eighths c, eighths sp with
  | Some a, Some b => exact_fold a b n
  | _, _ => false
  end.

(** The ranges of the grid. *)
Definition grid_points : list Z := map (fun k => Z.of_nat k - 128)%Z (seq 0 257).
Definition grid_periods : list Z := map (fun k => Z.of_nat k + 1)%Z (seq 0 32).
Definition grid_shifts : list Z := map (fun k => Z.of_nat k - 4)%Z (seq 0 9).

(** Whether the z component of a result of [Field] is below a bound. *)
Definition Ez_below (bound : float) (r : option (Z * EV)) : bool :=
  match r with
  | Some (_, ev) => (Ez ev <? bound)%float
  | None => false
  end.

(** The wire sentinel as the specification states it: on every prepared
    cell, a point whose folded position is strictly inside wire [i] gets
    the positive status [i + 1], the voltage of that wire and no field. *)
Definition wire_sentinel (ext : Extern) : Prop :=
  forall calls x y z opt i,
    let s := run ext calls in
    m_cellset s = true ->
    (i < nW s)%nat ->
    in_wire s (fst (fst (Field_fold ext s x y))) (snd (fst (Field_fold ext s x y))) i = true ->
    Field ext s x y z opt = Some ((Z.of_nat i + 1)%Z, mkEV 0 0 0 (wire.v (w_at s i))).

(** ** The rounds of the polynomial series (C8) *)

(** A series summed over the rounds [js]: the body is run on each j of the
    list, in order. *)
Definition series (term : Z -> Sums -> Sums) (js : list Z) (sm : Sums) : Sums :=
  fold_left (fun a j => term j a) js sm.

(** The truncated series as the specification describes it, one image pair
    per round: what the charge [c] adds to the result of [Field3dB2X] at a
    point of its near zone, when both polynomial series (the direct one and
    the one of the plane at constant y) are summed over the rounds [js]. *)
Definition B2X_rounds (s : State) (js : list Z) (xpos ypos zpos : float)
    (r : Sums * EV) (c : charge3d.t) : Sums * EV :=
  if ((xpos =? charge3d.x c) && (ypos =? charge3d.y c) && (zpos =? charge3d.z c))%float
  then r
  else
    let sx := m_sx s in
    let dx := (xpos - charge3d.x c)%float in
    let dy := (ypos - charge3d.y c)%float in
    let dz := (zpos - charge3d.z c)%float in
    let dxm := (xpos + charge3d.x c - 2 * m_coplax s)%float in
    let dym := (ypos + charge3d.y c - 2 * m_coplay s)%float in
    let sm := series (Field3dB2X_poly_term sx dx dxm dy dz) js (fst r) in
    let sm := if m_ynplay s
              then series (Field3dB2X_poly_term_plane sx dx dxm dym dz) js sm
              else sm in
    (sm, add_sums (charge3d.e c) sm (snd r)).

Definition Field3dB2X_rounds (s : State) (js : list Z) (xpos ypos zpos : float) : EV :=
  snd (fold_left (B2X_rounds s js xpos ypos zpos) (m_ch3d s) (Sums0, EV0)).

(** Every charge has the point in the near zone of both series. *)
Definition B2X_near (s : State) (xpos ypos zpos : float) : bool :=
  forallb
    (fun c =>
       let dy := (ypos - charge3d.y c)%float in
       let dz := (zpos - charge3d.z c)%float in
       let dym := (ypos + charge3d.y c - 2 * m_coplay s)%float in
       negb (far_zone dy dz (m_sx s))
       && (negb (m_ynplay s) || negb (far_zone dym dz (m_sx s))))
    (m_ch3d s).

(** The same for [Field3dB2Y], with the plane at constant x. *)
Definition B2Y_rounds (s : State) (js : list Z) (xpos ypos zpos : float)
    (r : Sums * EV) (c : charge3d.t) : Sums * EV :=
  if ((xpos =? charge3d.x c) && (ypos =? charge3d.y c) && (zpos =? charge3d.z c))%float
  then r
  else
    let sy := m_sy s in
    let dx := (xpos - charge3d.x c)%float in
    let dy := (ypos - charge3d.y c)%float in
    let dz := (zpos - charge3d.z c)%float in
    let dym := (ypos + charge3d.y c - 2 * m_coplay s)%float in
    let dxm := (xpos + charge3d.x c - 2 * m_coplax s)%float in
    let sm := series (Field3dB2Y_poly_term sy dx dy dym dz) js (fst r) in
    let sm := if m_ynplax s
              then series (Field3dB2Y_poly_term_plane sy dxm dy dym dz) js sm
              else sm in
    (sm, add_sums (charge3d.e c) sm (snd r)).

Definition Field3dB2Y_rounds (s : State) (js : list Z) (xpos ypos zpos : float) : EV :=
  snd (fold_left (B2Y_rounds s js xpos ypos zpos) (m_ch3d s) (Sums0, EV0)).

Definition B2Y_near (s : State) (xpos ypos zpos : float) : bool :=
  forallb
    (fun c =>
       let dx := (xpos - charge3d.x c)%float in
       let dz := (zpos - charge3d.z c)%float in
       let dxm := (xpos + charge3d.x c - 2 * m_coplax s)%float in
       negb (far_zone dx dz (m_sy s))
       && (negb (m_ynplax s) || negb (far_zone dxm dz (m_sy s))))
    (m_ch3d s).

(** The same for [Field3dD10], in the frame the routine maps the tube to:
    the period [ssx], the plane [cpl], the mapped point and, for the image
    [ii] of the charge [c], the mapped charge. *)
Definition D10_ssx (ext : Extern) (s : State) : float :=
  c_log ext (2 * m_cotube s / wire.d (w_at s 0))%float.
Definition D10_cpl (ext : Extern) (s : State) : float :=
  c_log ext (wire.d (w_at s 0) / 2)%float.
Definition D10_xpos (ext : Extern) (xx yy : float) : float :=
  (0.5 * c_log ext (xx * xx + yy * yy))%float.
Definition D10_ypos (ext : Extern) (xx yy : float) : float := c_atan2 ext yy xx.
Definition D10_x3d (ext : Extern) (c : charge3d.t) : float :=
  (0.5 * c_log ext (charge3d.x c * charge3d.x c + charge3d.y c * charge3d.y c))%float.
Definition D10_y3d (ext : Extern) (c : charge3d.t) (ii : Z) : float :=
  c_atan2 ext (charge3d.y c) (charge3d.x c + of_int ii * TwoPi ext)%float.

Definition D10_rounds (ext : Extern) (s : State) (js : list Z) (xx yy zz : float)
    (c : charge3d.t) (r : Sums * EV) (ii : Z) : Sums * EV :=
  let xpos := D10_xpos ext xx yy in
  let ypos := D10_ypos ext xx yy in
  let x3d := D10_x3d ext c in
  let y3d := D10_y3d ext c ii in
  if ((xpos =? x3d) && (ypos =? y3d) && (zz =? charge3d.z c))%float then r
  else
    let dx := (xpos - x3d)%float in
    let dy := (ypos - y3d)%float in
    let dz := (zz - charge3d.z c)%float in
    let dxm := (xpos + x3d - 2 * D10_cpl ext s)%float in
    let sm := series (Field3dD10_poly_term (D10_ssx ext s) dx dxm dy dz) js (fst r) in
    (sm, mkEV (Ex (snd r) + charge3d.e c * exsum sm)
              (Ey (snd r) + charge3d.e c * eysum sm)
              (Ez (snd r) + charge3d.e c * ezsum sm) (Volt (snd r)))%float.

Definition Field3dD10_rounds (ext : Extern) (s : State) (js : list Z)
    (xx yy zz : float) : EV :=
  if (m_nWires s <? 1)%Z then EV0
  else
    let xpos := D10_xpos ext xx yy in
    let ypos := D10_ypos ext xx yy in
    let acc :=
      snd (fold_left
             (fun r c => fold_left (D10_rounds ext s js xx yy zz c) [(-1)%Z; 0%Z; 1%Z] r)
             (m_ch3d s) (Sums0, EV0)) in
    mkEV (c_exp ext (- xpos) * (Ex acc * c_cos ext ypos - Ey acc * c_sin ext ypos))
         (c_exp ext (- ypos) * (Ex acc * c_sin ext ypos + Ey acc * c_cos ext ypos))
         (Ez acc) 0.

Definition D10_near (ext : Extern) (s : State) (xx yy zz : float) : bool :=
  forallb
    (fun c =>
       forallb
         (fun ii =>
            negb (far_zone (D10_ypos ext xx yy - D10_y3d ext c ii)%float
                           (zz - charge3d.z c)%float (D10_ssx ext s)))
         [(-1)%Z; 0%Z; 1%Z])
    (m_ch3d s).

(* ================================================================== *)
(** * Further accessors and queries *)
(* ================================================================== *)

Section Queries.
Variable ext : Extern.
Local Open Scope float_scope.

(** [GetPeriodicityX(s)] and [GetPeriodicityY(s)]: the return value and the
    length handed back in [s]. *)
Definition GetPeriodicityX (s : State) : bool * float :=
  if negb (m_xPeriodic s) then (false, 0) else (true, m_sx s).

Definition GetPeriodicityY (s : State) : bool * float :=
  if negb (m_yPeriodic s) then (false, 0) else (true, m_sy s).

Definition GetNumberOfPlanesX (s : State) : Z :=
  if ynplan s 0 && ynplan s 1 then 2%Z
  else if ynplan s 0 || ynplan s 1 then 1%Z
  else 0%Z.

Definition GetNumberOfPlanesY (s : State) : Z :=
  if ynplan s 2 && ynplan s 3 then 2%Z
  else if ynplan s 2 || ynplan s 3 then 1%Z
  else 0%Z.

(** [GetPlaneX(i, ...)] and [GetPlaneY(i, ...)]: [None] is the return value
    false; otherwise the coordinate, the voltage and the label. *)
Definition GetPlaneX (s : State) (i : Z) : option (float * float * string) :=
  if (2 <=? i)%Z || ((i =? 1)%Z && negb (ynplan s 1)) then None
  else Some (coplan s (zidx i), vtplan s (zidx i), plane.type (planes_at s (zidx i))).

Definition GetPlaneY (s : State) (i : Z) : option (float * float * string) :=
  if (2 <=? i)%Z || ((i =? 1)%Z && negb (ynplan s 3)) then None
  else Some (coplan s (zidx (i + 2)), vtplan s (zidx (i + 2)),
             plane.type (planes_at s (zidx (i + 2)))).

(** [GetTube]: radius, voltage, number of edges and label. *)
Definition GetTube (s : State) : option (float * float * Z * string) :=
  if negb (m_tube s) then None
  else Some (m_cotube s, m_vttube s, m_ntube s, plane.type (planes_at s 4)).

(** [GetBoundingBox]: [geometry] is the box the geometry of the base class
    provides, if there is a geometry and it has one.  The result is
    (x0, y0, z0, x1, y1, z1). *)
Definition GetBoundingBox (geometry : option (float * float * float * float * float * float))
    (s : State) : option (float * float * float * float * float * float) :=
  match geometry with
  | Some b => Some b
  | None =>
      if negb (m_cellset s) then None
      else Some (xmin s, ymin s, zmin s, xmax s, ymax s, zmax s)
  end.

(** ** IsInTrapRadius *)

(** "In case of periodicity, move the point into the basic cell" and "move
    the point to the correct side of the plane": the folded point and the
    numbers of periods [nX] and [nPhi] it was moved by. *)
Definition IsInTrapRadius_fold (s : State) (xin yin : float) : float * float * Z * Z :=
  let x0 := xin in
  let y0 := yin in
  let nX := if m_perx s then int_round (xin / m_sx s) else 0%Z in
  let x0 := if m_perx s then x0 - m_sx s * of_int nX else x0 in
  let '(x0, y0, nPhi) :=
    if m_pery s && m_tube s then
      let '(x0, y0) := Cartesian2Polar ext xin yin in
      let nPhi := int_round ((Pi ext * y0) / (m_sy s * 180)) in
      let y0 := y0 - 180 * m_sy s * of_int nPhi / Pi ext in
      let '(x0, y0) := Polar2Cartesian ext x0 y0 in
      (x0, y0, nPhi)
    else if m_pery s then
      let nY := int_round (yin / m_sy s) in
      (x0, y0 - m_sy s * of_int nY, 0%Z)
    else (x0, y0, 0%Z) in
  let x0 := if m_perx s && ynplan s 0 && (x0 <=? coplan s 0) then x0 + m_sx s else x0 in
  let x0 := if m_perx s && ynplan s 1 && geb x0 (coplan s 1) then x0 - m_sx s else x0 in
  let y0 := if m_pery s && ynplan s 2 && (y0 <=? coplan s 2) then y0 + m_sy s else y0 in
  let y0 := if m_pery s && ynplan s 3 && geb y0 (coplan s 3) then y0 - m_sy s else y0 in
  (x0, y0, nX, nPhi).

(** The test of the wire loop: wire [i] has not "the wrong charge" and the
    point is within its trap radius. *)
Definition traps (s : State) (qin x0 y0 : float) (i : nat) : bool :=
  let w := w_at s i in
  if gtb (qin * wire.e w) 0 then false
  else
    let dxw0 := wire.x w - x0 in
    let dyw0 := wire.y w - y0 in
    let r2 := dxw0 * dxw0 + dyw0 * dyw0 in
    let rTrap := 0.5 * wire.d w * of_int (wire.nTrap w) in
    r2 <? rTrap * rTrap.

(** What is handed back for wire [i]: the wire position, moved back by the
    periods in x and phi the point was moved by, and the wire radius. *)
Definition trap_result (s : State) (nX nPhi : Z) (i : nat) : float * float * float :=
  let w := w_at s i in
  let xw := wire.x w in
  let yw := wire.y w in
  let rw := wire.d w * 0.5 in
  let '(xw, yw) :=
    if m_pery s && m_tube s then
      let '(rhow, phiw) := Cartesian2Polar ext xw yw in
      let phiw := phiw + 180 * m_sy s * of_int nPhi / Pi ext in
      Polar2Cartesian ext rhow phiw
    else (xw, yw) in
  let xw := if m_perx s then xw + m_sx s * of_int nX else xw in
  (xw, yw, rw).

(** [IsInTrapRadius(qin, xin, yin, zin, xw, yw, rw)]: [None] is the return
    value false; otherwise (xw, yw, rw). *)
Definition IsInTrapRadius (s : State) (qin xin yin zin : float)
  : option (float * float * float) :=
  let '(x0, y0, nX, nPhi) := IsInTrapRadius_fold s xin yin in
  match find (traps s qin x0 y0) (seq 0 (nW s)) with
  | Some i => Some (trap_result s nX nPhi i)
  | None => None
  end.

End Queries.

(** ** Vocabulary of the further properties *)

(** The name [CellType] stores with each tag of the enumeration. *)
Definition Cell_name (c : Cell) : string :=
  match c with
  | A00 => "A  " | B1X => "B1X" | B1Y => "B1Y" | B2X => "B2X" | B2Y => "B2Y"
  | C10 => "C1 " | C2X => "C2X" | C2Y => "C2Y" | C30 => "C3 "
  | D10 => "D1 " | D20 => "D2 " | D30 => "D3 " | D40 => "D4 "
  | Unknown => ""
  end.

(** The members the cell preparation has no business with: the readout
    groups and the signal flag, the coordinate system, the requested
    periodicities, the dipole flag, the tube (but for its edge count) and
    the point charges with their series lengths; and [m_cellset]. *)
Definition kept (s : State)
  : list string * bool * bool * bool * bool * bool * bool * Z * float * float
    * list charge3d.t * Z * Z * bool :=
  (m_readout s, m_sigset s, m_polar s, m_xPeriodic s, m_yPeriodic s, dipole s,
   m_tube s, m_mtube s, m_cotube s, m_vttube s, m_ch3d s, m_nTermBessel s,
   m_nTermPoly s, m_cellset s).

(** The sizes the indexed accesses of the class rely on: four plane slots,
    five plane records, and at least [m_nWires] wires. *)
Definition shaped (s : State) : Prop :=
  List.length (m_ynplan s) = 4%nat /\ List.length (m_coplan s) = 4%nat
  /\ List.length (m_vtplan s) = 4%nat /\ List.length (planes s) = 5%nat
  /\ (0 <= m_nWires s <= Z.of_nat (List.length (m_w s)))%Z.

(** The number of planes in use, and of conductors: wires in use, planes and
    tube, as [CellCheck] counts them. *)
Definition plane_count (s : State) : Z :=
  ((if ynplan s 0 then 1 else 0) + (if ynplan s 1 then 1 else 0)
   + (if ynplan s 2 then 1 else 0) + (if ynplan s 3 then 1 else 0))%Z.

Definition elements (s : State) : Z :=
  (m_nWires s + plane_count s + (if m_tube s then 1 else 0))%Z.

(** What no negative gap means for the strips and pixels of a plane. *)
Definition gaps_set (p : plane.t) : Prop :=
  Forall (fun a => (strip.gap a <? 0)%float = false) (plane.strips1 p)
  /\ Forall (fun a => (strip.gap a <? 0)%float = false) (plane.strips2 p)
  /\ Forall (fun a => (pixel.gap a <? 0)%float = false) (plane.pixels p).

(** The numbers of strips and pixels of a plane. *)
Definition strip_counts (p : plane.t) : nat * nat * nat :=
  (List.length (plane.strips1 p), List.length (plane.strips2 p),
   List.length (plane.pixels p)).

(** The calls that add strips, pixels and point charges or clear the
    charges. *)
Definition decorates (c : Call) : bool :=
  match c with
  | CallAddStripOnPlaneX _ _ _ _ _ _ | CallAddStripOnPlaneY _ _ _ _ _ _
  | CallAddPixelOnPlaneX _ _ _ _ _ _ _ | CallAddPixelOnPlaneY _ _ _ _ _ _ _
  | CallAddCharge _ _ _ _ | CallClearCharges => true
  | _ => false
  end.

(** The conductors and the solve: everything [Prepare] reads but the strips
    and pixels. *)
Definition solved (s : State) :=
  (m_cellset s, m_sigset s, m_nWires s, m_w s, m_ynplan s, m_coplan s, m_vtplan s,
   (m_tube s, m_ntube s, m_cotube s, m_vttube s),
   (m_perx s, m_pery s, m_sx s, m_sy s, m_xPeriodic s, m_yPeriodic s),
   (m_cellType s, m_scellType s, m_derived s, m_v0 s, m_corvta s, m_corvtb s, m_corvtc s)).

Module MoreExamples.
Local Open Scope float_scope.
Local Open Scope string_scope.

(** A hexagonal tube with one wire, periodic in phi with period 60 degrees,
    prepared by a first field query. *)
Definition hex_cell : list Call :=
  [ CallAddTube 1 0 6 "t";
    CallAddWire 0.3 0 0.01 1000 "s" 100 50 19.3 5;
    CallSetPeriodicityY 60;
    CallElectricField 0 0.5 0 ].

End MoreExamples.

(** The indices below [n] that [wrong] does not mark. *)
Definition kept_indices (wrong : list bool) (n : nat) : list nat :=
  filter (fun i => negb (nth i wrong false)) (seq 0 n).

(** The sizes of the plane vectors, the wire count and the wire vector. *)
Definition sizes (s : State) : nat * nat * nat * nat * Z * list wire.t :=
  (List.length (m_ynplan s), List.length (m_coplan s), List.length (m_vtplan s),
   List.length (planes s), m_nWires s, m_w s).


(** The sizes of the plane vectors alone. *)
Definition plane_sizes (s : State) : nat * nat * nat * nat :=
  (List.length (m_ynplan s), List.length (m_coplan s), List.length (m_vtplan s),
   List.length (planes s)).

(** Bounds in order: the upper bound of a strip or pixel is not below its
    lower bound. *)
Definition strip_ordered (a : strip.t) : Prop :=
  (strip.smax a <? strip.smin a)%float = false.

Definition pixel_ordered (a : pixel.t) : Prop :=
  (pixel.smax a <? pixel.smin a)%float = false
  /\ (pixel.zmax a <? pixel.zmin a)%float = false.

Definition plane_ordered (p : plane.t) : Prop :=
  Forall strip_ordered (plane.strips1 p) /\ Forall strip_ordered (plane.strips2 p)
  /\ Forall pixel_ordered (plane.pixels p).

Definition bounds_ordered (s : State) : Prop := Forall plane_ordered (planes s).

(** The planes [i] and [i+1] of a pair, when both are in use, are at
    different coordinates with the lower one in slot [i]. *)
Definition pair_ordered (s : State) (i : nat) : Prop :=
  ynplan s i = true -> ynplan s (S i) = true ->
  (coplan s i =? coplan s (S i))%float = false
  /\ (coplan s (S i) <? coplan s i)%float = false.

(** The plane slots in use and their coordinates. *)
Definition slots (s : State) : list bool * list float := (m_ynplan s, m_coplan s).

(* ================================================================== *)
(** * Properties *)
(* ================================================================== *)

(** ** IsWireCrossed (C9) *)

(** C9.  [IsWireCrossed] reports no crossing and leaves the crossing point
    at the start of the segment whenever the squared in-plane length of the
    segment is below [Small], or the segment spans a whole period in x under
    x-periodicity or in y under y-periodicity, whatever wires the segment
    passes through. *)
Theorem IsWireCrossed_no_crossing :
  forall ext s x0 y0 z0 x1 y1 z1,
    ((x1 - x0) * (x1 - x0) + (y1 - y0) * (y1 - y0) <? Small ext)%float = true
    \/ (m_perx s = true /\ geb (fabs (x1 - x0)) (m_sx s) = true)
    \/ (m_pery s = true /\ geb (fabs (y1 - y0)) (m_sy s) = true) ->
    IsWireCrossed ext s x0 y0 z0 x1 y1 z1 = (false, (x0, y0, z0)).
Proof.
  intros ext s x0 y0 z0 x1 y1 z1 H.
  unfold IsWireCrossed.
  destruct (m_w s) as [|w ws]; [reflexivity|].
  destruct H as [H | [[Hp Hd] | [Hp Hd]]].
  - now rewrite H.
  - destruct (_ <? Small ext)%float; [reflexivity|].
    now rewrite Hp, Hd.
  - destruct (_ <? Small ext)%float; [reflexivity|].
    rewrite Hp, Hd. cbn. now rewrite orb_true_r.
Qed.

(** A segment from (-1, 0) to (1, 0) runs through the wire at the origin of
    a cell of period 1 and spans two periods: no crossing is reported. *)
Lemma IsWireCrossed_no_crossing_witness :
  IsWireCrossed Examples.ext_inert Examples.periodic_wire (-1) 0 0 1 0 0
  = (false, ((-1)%float, 0%float, 0%float)).
Proof.
  apply IsWireCrossed_no_crossing.
  right; left. split; reflexivity.
Defined.

(** The same wire is found on a segment shorter than the period. *)
Example IsWireCrossed_short_segment :
  fst (IsWireCrossed Examples.ext_inert Examples.periodic_wire (-0.25) 0 0 0.25 0 0) = true.
Proof. reflexivity. Qed.

(** ** Frame properties: what a call leaves alone *)

Lemma fold_left_keeps {A B : Type} (P : State -> B) (f : State -> A -> State) :
  (forall s a, P (f s a) = P s) ->
  forall l s, P (fold_left f l s) = P s.
Proof.
  intros Hf l. induction l as [|a l IH]; intro s; cbn; [reflexivity|].
  now rewrite IH, Hf.
Qed.

Ltac split_ifs :=
  repeat match goal with
         | |- context [if ?c then _ else _] => destruct c
         end.

Ltac frame := intros; cbv beta delta [invalidate]; split_ifs; reflexivity.

(** ** What the signal preparation leaves alone *)

(** The state the state-changing queries hand back. *)
Lemma GetVoltageRange_state ext s :
  fst (GetVoltageRange ext s) = if m_cellset s then s else snd (Prepare ext s).
Proof.
  unfold GetVoltageRange. destruct (m_cellset s); [reflexivity|].
  cbv beta iota delta [negb].
  destruct (Prepare ext s) as [ok s1]. now destruct ok.
Qed.

Lemma WeightingField_state ext s x y z lab :
  fst (WeightingField ext s x y z lab)
  = match m_readout s with
    | [] => s
    | _ :: _ => if m_sigset s then s else snd (PrepareSignals ext s)
    end.
Proof.
  unfold WeightingField. destruct (m_readout s) as [|r rs]; [reflexivity|].
  destruct (m_sigset s); cbv beta iota delta [negb].
  - destruct (String.eqb lab ""); [reflexivity|].
    destruct (index_of lab (m_readout s) 0); [|reflexivity].
    now destruct (Wfield ext s x y z _ false) as [[[wx wy] wz] v].
  - destruct (PrepareSignals ext s) as [ok s1].
    destruct ok; cbv beta iota delta [negb snd]; [|reflexivity].
    destruct (String.eqb lab ""); [reflexivity|].
    destruct (index_of lab (m_readout s1) 0); [|reflexivity].
    now destruct (Wfield ext s1 x y z _ false) as [[[wx wy] wz] v].
Qed.

Lemma WeightingPotential_state ext s x y z lab :
  fst (WeightingPotential ext s x y z lab)
  = match m_readout s with
    | [] => s
    | _ :: _ => if m_sigset s then s else snd (PrepareSignals ext s)
    end.
Proof.
  unfold WeightingPotential. destruct (m_readout s) as [|r rs]; [reflexivity|].
  destruct (m_sigset s); cbv beta iota delta [negb].
  - destruct (String.eqb lab ""); [reflexivity|].
    destruct (index_of lab (m_readout s) 0); [|reflexivity].
    now destruct (Wfield ext s x y z _ true) as [[[wx wy] wz] v].
  - destruct (PrepareSignals ext s) as [ok s1].
    destruct ok; cbv beta iota delta [negb snd]; [|reflexivity].
    destruct (String.eqb lab ""); [reflexivity|].
    destruct (index_of lab (m_readout s1) 0); [|reflexivity].
    now destruct (Wfield ext s1 x y z _ true) as [[[wx wy] wz] v].
Qed.

(** A property that survives the writes of the signal preparation (to the
    signal data, the derived constants, the bias fields and the readout
    indices of the planes and wires, and [m_sigset]) survives the signal
    preparation. *)
Section SignalInvariant.
Variable ext : Extern.
Variable P : State -> Prop.
Hypothesis P_signals : forall g s, P s -> P (set_m_signals g s).
Hypothesis P_derived : forall d s, P s -> P (set_m_derived d s).
Hypothesis P_ewxcor : forall k c s, P s -> P (set_ewxcor k c s).
Hypothesis P_ewycor : forall k c s, P s -> P (set_ewycor k c s).
Hypothesis P_associate : forall s i label, P s -> P (associate s i label).
Hypothesis P_sigset : forall b s, P s -> P (set_m_sigset b s).

Lemma inv_SetupWireSignals s : P s -> P (snd (SetupWireSignals ext s)).
Proof.
  intro H. unfold SetupWireSignals. destruct (SignalMatrix ext s) as [[ok m] b2].
  cbn [snd]. unfold set_m_sigmat. apply P_signals, P_derived, H.
Qed.

Lemma inv_bias s : P s -> P (SetupPlaneSignals_bias s).
Proof.
  intro H. unfold SetupPlaneSignals_bias.
  set (s1 := if ynplan s 0 && ynplan s 1 then _ else _).
  assert (H1 : P s1)
    by (unfold s1; split_ifs; apply P_ewxcor, P_ewxcor, H).
  clearbody s1.
  set (s2 := set_ewxcor 2 0 _).
  assert (H2 : P s2) by (unfold s2; apply P_ewxcor, P_ewxcor, P_ewxcor, H1).
  clearbody s2.
  set (s3 := set_ewycor 0 0 _).
  assert (H3 : P s3) by (unfold s3; apply P_ewycor, P_ewycor, H2).
  clearbody s3.
  set (s4 := if ynplan s3 2 && ynplan s3 3 then _ else _).
  assert (H4 : P s4)
    by (unfold s4; split_ifs; apply P_ewycor, P_ewycor, H3).
  clearbody s4. apply P_ewycor, H4.
Qed.

Lemma inv_SetupPlaneSignals s : P s -> P (snd (SetupPlaneSignals s)).
Proof.
  intro H. unfold SetupPlaneSignals. cbn [snd]. apply inv_bias.
  unfold set_m_qplane. apply P_signals, H.
Qed.

Lemma inv_associate_all s : P s -> P (associate_all s).
Proof.
  unfold associate_all.
  assert (G : forall l r,
             P (snd r) ->
             P (snd (fold_left (fun r label => ((fst r + 1)%Z, associate (snd r) (fst r) label))
                               l r))).
  { induction l as [|a l IH]; intros r H; cbn [fold_left]; [exact H|].
    apply IH. cbn [snd]. apply P_associate, H. }
  intro H. apply G, H.
Qed.

Lemma inv_setup s : P s -> P (snd (PrepareSignals_setup ext s)).
Proof.
  intro H. unfold PrepareSignals_setup.
  destruct (Fourier_type s) as [tf|]; [|exact H].
  pose proof (inv_SetupWireSignals _ (P_signals (Fourier_settings ext tf s) s H)) as H1.
  destruct (SetupWireSignals ext _) as [ok1 s1]; cbv beta iota delta [snd] in H1.
  destruct ok1; cbv beta iota delta [negb snd].
  - pose proof (inv_SetupPlaneSignals s1 H1) as H2.
    destruct (SetupPlaneSignals s1) as [ok2 s2]; cbv beta iota delta [snd] in H2.
    destruct ok2; cbv beta iota delta [negb snd].
    + apply P_sigset, inv_associate_all, H2.
    + unfold set_m_qplane, set_m_sigmat. apply P_signals, P_signals, H2.
  - unfold set_m_sigmat. apply P_signals, H1.
Qed.

(** [PrepareSignals] runs [Prepare] on an unprepared cell only. *)
Hypothesis P_Prepare : forall s, m_cellset s = false -> P s -> P (snd (Prepare ext s)).

Lemma inv_PrepareSignals s : P s -> P (snd (PrepareSignals ext s)).
Proof.
  intro H. unfold PrepareSignals. destruct (m_readout s) as [|r rs]; [exact H|].
  destruct (m_cellset s) eqn:Ec; cbv beta iota delta [negb].
  - apply inv_setup, H.
  - pose proof (P_Prepare s Ec H) as H1.
    destruct (Prepare ext s) as [ok s1]; cbv beta iota delta [snd] in H1.
    destruct ok; cbv beta iota delta [negb snd]; [|exact H1].
    apply inv_setup, H1.
Qed.

Lemma inv_WeightingField s x y z lab : P s -> P (fst (WeightingField ext s x y z lab)).
Proof.
  intro H. rewrite WeightingField_state. destruct (m_readout s); [exact H|].
  destruct (m_sigset s); [exact H|apply inv_PrepareSignals, H].
Qed.

Lemma inv_WeightingPotential s x y z lab :
  P s -> P (fst (WeightingPotential ext s x y z lab)).
Proof.
  intro H. rewrite WeightingPotential_state. destruct (m_readout s); [exact H|].
  destruct (m_sigset s); [exact H|apply inv_PrepareSignals, H].
Qed.

End SignalInvariant.

(** In particular a member that none of these writes touches keeps its
    value. *)
Section SignalFrame.
Variable ext : Extern.
Context {B : Type} (f : State -> B).
Hypothesis f_signals : forall g s, f (set_m_signals g s) = f s.
Hypothesis f_derived : forall d s, f (set_m_derived d s) = f s.
Hypothesis f_planes : forall p s, f (set_planes p s) = f s.
Hypothesis f_w : forall w s, f (set_m_w w s) = f s.
Hypothesis f_sigset : forall b s, f (set_m_sigset b s) = f s.

Lemma keeps_setup s : f (snd (PrepareSignals_setup ext s)) = f s.
Proof.
  apply (inv_setup ext (fun t => f t = f s)); try reflexivity; intros.
  - now rewrite f_signals.
  - now rewrite f_derived.
  - unfold set_ewxcor, set_planes_at. now rewrite f_planes.
  - unfold set_ewycor, set_planes_at. now rewrite f_planes.
  - unfold associate. now rewrite f_planes, f_w.
  - now rewrite f_sigset.
Qed.

Hypothesis f_Prepare : forall s, f (snd (Prepare ext s)) = f s.

Lemma keeps_PrepareSignals s : f (snd (PrepareSignals ext s)) = f s.
Proof.
  apply (inv_PrepareSignals ext (fun t => f t = f s)); try reflexivity; intros.
  - now rewrite f_signals.
  - now rewrite f_derived.
  - unfold set_ewxcor, set_planes_at. now rewrite f_planes.
  - unfold set_ewycor, set_planes_at. now rewrite f_planes.
  - unfold associate. now rewrite f_planes, f_w.
  - now rewrite f_sigset.
  - now rewrite f_Prepare.
Qed.

Lemma keeps_WeightingField s x y z lab : f (fst (WeightingField ext s x y z lab)) = f s.
Proof.
  rewrite WeightingField_state. destruct (m_readout s); [reflexivity|].
  destruct (m_sigset s); [reflexivity|apply keeps_PrepareSignals].
Qed.

Lemma keeps_WeightingPotential s x y z lab :
  f (fst (WeightingPotential ext s x y z lab)) = f s.
Proof.
  rewrite WeightingPotential_state. destruct (m_readout s); [reflexivity|].
  destruct (m_sigset s); [reflexivity|apply keeps_PrepareSignals].
Qed.

End SignalFrame.

Section Readout.
Variable ext : Extern.

Lemma readout_CellCheck_planes lo sp s :
  m_readout (fst (CellCheck_planes lo sp s)) = m_readout s.
Proof. unfold CellCheck_planes. frame. Qed.

Lemma readout_CellCheck_order i s : m_readout (CellCheck_order i s) = m_readout s.
Proof. unfold CellCheck_order. frame. Qed.

Lemma readout_CellCheck_conflict i j s :
  m_readout (CellCheck_conflict i j s) = m_readout s.
Proof. unfold CellCheck_conflict. frame. Qed.

Lemma readout_planes_phase s : m_readout (CellCheck_planes_phase s) = m_readout s.
Proof.
  unfold CellCheck_planes_phase.
  rewrite !readout_CellCheck_order, !readout_CellCheck_conflict.
  destruct (m_pery _).
  - destruct (CellCheck_planes 2 _ _) as [s2 p2] eqn:E2.
    change (m_readout (set_m_pery p2 s2)) with (m_readout (fst (s2, p2))).
    rewrite <- E2, readout_CellCheck_planes.
    destruct (m_perx s); [|reflexivity].
    destruct (CellCheck_planes 0 _ _) as [s0 p0] eqn:E0.
    change (m_readout (set_m_perx p0 s0)) with (m_readout (fst (s0, p0))).
    now rewrite <- E0, readout_CellCheck_planes.
  - destruct (m_perx s); [|reflexivity].
    destruct (CellCheck_planes 0 _ _) as [s0 p0] eqn:E0.
    change (m_readout (set_m_perx p0 s0)) with (m_readout (fst (s0, p0))).
    now rewrite <- E0, readout_CellCheck_planes.
Qed.

Lemma readout_wires_phase s : m_readout (CellCheck_wires_phase ext s) = m_readout s.
Proof. unfold CellCheck_wires_phase, map_wires. frame. Qed.

Lemma readout_CellCheck_keep lo a b s :
  m_readout (fst (fst (CellCheck_keep lo a b s))) = m_readout s.
Proof. unfold CellCheck_keep. frame. Qed.

Lemma readout_CellCheck_move a b s : m_readout (CellCheck_move a b s) = m_readout s.
Proof. reflexivity. Qed.

Lemma readout_numbering s : m_readout (CellCheck_numbering s) = m_readout s.
Proof.
  unfold CellCheck_numbering.
  destruct (CellCheck_keep 0 _ _ s) as [[s1 a1] b1] eqn:E1.
  destruct (CellCheck_keep 2 _ _ s1) as [[s2 a2] b2] eqn:E2.
  assert (H1 : m_readout s1 = m_readout s)
    by (change s1 with (fst (fst (s1, a1, b1))); rewrite <- E1; apply readout_CellCheck_keep).
  assert (H2 : m_readout s2 = m_readout s1)
    by (change s2 with (fst (fst (s2, a2, b2))); rewrite <- E2; apply readout_CellCheck_keep).
  split_ifs; cbn; congruence.
Qed.

Lemma readout_prune s : m_readout (CellCheck_prune ext s) = m_readout s.
Proof.
  unfold CellCheck_prune, CellCheck_remove.
  rewrite (fold_left_keeps m_readout); [reflexivity|].
  intros; unfold CellCheck_remove_i; frame.
Qed.

Lemma readout_box s : m_readout (snd (CellCheck_box ext s)) = m_readout s.
Proof. unfold CellCheck_box. frame. Qed.

Lemma readout_CellCheck s : m_readout (snd (CellCheck ext s)) = m_readout s.
Proof.
  unfold CellCheck.
  now rewrite readout_box, readout_prune, readout_numbering, readout_wires_phase,
    readout_planes_phase.
Qed.

Lemma readout_CellType s : m_readout (snd (CellType s)) = m_readout s.
Proof. unfold CellType. frame. Qed.

Lemma readout_Charge s : m_readout (snd (Charge ext s)) = m_readout s.
Proof. unfold Charge. destruct (Charge_core _ _ _ _ _ _ _ _ _ _ _ _ _ _ _ _ _ _ _) as [ok [[a v0] ws]]. reflexivity. Qed.

Lemma readout_SetupCell s : m_readout (snd (SetupCell ext s)) = m_readout s.
Proof.
  unfold SetupCell. destruct (SetupFill ext s) as [a der].
  destruct (Charge ext _) as [ok s1] eqn:E.
  assert (H : m_readout s1 = m_readout s)
    by (change s1 with (snd (ok, s1)); rewrite <- E, readout_Charge; reflexivity).
  destruct ok; cbn; exact H.
Qed.

Lemma readout_Setup s : m_readout (snd (Setup ext s)) = m_readout s.
Proof.
  unfold Setup.
  set (s1 := Setup_corrections (Setup_shorthand s)).
  assert (H1 : m_readout s1 = m_readout s)
    by (unfold s1, Setup_corrections, Setup_shorthand, set_corvt; frame).
  clearbody s1. cbv zeta.
  destruct (m_nWires s1 <=? 0)%Z; [exact H1|].
  destruct (existsb _ setup_types).
  - destruct (SetupCell ext _) as [ok s2] eqn:E.
    assert (H2 : m_readout s2 = m_readout s1)
      by (change s2 with (snd (ok, s2)); rewrite <- E, readout_SetupCell; reflexivity).
    cbn. congruence.
  - cbn. exact H1.
Qed.

Lemma readout_PrepareStrips_plane gapDef r i :
  m_readout (snd (PrepareStrips_plane gapDef r i)) = m_readout (snd r).
Proof.
  unfold PrepareStrips_plane. destruct r as [ok s].
  destruct ok; cbn; [|reflexivity].
  destruct (assign_gaps strip.gap strip.set_gap _ (plane.strips1 _)) as [ok1 l1].
  destruct ok1; cbn; [|reflexivity].
  destruct (assign_gaps strip.gap strip.set_gap _ _) as [ok2 l2].
  destruct ok2; cbn; [|reflexivity].
  destruct (assign_gaps pixel.gap pixel.set_gap _ _) as [ok3 l3].
  reflexivity.
Qed.

Lemma readout_PrepareStrips s : m_readout (snd (PrepareStrips s)) = m_readout s.
Proof.
  unfold PrepareStrips.
  match goal with
  | |- context [fold_left (PrepareStrips_plane ?g) _ _] =>
      assert (H : forall l1 r1, m_readout (snd (fold_left (PrepareStrips_plane g) l1 r1))
                                = m_readout (snd r1));
      [ intros l0; induction l0 as [|i l0 IH]; intro r0; cbn; [reflexivity|];
        now rewrite IH, readout_PrepareStrips_plane
      | now rewrite H ]
  end.
Qed.

Lemma readout_Prepare s : m_readout (snd (Prepare ext s)) = m_readout s.
Proof.
  unfold Prepare.
  pose proof (readout_CellCheck s) as H1.
  destruct (CellCheck ext s) as [ok1 s1]; cbv beta iota delta [snd] in H1.
  destruct ok1; cbv beta iota delta [negb snd]; [|exact H1].
  pose proof (readout_CellType s1) as H2.
  destruct (CellType s1) as [ok2 s2]; cbv beta iota delta [snd] in H2.
  destruct ok2; cbv beta iota delta [negb snd]; [|congruence].
  pose proof (readout_Setup s2) as H3.
  destruct (Setup ext s2) as [ok3 s3]; cbv beta iota delta [snd] in H3.
  destruct ok3; cbv beta iota delta [negb snd]; [|congruence].
  pose proof (readout_PrepareStrips s3) as H4.
  destruct (PrepareStrips s3) as [ok4 s4]; cbv beta iota delta [snd] in H4.
  destruct ok4; cbv beta iota delta [negb snd];
    (transitivity (m_readout s4); [reflexivity | congruence]).
Qed.

(** Every call other than [AddReadout] leaves the readout list alone. *)
Lemma readout_call s c :
  m_readout (call ext s c) =
  match c with CallAddReadout label => m_readout (AddReadout label s) | _ => m_readout s end.
Proof.
  destruct c; cbn; try reflexivity.
  - unfold AddWire; frame.
  - unfold AddTube; frame.
  - unfold AddPlaneX, AddPlane; frame.
  - unfold AddPlaneY, AddPlane; frame.
  - unfold AddStripOnPlaneX, AddStripOnPlane; frame.
  - unfold AddStripOnPlaneY, AddStripOnPlane; frame.
  - unfold AddPixelOnPlaneX, AddPixelOnPlane; frame.
  - unfold AddPixelOnPlaneY, AddPixelOnPlane; frame.
  - unfold SetPeriodicityX, UpdatePeriodicity; frame.
  - unfold SetPeriodicityY, UpdatePeriodicity; frame.
  - destruct (m_cellset s); [reflexivity|apply readout_Prepare].
  - rewrite GetVoltageRange_state.
    destruct (m_cellset s); [reflexivity|apply readout_Prepare].
  - apply (keeps_WeightingField ext m_readout); try (intros; reflexivity).
    apply readout_Prepare.
  - apply (keeps_WeightingPotential ext m_readout); try (intros; reflexivity).
    apply readout_Prepare.
Qed.

End Readout.

(** ** AddReadout (C10) *)

Lemma existsb_eqb_In label l :
  existsb (String.eqb label) l = true <-> In label l.
Proof.
  rewrite existsb_exists. split.
  - intros [x [Hin Heq]]. apply String.eqb_eq in Heq. now subst.
  - intro Hin. exists label. split; [assumption|apply String.eqb_refl].
Qed.

Lemma AddReadout_known label s :
  In label (m_readout s) -> AddReadout label s = s.
Proof.
  intro H. unfold AddReadout. apply existsb_eqb_In in H. now rewrite H.
Qed.

Lemma AddReadout_new label s :
  ~ In label (m_readout s) ->
  AddReadout label s = set_m_sigset false (set_m_readout (m_readout s ++ [label]) s).
Proof.
  intro H. unfold AddReadout.
  destruct (existsb _ _) eqn:E; [|reflexivity].
  apply existsb_eqb_In in E. contradiction.
Qed.

Lemma AddReadout_NoDup label s :
  NoDup (m_readout s) -> NoDup (m_readout (AddReadout label s)).
Proof.
  intro H. destruct (in_dec string_dec label (m_readout s)) as [Hin|Hin].
  - now rewrite AddReadout_known.
  - rewrite AddReadout_new by assumption. cbn.
    apply NoDup_rev in H. rewrite <- (rev_involutive (_ ++ _)).
    apply NoDup_rev. rewrite rev_app_distr. cbn.
    constructor; [|assumption]. now rewrite <- in_rev.
Qed.

Lemma run_snoc ext calls c : run ext (calls ++ [c]) = call ext (run ext calls) c.
Proof. unfold run. now rewrite fold_left_app. Qed.

Lemma readout_NoDup ext calls : NoDup (m_readout (run ext calls)).
Proof.
  induction calls as [|c calls IH] using rev_ind.
  - cbn. constructor.
  - rewrite run_snoc, readout_call.
    destruct c; try exact IH. now apply AddReadout_NoDup.
Qed.

(** A weighting-field query on a component whose signals are not prepared
    and that has a readout group runs [PrepareSignals]. *)
Lemma WeightingField_prepares ext s x y z lab :
  m_sigset s = false -> m_readout s <> [] ->
  fst (WeightingField ext s x y z lab) = snd (PrepareSignals ext s).
Proof.
  intros Hs Hr. unfold WeightingField.
  destruct (m_readout s) as [|r rs] eqn:E; [congruence|].
  rewrite Hs. cbv beta iota delta [negb].
  destruct (PrepareSignals ext s) as [ok s1].
  destruct ok; cbv beta iota delta [negb snd]; [|reflexivity].
  destruct (String.eqb lab ""); [reflexivity|].
  destruct (index_of lab (m_readout s1) 0); [|reflexivity].
  now destruct (Wfield ext s1 x y z _ false) as [[[wx wy] wz] v].
Qed.

(** ** The dirty flag (C5) *)

(** The wire, tube and plane mutators clear [m_cellset] whenever they
    accept the call. *)
Lemma AddWire_invalidates x y d v label len tension rho ntrap s :
  AddWire x y d v label len tension rho ntrap s <> s ->
  m_cellset (AddWire x y d v label len tension rho ntrap s) = false.
Proof. unfold AddWire. split_ifs; intro H; try reflexivity; now contradiction H. Qed.

Lemma AddTube_invalidates radius voltage nEdges label s :
  (radius <=? 0)%float = false -> (nEdges = 0 \/ 3 <= nEdges)%Z ->
  m_cellset (AddTube radius voltage nEdges label s) = false.
Proof.
  intros Hr Hn. unfold AddTube. rewrite Hr.
  destruct ((nEdges <? 3)%Z && negb (nEdges =? 0)%Z) eqn:E; [|reflexivity].
  apply andb_prop in E. destruct E as [E1 E2].
  apply Z.ltb_lt in E1. apply negb_true_iff, Z.eqb_neq in E2. lia.
Qed.

Lemma AddPlane_invalidates lo c v lab s :
  ynplan s lo && ynplan s (S lo) = false ->
  m_cellset (AddPlane lo c v lab s) = false.
Proof. intro H. unfold AddPlane. now rewrite H. Qed.

(** Switching a periodicity on clears [m_cellset]. *)
Lemma SetPeriodicityX_first_invalidates ext sp s :
  (sp <? Small ext)%float = false -> m_perx s = false ->
  m_cellset (SetPeriodicityX ext sp s) = false.
Proof.
  intros Hsp Hp. unfold SetPeriodicityX. rewrite Hsp.
  unfold UpdatePeriodicity. cbn. rewrite Hp, Hsp. cbn.
  split_ifs; reflexivity.
Qed.

(** C5 (the case that fails).  On a component that is already periodic in x,
    [SetPeriodicityX] with a valid new length stores the length and leaves
    [m_cellset] as it is: a cached solve stays marked valid. *)
Theorem SetPeriodicityX_keeps_cellset :
  forall ext sp s,
    (sp <? Small ext)%float = false ->
    m_perx s = true ->
    m_pery s = m_yPeriodic s ->
    m_cellset (SetPeriodicityX ext sp s) = m_cellset s
    /\ m_sx (SetPeriodicityX ext sp s) = sp.
Proof.
  intros ext sp s Hsp Hp Hy.
  unfold SetPeriodicityX. rewrite Hsp.
  unfold UpdatePeriodicity. cbn. rewrite Hp. cbn. rewrite Hy.
  destruct (m_yPeriodic s); cbn; split; reflexivity.
Qed.

(** The prepared strip cell of period 3 takes the period 2 and keeps its
    solve. *)
Lemma SetPeriodicityX_keeps_cellset_witness :
  let s := run Examples.ext_inert Examples.strip_cell in
  m_cellset (SetPeriodicityX Examples.ext_inert 2 s) = m_cellset s
  /\ m_sx (SetPeriodicityX Examples.ext_inert 2 s) = 2%float.
Proof.
  apply SetPeriodicityX_keeps_cellset; vm_compute; reflexivity.
Defined.

Example stale_solve :
  let s := run Examples.ext_inert Examples.strip_cell in
  m_cellset s = true /\ m_sx s = 3%float
  /\ m_cellset (SetPeriodicityX Examples.ext_inert 2 s) = true
  /\ m_sx (SetPeriodicityX Examples.ext_inert 2 s) = 2%float.
Proof. vm_compute. repeat split; reflexivity. Qed.

(** ** The tube fallback (C6) *)

(** C6 (the code's behaviour).  For a tube whose edge count is neither 0 nor
    in 3..8, [CellType] succeeds, resets the edge count to 0 and tags the
    cell D3, the polygon topology, while the same cell with a round tube is
    tagged D1 (D2 when periodic in phi). *)
Theorem CellType_fallback_tag :
  forall s,
    m_tube s = true -> m_ntube s <> 0%Z -> (m_ntube s < 3 \/ 8 < m_ntube s)%Z ->
    fst (CellType s) = true
    /\ m_ntube (snd (CellType s)) = 0%Z
    /\ m_cellType (snd (CellType s)) = D30
    /\ m_scellType (snd (CellType s)) = "D3 "%string
    /\ m_cellType (snd (CellType (set_m_ntube 0 s))) = (if m_pery s then D20 else D10).
Proof.
  intros s Ht Hn0 Hn.
  unfold CellType. cbn. rewrite Ht.
  apply Z.eqb_neq in Hn0. rewrite Hn0.
  assert (E : ((3 <=? m_ntube s) && (m_ntube s <=? 8))%Z = false).
  { apply andb_false_iff. destruct Hn; [left; apply Z.leb_gt | right; apply Z.leb_gt]; lia. }
  rewrite E. cbn. repeat split; try reflexivity.
  now destruct (m_pery s).
Qed.

Lemma CellType_fallback_tag_witness :
  fst (CellType Examples.tube9) = true
  /\ m_ntube (snd (CellType Examples.tube9)) = 0%Z
  /\ m_cellType (snd (CellType Examples.tube9)) = D30
  /\ m_scellType (snd (CellType Examples.tube9)) = "D3 "%string
  /\ m_cellType (snd (CellType (set_m_ntube 0 Examples.tube9)))
     = (if m_pery Examples.tube9 then D20 else D10).
Proof.
  apply CellType_fallback_tag; [reflexivity | discriminate | right; reflexivity].
Defined.

(** ** AddWire and GetWire (C7) *)

(** As long as the wire counter and the wire vector agree, the wire just
    added is read back unchanged, with charge 0. *)
Lemma GetWire_AddWire x y d v label len tension rho ntrap s :
  (0 <? d)%float = true -> (0 <? tension)%float = true -> (0 <? rho)%float = true ->
  (0 <? len)%float = true -> (0 < ntrap)%Z ->
  m_nWires s = Z.of_nat (List.length (m_w s)) ->
  (m_nWires s < UINT_MOD - 1)%Z ->
  GetWire (AddWire x y d v label len tension rho ntrap s) (m_nWires s)
  = Some (x, y, d, v, label, len, 0%float, ntrap).
Proof.
  intros Hd Ht Hr Hl Hn Hsync Hmax.
  assert (G : forall a, (0 <? a)%float = true -> (a <=? 0)%float = false).
  { intros a Ha. destruct (a <=? 0)%float eqn:E; [|reflexivity].
    rewrite FloatAxioms.leb_spec in E. rewrite FloatAxioms.ltb_spec in Ha.
    unfold SFleb in E. unfold SFltb in Ha.
    destruct (SFcompare (Prim2SF a) (Prim2SF 0)) as [[| |]|] eqn:E1;
      destruct (SFcompare (Prim2SF 0) (Prim2SF a)) as [[| |]|] eqn:E2;
      try discriminate.
    all: change (Prim2SF 0) with (S754_zero false) in *;
      destruct (Prim2SF a) as [[|]|[|]| |[|] m e]; cbn in E1, E2; discriminate. }
  unfold AddWire.
  rewrite (G _ Hd), (G _ Ht), (G _ Hr), (G _ Hl).
  destruct (ntrap <=? 0)%Z eqn:E; [apply Z.leb_le in E; lia|].
  unfold GetWire. cbn.
  assert (Hu : uincr (m_nWires s) = (m_nWires s + 1)%Z).
  { unfold uincr. apply Z.mod_small. unfold UINT_MOD in *. lia. }
  rewrite Hu.
  destruct (m_nWires s + 1 <=? m_nWires s)%Z eqn:E1; [apply Z.leb_le in E1; lia|].
  unfold w_at, zidx. cbn. rewrite Hsync, Nat2Z.id.
  rewrite app_nth2 by lia. now rewrite Nat.sub_diag.
Qed.

(** C7 (the case that fails).  After a cell check has removed a wire, the
    wire vector is longer than the wire count: the next wire is appended
    behind the removed one, and [GetWire] at the index of the new wire
    returns the removed wire; at the vector position of the new wire it
    reports an index out of range. *)
Theorem GetWire_after_pruning :
  forall ext,
    let s := run ext Examples.pruned_cell in
    let s' := AddWire 5 5 0.1 3000 "n" 80 50 19.3 2 s in
    m_nWires s = 1%Z /\ List.length (m_w s) = 2%nat
    /\ m_nWires s' = 2%Z /\ List.length (m_w s') = 3%nat
    /\ GetWire s' 1 = Some (0.5, 0, 1, 2000, "t"%string, 100, 0, 5%Z)%float
    /\ GetWire s' 2 = None.
Proof.
  intro ext. vm_compute. repeat split; reflexivity.
Qed.

(** ** The polynomial series loops (C8) *)

Lemma zrange_succ n : (0 <= n)%Z -> zrange (n + 1) = zrange n ++ [n].
Proof.
  intro Hn. unfold zrange.
  replace (Z.to_nat (n + 1)) with (S (Z.to_nat n)) by lia.
  rewrite seq_S, map_app. cbn. now rewrite Z2Nat.id.
Qed.

Lemma zrange_length n : List.length (zrange n) = Z.to_nat n.
Proof. unfold zrange. now rewrite length_map, length_seq. Qed.

(** A counting loop that starts at [j] with [k] rounds to go below the bound
    runs its body on [j, j+1, ..., j+k-1] and stops. *)
Lemma for_uint_count (A : Type) (cond : Z -> bool) (body : Z -> A -> A) :
  forall k fuel j acc,
    (k <= fuel)%nat -> (0 <= j)%Z -> (j + Z.of_nat k < UINT_MOD)%Z ->
    (forall i, (j <= i < j + Z.of_nat k)%Z -> cond i = true) ->
    cond (j + Z.of_nat k)%Z = false ->
    for_uint fuel cond body j acc
    = Some (fold_left (fun a i => body i a) (map (fun i => (j + Z.of_nat i)%Z) (seq 0 k)) acc).
Proof.
  induction k as [|k IH]; intros fuel j acc Hf Hj Hmax Hin Hout.
  - cbn in *. rewrite Z.add_0_r in Hout.
    destruct fuel; cbn; now rewrite Hout.
  - destruct fuel as [|fuel]; [lia|].
    cbn [for_uint]. rewrite Hin by lia.
    assert (Hu : uincr j = (j + 1)%Z).
    { unfold uincr. apply Z.mod_small. lia. }
    rewrite Hu, IH; try lia.
    + cbn [seq map fold_left]. rewrite Z.add_0_r. f_equal. f_equal.
      rewrite <- seq_shift, map_map. apply map_ext. intro i. lia.
    + intros i Hi. apply Hin. lia.
    + replace (j + 1 + Z.of_nat k)%Z with (j + Z.of_nat (S k))%Z by lia. exact Hout.
Qed.

Lemma for_uint_lt (A : Type) (body : Z -> A -> A) n acc :
  (0 <= n < UINT_MOD)%Z ->
  for_uint (loop_fuel n) (fun j => (j <? n)%Z) body 0 acc
  = Some (fold_left (fun a i => body i a) (zrange n) acc).
Proof.
  intro Hn. unfold loop_fuel, zrange.
  rewrite (for_uint_count A (fun j => (j <? n)%Z) body (Z.to_nat n)).
  - reflexivity.
  - lia.
  - lia.
  - lia.
  - intros i Hi. apply Z.ltb_lt. lia.
  - apply Z.ltb_ge. lia.
Qed.

Lemma for_uint_le (A : Type) (body : Z -> A -> A) n acc :
  (0 <= n < UINT_MOD - 1)%Z ->
  for_uint (loop_fuel n) (fun j => (j <=? n)%Z) body 0 acc
  = Some (fold_left (fun a i => body i a) (zrange (n + 1)) acc).
Proof.
  intro Hn. unfold loop_fuel, zrange.
  rewrite (for_uint_count A (fun j => (j <=? n)%Z) body (Z.to_nat (n + 1))).
  - reflexivity.
  - lia.
  - lia.
  - lia.
  - intros i Hi. apply Z.leb_le. lia.
  - apply Z.leb_gt. lia.
Qed.

Section Rounds.
Variable ext : Extern.

Lemma B2X_step s n x y z sm acc c :
  (0 <= n < UINT_MOD - 1)%Z -> m_nTermPoly s = n ->
  (let dy := (y - charge3d.y c)%float in
   let dz := (z - charge3d.z c)%float in
   let dym := (y + charge3d.y c - 2 * m_coplay s)%float in
   negb (far_zone dy dz (m_sx s))
   && (negb (m_ynplay s) || negb (far_zone dym dz (m_sx s)))) = true ->
  Field3dB2X_charge ext s x y z (Some (sm, acc)) c
  = Some (B2X_rounds s (zrange n ++ [n]) x y z (sm, acc) c).
Proof.
  intros Hn En Hz. cbv zeta in Hz. apply andb_prop in Hz. destruct Hz as [Z1 Z2].
  apply negb_true_iff in Z1.
  unfold Field3dB2X_charge, B2X_rounds. cbn [fst snd].
  destruct (_ && _ && _)%bool; [reflexivity|].
  cbv zeta. rewrite Z1. unfold Field3dB2X_poly. rewrite En.
  rewrite for_uint_le by exact Hn. rewrite zrange_succ by lia.
  destruct (m_ynplay s); [|reflexivity].
  cbn [negb orb] in Z2. apply negb_true_iff in Z2. rewrite Z2.
  rewrite for_uint_le by exact Hn. rewrite zrange_succ by lia. reflexivity.
Qed.

Lemma B2Y_step s n x y z sm acc c :
  (0 <= n < UINT_MOD - 1)%Z -> m_nTermPoly s = n ->
  (let dx := (x - charge3d.x c)%float in
   let dz := (z - charge3d.z c)%float in
   let dxm := (x + charge3d.x c - 2 * m_coplax s)%float in
   negb (far_zone dx dz (m_sy s))
   && (negb (m_ynplax s) || negb (far_zone dxm dz (m_sy s)))) = true ->
  Field3dB2Y_charge ext s x y z (Some (sm, acc)) c
  = Some (B2Y_rounds s (zrange n ++ [n]) x y z (sm, acc) c).
Proof.
  intros Hn En Hz. cbv zeta in Hz. apply andb_prop in Hz. destruct Hz as [Z1 Z2].
  apply negb_true_iff in Z1.
  unfold Field3dB2Y_charge, B2Y_rounds. cbn [fst snd].
  destruct (_ && _ && _)%bool; [reflexivity|].
  cbv zeta. rewrite Z1. unfold Field3dB2Y_poly. rewrite En.
  rewrite for_uint_le by exact Hn. rewrite zrange_succ by lia.
  destruct (m_ynplax s); [|reflexivity].
  cbn [negb orb] in Z2. apply negb_true_iff in Z2. rewrite Z2.
  rewrite for_uint_le by exact Hn. rewrite zrange_succ by lia. reflexivity.
Qed.

Lemma D10_step s n xx yy zz c sm acc ii :
  (0 <= n < UINT_MOD)%Z -> m_nTermPoly s = n ->
  negb (far_zone (D10_ypos ext xx yy - D10_y3d ext c ii)%float
                 (zz - charge3d.z c)%float (D10_ssx ext s)) = true ->
  Field3dD10_image ext s (D10_ssx ext s) (D10_cpl ext s) (D10_xpos ext xx yy)
                   (D10_ypos ext xx yy) zz c (Some (sm, acc)) ii
  = Some (D10_rounds ext s (zrange n) xx yy zz c (sm, acc) ii).
Proof.
  intros Hn En Z1. apply negb_true_iff in Z1.
  unfold Field3dD10_image, D10_rounds. cbn [fst snd].
  fold (D10_x3d ext c). fold (D10_y3d ext c ii). cbv zeta.
  destruct (_ && _ && _)%bool; [reflexivity|].
  rewrite Z1. unfold Field3dD10_poly. rewrite En.
  rewrite for_uint_lt by exact Hn. reflexivity.
Qed.

End Rounds.

(** C8.  For a term setting n = [m_nTermPoly] (an [unsigned int] below its
    maximum) and a point in the near zone of every charge, [Field3dB2X] and
    [Field3dB2Y] return the sums of their polynomial series, the direct one
    and the one of the mirror plane, over the rounds j = 0 .. n, while
    [Field3dD10] returns the sum of its series over j = 0 .. n-1: one round
    fewer, the last one. *)
Theorem poly_loop_rounds :
  forall ext s x y z,
    (0 <= m_nTermPoly s < UINT_MOD - 1)%Z ->
    let n := m_nTermPoly s in
    (B2X_near s x y z = true ->
     Field3dB2X ext s x y z = Some (Field3dB2X_rounds s (zrange n ++ [n]) x y z))
    /\ (B2Y_near s x y z = true ->
        Field3dB2Y ext s x y z = Some (Field3dB2Y_rounds s (zrange n ++ [n]) x y z))
    /\ (D10_near ext s x y z = true ->
        Field3dD10 ext s x y z = Some (Field3dD10_rounds ext s (zrange n) x y z))
    /\ List.length (zrange n ++ [n]) = S (List.length (zrange n)).
Proof.
  intros ext s x y z Hn n.
  split; [|split; [|split]].
  - unfold B2X_near, Field3dB2X, Field3dB2X_rounds. intro Hz.
    rewrite forallb_forall in Hz.
    assert (G : forall l r, (forall c, In c l -> In c (m_ch3d s)) ->
                fold_left (Field3dB2X_charge ext s x y z) l (Some r)
                = Some (fold_left (B2X_rounds s (zrange n ++ [n]) x y z) l r)).
    { induction l as [|c l IH]; intros r Hin; cbn [fold_left]; [reflexivity|].
      destruct r as [sm acc].
      rewrite (B2X_step ext s n x y z sm acc c Hn eq_refl)
        by (apply Hz, Hin; now left).
      apply IH. intros c' Hc'. apply Hin. now right. }
    rewrite G by (intros c Hc; exact Hc). reflexivity.
  - unfold B2Y_near, Field3dB2Y, Field3dB2Y_rounds. intro Hz.
    rewrite forallb_forall in Hz.
    assert (G : forall l r, (forall c, In c l -> In c (m_ch3d s)) ->
                fold_left (Field3dB2Y_charge ext s x y z) l (Some r)
                = Some (fold_left (B2Y_rounds s (zrange n ++ [n]) x y z) l r)).
    { induction l as [|c l IH]; intros r Hin; cbn [fold_left]; [reflexivity|].
      destruct r as [sm acc].
      rewrite (B2Y_step ext s n x y z sm acc c Hn eq_refl)
        by (apply Hz, Hin; now left).
      apply IH. intros c' Hc'. apply Hin. now right. }
    rewrite G by (intros c Hc; exact Hc). reflexivity.
  - unfold D10_near, Field3dD10, Field3dD10_rounds. intro Hz.
    rewrite forallb_forall in Hz.
    destruct (m_nWires s <? 1)%Z; [reflexivity|].
    fold (D10_ssx ext s). fold (D10_cpl ext s).
    fold (D10_xpos ext x y). fold (D10_ypos ext x y). cbv zeta.
    assert (G : forall l r, (forall c, In c l -> In c (m_ch3d s)) ->
                fold_left
                  (fun r c =>
                     fold_left (Field3dD10_image ext s (D10_ssx ext s) (D10_cpl ext s)
                                  (D10_xpos ext x y) (D10_ypos ext x y) z c)
                               [(-1)%Z; 0%Z; 1%Z] r) l (Some r)
                = Some (fold_left
                          (fun r c => fold_left (D10_rounds ext s (zrange n) x y z c)
                                                [(-1)%Z; 0%Z; 1%Z] r) l r)).
    { induction l as [|c l IH]; intros r Hin; cbn [fold_left]; [reflexivity|].
      specialize (Hz c (Hin c (or_introl eq_refl))).
      rewrite forallb_forall in Hz.
      destruct r as [sm acc].
      rewrite (D10_step ext s n x y z c sm acc (-1) ltac:(lia) eq_refl)
        by (apply Hz; cbn; tauto).
      destruct (D10_rounds ext s (zrange n) x y z c (sm, acc) (-1)) as [sm1 acc1].
      rewrite (D10_step ext s n x y z c sm1 acc1 0 ltac:(lia) eq_refl)
        by (apply Hz; cbn; tauto).
      destruct (D10_rounds ext s (zrange n) x y z c (sm1, acc1) 0) as [sm2 acc2].
      rewrite (D10_step ext s n x y z c sm2 acc2 1 ltac:(lia) eq_refl)
        by (apply Hz; cbn; tauto).
      apply IH. intros c' Hc'. apply Hin. now right. }
    rewrite G by (intros c Hc; exact Hc).
    now destruct (fold_left _ (m_ch3d s) (Sums0, EV0)) as [sm acc].
  - rewrite length_app. cbn. lia.
Qed.

(** The charged strip cell for the two-plate routines, and a tube with a
    wire and a charge for the tube routine, at the default of 100 terms. *)
Lemma poly_loop_rounds_witness :
  let s := run Examples.ext_inert Examples.strip_cell_charged in
  let t := AddCharge Examples.ext_linear 0.5 0.2 0 1
             (AddWire 0 0 0.1 1000 "s" 100 50 19.3 5 (AddTube 1 0 0 "t" construct)) in
  Field3dB2X Examples.ext_inert s 0.25 1 1
  = Some (Field3dB2X_rounds s (zrange 100 ++ [100%Z]) 0.25 1 1)
  /\ Field3dB2Y Examples.ext_inert s 0.25 1 1
     = Some (Field3dB2Y_rounds s (zrange 100 ++ [100%Z]) 0.25 1 1)
  /\ Field3dD10 Examples.ext_linear t 0.5 0.25 0
     = Some (Field3dD10_rounds Examples.ext_linear t (zrange 100) 0.5 0.25 0).
Proof.
  intros s t.
  assert (Hs : (0 <= m_nTermPoly s < UINT_MOD - 1)%Z) by (vm_compute; split; congruence).
  assert (Ht : (0 <= m_nTermPoly t < UINT_MOD - 1)%Z) by (vm_compute; split; congruence).
  destruct (poly_loop_rounds Examples.ext_inert s 0.25 1 1 Hs) as [A [B _]].
  destruct (poly_loop_rounds Examples.ext_linear t 0.5 0.25 0 Ht) as [_ [_ [C _]]].
  split; [apply A; vm_compute; reflexivity|].
  split; [apply B; vm_compute; reflexivity|].
  apply C. vm_compute. reflexivity.
Defined.

(** The last round is visible in the result: without it the two-plate
    routine would return another field. *)
Example poly_last_round_counts :
  let s := run Examples.ext_inert Examples.strip_cell_charged in
  (Ex (Field3dB2X_rounds s (zrange 100 ++ [100%Z]) 0.25 1 1)
   =? Ex (Field3dB2X_rounds s (zrange 100) 0.25 1 1))%float = false.
Proof. vm_compute. reflexivity. Qed.

(** ** The charge solve (C1, C4) *)

Lemma mapi_from_length {A B : Type} (f : nat -> A -> B) :
  forall l k, List.length (mapi_from k f l) = List.length l.
Proof. induction l as [|a l IH]; intro k; cbn; [reflexivity|now rewrite IH]. Qed.

Section ChargeStore.
Variable num : Type.
Variables zero one : num.
Variable W : Type.
Variable we : W -> num.
Variable set_we : num -> W -> W.
Hypothesis we_set : forall q w, we (set_we q w) = q.





End ChargeStore.


Module ExactFacts.
Import QArith.
Local Open Scope Q_scope.




End ExactFacts.




(** Without planes and tube a failed inversion is reported and no charge is
    stored. *)
Lemma Charge_unanchored_failure ext s :
  anchored s = false ->
  fst (fst (Deqinv ext (Z.of_nat (S (nW s))) (augment float 0%float 1%float (nW s) (m_a s))
                   (rhs_of s ++ [0%float]))) <> 0%Z ->
  fst (Charge ext s) = false /\ m_w (snd (Charge ext s)) = m_w s.
Proof.
  intros Ha Hf. unfold Charge, Charge_core. rewrite Ha. cbv beta iota delta [negb].
  fold (rhs_of s).
  destruct (Deqinv ext _ _ _) as [[ifail a] b]. cbn in Hf.
  apply Z.eqb_neq in Hf. rewrite Hf. cbn. split; reflexivity.
Qed.

(** C4 (the case that fails).  With a plane or the tube present, [Charge]
    never looks at the failure flag of the inversion routine: it returns
    true and stores whatever the routine left in the right-hand side as the
    wire charges. *)
Theorem Charge_anchored_unchecked :
  forall ext s,
    anchored s = true ->
    fst (Charge ext s) = true
    /\ m_w (snd (Charge ext s))
       = store_charges float 0%float wire.t wire.set_e (nW s)
           (snd (Deqinv ext (Z.of_nat (nW s)) (m_a s) (rhs_of s))) (m_w s).
Proof.
  intros ext s Ha. unfold Charge, Charge_core. rewrite Ha. cbv beta iota delta [negb].
  fold (rhs_of s).
  destruct (Deqinv ext _ _ _) as [[ifail a] b]. cbn. split; reflexivity.
Qed.

(** The kernel whose inversion always fails, on a tube with a wire. *)
Lemma Charge_anchored_unchecked_witness :
  let s := AddWire 0 0 0.01 1000 "s" 100 50 19.3 5 (AddTube 1 0 0 "t" construct) in
  fst (Charge Examples.ext_singular s) = true
  /\ m_w (snd (Charge Examples.ext_singular s))
     = store_charges float 0%float wire.t wire.set_e (nW s)
         (snd (Deqinv Examples.ext_singular (Z.of_nat (nW s)) (m_a s) (rhs_of s))) (m_w s).
Proof.
  apply Charge_anchored_unchecked. vm_compute. reflexivity.
Defined.

(** When [Prepare] fails, a field query reports the unsolvable cell. *)
Lemma ElectricField_unsolvable ext s x y z opt :
  m_cellset s = false -> fst (Prepare ext s) = false ->
  ElectricField ext s x y z opt = Some (snd (Prepare ext s), EV0, None, (-11)%Z).
Proof.
  intros Hc Hp. unfold ElectricField. rewrite Hc. cbv beta iota delta [negb].
  destruct (Prepare ext s) as [ok s1]. cbn in Hp. subst ok. reflexivity.
Qed.

(** With every inversion failing, the round tube with its wire is prepared
    all the same and a field query returns the status of a normal point. *)
Example failed_inversion_goes_unnoticed :
  let s := run Examples.ext_singular Examples.tube_cell in
  fst (fst (Deqinv Examples.ext_singular 1 [[0%float]] [1000%float])) = (-1)%Z
  /\ m_cellset s = true
  /\ option_map snd (ElectricField Examples.ext_singular s 0 0.5 0 true) = Some 0%Z.
Proof. vm_compute. repeat split; reflexivity. Qed.

(** ** The sentinels of Field (C3) *)

Lemma down_indices_S m : rev (seq 0 (S m)) = m :: rev (seq 0 m).
Proof. rewrite seq_S, rev_app_distr. reflexivity. Qed.

Lemma find_down_first (f : nat -> bool) :
  forall m k, find f (rev (seq 0 m)) = Some k ->
    (k < m)%nat /\ f k = true /\ forall j, (k < j < m)%nat -> f j = false.
Proof.
  induction m as [|m IH]; intros k H; [discriminate|].
  rewrite down_indices_S in H. cbn [find] in H.
  destruct (f m) eqn:E.
  - injection H as <-. repeat split; [lia | assumption | intros j Hj; lia].
  - destruct (IH k H) as [Hk [Hf Hlast]].
    repeat split; [lia | assumption |].
    intros j Hj. destruct (Nat.eq_dec j m) as [->|Hne]; [assumption|apply Hlast; lia].
Qed.

Lemma find_down_some (f : nat -> bool) :
  forall m i, (i < m)%nat -> f i = true ->
    exists k, find f (rev (seq 0 m)) = Some k /\ (i <= k)%nat.
Proof.
  induction m as [|m IH]; intros i Hi Hf; [lia|].
  rewrite down_indices_S. cbn [find].
  destruct (f m) eqn:E.
  - exists m. split; [reflexivity|lia].
  - destruct (Nat.eq_dec i m) as [->|Hne]; [congruence|].
    destruct (IH i ltac:(lia) Hf) as [k [Hk Hle]]. now exists k.
Qed.

(** The voltage [Field_behind] returns is that of the tube the point is
    outside of, or of a plane that is present. *)
Lemma Field_behind_conductor ext s xpos ypos v :
  Field_behind ext s xpos ypos = Some v ->
  (m_tube s = true /\ InTube ext xpos ypos (m_cotube s) (m_ntube s) = false
   /\ v = m_vttube s)
  \/ (m_tube s = false /\ exists k, (k < 4)%nat /\ ynplan s k = true /\ v = vtplan s k).
Proof.
  unfold Field_behind. intro H.
  destruct (m_tube s).
  - left. destruct (InTube ext _ _ _ _); cbn in H; [discriminate|].
    injection H as <-. repeat split.
  - right. split; [reflexivity|].
    destruct (ynplan s 0 && _) eqn:E0.
    { injection H as <-. apply andb_prop in E0. exists 0%nat. repeat split; [lia|tauto]. }
    destruct (ynplan s 1 && _) eqn:E1.
    { injection H as <-. apply andb_prop in E1. exists 1%nat. repeat split; [lia|tauto]. }
    destruct (ynplan s 2 && _) eqn:E2.
    { injection H as <-. apply andb_prop in E2. exists 2%nat. repeat split; [lia|tauto]. }
    destruct (ynplan s 3 && _) eqn:E3; [|discriminate].
    injection H as <-. apply andb_prop in E3. exists 3%nat. repeat split; [lia|tauto].
Qed.

(** C3 (as the code has it).  A point which, once folded, is behind a plane
    or outside the tube gets the status -4, the voltage of that conductor
    and no field, whether or not it is inside a wire.  Any other point that
    is strictly inside the radius of some wire in use gets the positive
    status of the highest-numbered wire containing it, the voltage of that
    wire and no field. *)
Theorem Field_sentinels :
  forall ext s x y z opt,
    let xpos := fst (fst (Field_fold ext s x y)) in
    let ypos := snd (fst (Field_fold ext s x y)) in
    (forall v, Field_behind ext s xpos ypos = Some v ->
               Field ext s x y z opt = Some ((-4)%Z, mkEV 0 0 0 v))
    /\ (Field_behind ext s xpos ypos = None ->
        forall i, (i < nW s)%nat -> in_wire s xpos ypos i = true ->
          exists k, (i <= k < nW s)%nat
                    /\ in_wire s xpos ypos k = true
                    /\ (forall j, (k < j < nW s)%nat -> in_wire s xpos ypos j = false)
                    /\ Field ext s x y z opt
                       = Some ((Z.of_nat k + 1)%Z, mkEV 0 0 0 (wire.v (w_at s k)))).
Proof.
  intros ext s x y z opt xpos ypos. subst xpos ypos.
  unfold Field.
  destruct (Field_fold ext s x y) as [[xpos ypos] arot]. cbn [fst snd].
  split.
  - intros v Hv. now rewrite Hv.
  - intros Hb i Hi Hin. rewrite Hb.
    destruct (find_down_some (in_wire s xpos ypos) (nW s) i Hi Hin) as [k [Hk Hle]].
    destruct (find_down_first _ _ _ Hk) as [Hlt [Hfk Hlast]].
    exists k. unfold Field_wire, down_indices. fold (nW s). rewrite Hk.
    repeat split; try assumption; lia.
Qed.

(** C3 (counterexample).  In the prepared tube cell the point (1.02, 0) is
    strictly inside the wire at (0.95, 0) of radius 0.1 and outside the tube
    of radius 1: [Field] returns the status -4 and the tube voltage 0, not
    the status 1 and the wire voltage 1000.  The tube is tested before the
    wires, so no routine of the kernel enters the result. *)
Lemma wire_sentinel_fails : ~ wire_sentinel Examples.ext_inert.
Proof.
  intro H.
  specialize (H Examples.tube_cell 1.02%float 0%float 0%float true 0%nat).
  cbv zeta in H.
  assert (E : Field Examples.ext_inert (run Examples.ext_inert Examples.tube_cell) 1.02 0 0 true
              = Some ((-4)%Z, mkEV 0 0 0 0)) by (vm_compute; reflexivity).
  rewrite E in H.
  assert (C : Some ((-4)%Z, mkEV 0 0 0 0)
              = Some ((Z.of_nat 0 + 1)%Z,
                      mkEV 0 0 0 (wire.v (w_at (run Examples.ext_inert Examples.tube_cell) 0)))).
  { apply H; vm_compute; [reflexivity | lia | reflexivity]. }
  discriminate C.
Qed.

(** ** Folding (C2) *)

(** On doubles a point and its copy one period away need not fold to the
    same position: with period 0.3 the copy of 0.1 folds back to a double
    just above 0.1. *)
Example fold_period_rounding :
  fold_period 0.1 0.3 = 0.1%float
  /\ fold_period (shift true 0.1 1 0.3) 0.3 = 0.10000000000000003%float
  /\ (fold_period 0.1 0.3 <? fold_period (shift true 0.1 1 0.3) 0.3)%float = true.
Proof. vm_compute. repeat split; reflexivity. Qed.

Lemma grid_check :
  forallb (fun a => forallb (fun b => forallb (fun n =>
     negb (exact_fold a b n) ||
     PrimFloat.Leibniz.eqb (fold_period (grid a + of_int n * grid b) (grid b))
                           (fold_period (grid a) (grid b)))
     grid_shifts) grid_periods) grid_points = true.
Proof. vm_compute. reflexivity. Qed.

Lemma in_range lo len (a : Z) :
  (lo <= a < lo + Z.of_nat len)%Z -> In a (map (fun k => Z.of_nat k + lo)%Z (seq 0 len)).
Proof.
  intro H. apply in_map_iff. exists (Z.to_nat (a - lo)). split; [lia|].
  apply in_seq. lia.
Qed.

(** On the grid the fold of a coordinate shifted by [n] periods is the
    fold of the coordinate. *)
Lemma fold_exact a b n :
  exact_fold a b n = true ->
  fold_period (grid a + of_int n * grid b) (grid b) = fold_period (grid a) (grid b).
Proof.
  intro H. pose proof grid_check as G.
  rewrite forallb_forall in G.
  assert (Ha : In a grid_points /\ In b grid_periods /\ In n grid_shifts).
  { unfold exact_fold in H.
    repeat (apply andb_prop in H; destruct H as [H ?]).
    repeat match goal with X : (_ <=? _)%Z = true |- _ => apply Z.leb_le in X end.
    repeat split.
    - apply (in_range (-128) 257). lia.
    - apply (in_range 1 32). lia.
    - apply (in_range (-4) 9). lia. }
  destruct Ha as [Ha [Hb Hn]].
  specialize (G a Ha). rewrite forallb_forall in G.
  specialize (G b Hb). rewrite forallb_forall in G.
  specialize (G n Hn). rewrite H in G. cbn [negb orb] in G.
  apply FloatAxioms.Leibniz.eqb_spec in G. exact G.
Qed.

Lemma eighths_grid c a : eighths c = Some a -> c = grid a.
Proof.
  unfold eighths. destruct (PrimFloat.Leibniz.eqb _ c) eqn:E; [|discriminate].
  intro H. injection H as <-. apply FloatAxioms.Leibniz.eqb_spec in E. symmetry. exact E.
Qed.

Lemma on_grid_fold c sp n :
  on_grid c sp n = true -> fold_period (c + of_int n * sp) sp = fold_period c sp.
Proof.
  unfold on_grid.
  destruct (eighths c) as [a|] eqn:Ea; [|discriminate].
  destruct (eighths sp) as [b|] eqn:Eb; [|discriminate].
  intro H. rewrite (eighths_grid _ _ Ea), (eighths_grid _ _ Eb). apply fold_exact. exact H.
Qed.

(** Without 3-D point charges [Field] looks at the query point only
    through its folded position. *)
Lemma Field_of_fold ext s x y x' y' z opt :
  m_ch3d s = [] ->
  Field_fold ext s x y = Field_fold ext s x' y' ->
  Field ext s x y z opt = Field ext s x' y' z opt.
Proof.
  intros Hc Hf. unfold Field. rewrite Hf, Hc. reflexivity.
Qed.

(** In a cell that is not a tube with angular periodicity, the shifted
    point folds like the point wherever the fold is exact. *)
Lemma Field_fold_shift ext s x y n m :
  m_pery s && m_tube s = false ->
  (m_perx s = true -> on_grid x (m_sx s) n = true) ->
  (m_pery s = true -> on_grid y (m_sy s) m = true) ->
  Field_fold ext s (shift (m_perx s) x n (m_sx s)) (shift (m_pery s) y m (m_sy s))
  = Field_fold ext s x y.
Proof.
  intros Ht Hx Hy. unfold Field_fold. rewrite Ht.
  assert (Fx : (if m_perx s then fold_period (shift (m_perx s) x n (m_sx s)) (m_sx s)
                else shift (m_perx s) x n (m_sx s))
               = (if m_perx s then fold_period x (m_sx s) else x)).
  { unfold shift. destruct (m_perx s); [|reflexivity].
    apply on_grid_fold. apply Hx. reflexivity. }
  assert (Fy : (if m_pery s then (fold_period (shift (m_pery s) y m (m_sy s)) (m_sy s))
                else shift (m_pery s) y m (m_sy s))
               = (if m_pery s then fold_period y (m_sy s) else y)).
  { unfold shift. destruct (m_pery s); [|reflexivity].
    apply on_grid_fold. apply Hy. reflexivity. }
  rewrite Fx. clear Fx.
  destruct (m_pery s); [rewrite Fy|rewrite Fy]; reflexivity.
Qed.

(** C2 (as the code has it).  In a cell without 3-D point charges, a query
    shifted by [n] periods along x and [m] periods along y (along the
    periodic axes) returns the status, the field and the potential of the
    unshifted query whenever the two points fold to the same position; and
    they do, in a cell that is not a tube with angular periodicity, for
    coordinates and periods on the grid of eighths, where the fold
    [c - S * int(round(c / S))] is computed without rounding. *)
Theorem Field_folding_invariance :
  forall ext s x y z opt n m,
    m_ch3d s = [] ->
    let x' := shift (m_perx s) x n (m_sx s) in
    let y' := shift (m_pery s) y m (m_sy s) in
    (Field_fold ext s x' y' = Field_fold ext s x y ->
     Field ext s x' y' z opt = Field ext s x y z opt)
    /\ (m_pery s && m_tube s = false ->
        (m_perx s = true -> on_grid x (m_sx s) n = true) ->
        (m_pery s = true -> on_grid y (m_sy s) m = true) ->
        Field ext s x' y' z opt = Field ext s x y z opt).
Proof.
  intros ext s x y z opt n m Hc x' y'. split.
  - apply Field_of_fold. exact Hc.
  - intros Ht Hx Hy. apply Field_of_fold; [exact Hc|].
    apply Field_fold_shift; assumption.
Qed.

(** The prepared strip cell of period 3: the point (0.5, 5) and its copies
    one period to the right and four periods to the left. *)
Lemma Field_folding_invariance_witness :
  let s := run Examples.ext_inert Examples.strip_cell in
  Field Examples.ext_inert s 3.5 5 4 true = Field Examples.ext_inert s 0.5 5 4 true
  /\ Field Examples.ext_inert s (-11.5) 5 4 true = Field Examples.ext_inert s 0.5 5 4 true.
Proof.
  intro s. split.
  - apply (Field_folding_invariance Examples.ext_inert s 0.5 5 4 true 1 0);
      vm_compute; reflexivity.
  - apply (Field_folding_invariance Examples.ext_inert s 0.5 5 4 true (-4) 0);
      vm_compute; reflexivity.
Defined.

(** C2 (counterexample).  Folding invariance fails in two ways.

    Rounding: in the prepared cell of period 0.3 with a wire of diameter 0.2
    at (0, 1), and no point charge, the point (0.1, 1) lies on the surface
    of the wire and gets the status 0, whereas its copy two periods to the
    right, (0.7, 1), folds to 0.09999999999999998 and gets the status 1 and
    the wire voltage.

    Point charges: in the prepared strip cell of period 3 with a point
    charge at (0.5, 2, 0), the queries at (0.5, 5, 4) and at (3.5, 5, 4)
    fold to the same point (0.5, 5), yet the z component of the field is
    about 1.83e10 at the first and 9.99e9 at the second: the point-charge
    term is evaluated at the unfolded point. *)
Lemma folding_invariant_fails :
  ~ folding_invariant Examples.ext_inert
  /\ (m_ch3d (run Examples.ext_inert Examples.edge_cell) = []
      /\ folding_violation Examples.ext_inert Examples.edge_cell 0.1 1 0 true 2 0)
  /\ (Field_fold Examples.ext_inert (run Examples.ext_inert Examples.strip_cell_charged) 3.5 5
      = Field_fold Examples.ext_inert (run Examples.ext_inert Examples.strip_cell_charged) 0.5 5
      /\ folding_violation Examples.ext_inert Examples.strip_cell_charged 0.5 5 4 true 1 0).
Proof.
  assert (R : folding_violation Examples.ext_inert Examples.edge_cell 0.1 1 0 true 2 0).
  { split; [vm_compute; reflexivity|].
    intro H. vm_compute in H. discriminate H. }
  assert (C : folding_violation Examples.ext_inert Examples.strip_cell_charged 0.5 5 4 true 1 0).
  { split; [vm_compute; reflexivity|].
    intro H. apply (f_equal (Ez_below 1.5e10)) in H. vm_compute in H. discriminate H. }
  split; [|split; [split; [vm_compute; reflexivity|exact R]
                  |split; [vm_compute; reflexivity|exact C]]].
  intro H. destruct R as [R1 R2]. apply R2. apply (H Examples.edge_cell). exact R1.
Qed.

(* ================================================================== *)
(** * Further properties *)
(* ================================================================== *)

(** ** What the cell preparation leaves alone *)

Section Kept.
Variable ext : Extern.

Lemma kept_CellCheck_planes lo sp s : kept (fst (CellCheck_planes lo sp s)) = kept s.
Proof. unfold CellCheck_planes. frame. Qed.

Lemma kept_CellCheck_order i s : kept (CellCheck_order i s) = kept s.
Proof. unfold CellCheck_order. frame. Qed.

Lemma kept_CellCheck_conflict i j s : kept (CellCheck_conflict i j s) = kept s.
Proof. unfold CellCheck_conflict. frame. Qed.

Lemma kept_planes_phase s : kept (CellCheck_planes_phase s) = kept s.
Proof.
  unfold CellCheck_planes_phase.
  rewrite !kept_CellCheck_order, !kept_CellCheck_conflict.
  assert (X : forall t, kept (if m_perx t
                              then let '(t', per) := CellCheck_planes 0 (m_sx t) t in
                                   set_m_perx per t'
                              else t) = kept t).
  { intro t. destruct (m_perx t); [|reflexivity].
    pose proof (kept_CellCheck_planes 0 (m_sx t) t) as H.
    destruct (CellCheck_planes 0 (m_sx t) t) as [t' per]. exact H. }
  assert (Y : forall t, kept (if m_pery t
                              then let '(t', per) := CellCheck_planes 2 (m_sy t) t in
                                   set_m_pery per t'
                              else t) = kept t).
  { intro t. destruct (m_pery t); [|reflexivity].
    pose proof (kept_CellCheck_planes 2 (m_sy t) t) as H.
    destruct (CellCheck_planes 2 (m_sy t) t) as [t' per]. exact H. }
  now rewrite Y, X.
Qed.

Lemma kept_wires_phase s : kept (CellCheck_wires_phase ext s) = kept s.
Proof. unfold CellCheck_wires_phase, map_wires. frame. Qed.

Lemma kept_CellCheck_keep lo a b s : kept (fst (fst (CellCheck_keep lo a b s))) = kept s.
Proof. unfold CellCheck_keep. frame. Qed.

Lemma kept_CellCheck_move a b s : kept (CellCheck_move a b s) = kept s.
Proof. reflexivity. Qed.

Lemma kept_numbering s : kept (CellCheck_numbering s) = kept s.
Proof.
  unfold CellCheck_numbering.
  pose proof (kept_CellCheck_keep 0
    (if ynplan s 0 then count_le wire.x (coplan s 0) s else 0%Z)
    (if ynplan s 1 then count_le wire.x (coplan s 1) s else 0%Z) s) as H1.
  destruct (CellCheck_keep 0 _ _ s) as [[s1 a1] b1]. cbn [fst] in H1.
  pose proof (kept_CellCheck_keep 2
    (if ynplan s 2 then count_le wire.y (coplan s 2) s else 0%Z)
    (if ynplan s 3 then count_le wire.y (coplan s 3) s else 0%Z) s1) as H2.
  destruct (CellCheck_keep 2 _ _ s1) as [[s2 a2] b2]. cbn [fst] in H2.
  split_ifs; rewrite ?kept_CellCheck_move; congruence.
Qed.

Lemma kept_prune s : kept (CellCheck_prune ext s) = kept s.
Proof.
  unfold CellCheck_prune, CellCheck_remove.
  rewrite (fold_left_keeps kept); [reflexivity|].
  intros; unfold CellCheck_remove_i; frame.
Qed.

Lemma kept_box s : kept (snd (CellCheck_box ext s)) = kept s.
Proof. unfold CellCheck_box. frame. Qed.

Lemma kept_CellCheck s : kept (snd (CellCheck ext s)) = kept s.
Proof.
  unfold CellCheck.
  now rewrite kept_box, kept_prune, kept_numbering, kept_wires_phase, kept_planes_phase.
Qed.

Lemma kept_CellType s : kept (snd (CellType s)) = kept s.
Proof. unfold CellType. frame. Qed.

Lemma kept_Charge s : kept (snd (Charge ext s)) = kept s.
Proof.
  unfold Charge.
  destruct (Charge_core _ _ _ _ _ _ _ _ _ _ _ _ _ _ _ _ _ _ _ _ _ _) as [ok [[a v0] ws]].
  reflexivity.
Qed.

Lemma kept_SetupCell s : kept (snd (SetupCell ext s)) = kept s.
Proof.
  unfold SetupCell. destruct (SetupFill ext s) as [a der].
  pose proof (kept_Charge (set_m_derived der (set_m_a a s))) as H.
  destruct (Charge ext _) as [ok s1]. cbn [snd] in H.
  destruct ok; cbn; exact H.
Qed.

Lemma kept_Setup s : kept (snd (Setup ext s)) = kept s.
Proof.
  unfold Setup.
  set (s1 := Setup_corrections (Setup_shorthand s)).
  assert (H1 : kept s1 = kept s)
    by (unfold s1, Setup_corrections, Setup_shorthand, set_corvt; frame).
  clearbody s1. cbv zeta.
  destruct (m_nWires s1 <=? 0)%Z; [exact H1|].
  destruct (existsb _ setup_types).
  - pose proof (kept_SetupCell (set_m_a (repeat (repeat 0%float (nW s1)) (nW s1)) s1)) as H2.
    destruct (SetupCell ext _) as [ok s2]. cbn [snd] in H2.
    cbn. rewrite <- H1. exact H2.
  - cbn. exact H1.
Qed.

Lemma kept_PrepareStrips_plane gapDef r i :
  kept (snd (PrepareStrips_plane gapDef r i)) = kept (snd r).
Proof.
  unfold PrepareStrips_plane. destruct r as [ok s].
  destruct ok; cbn; [|reflexivity].
  destruct (assign_gaps strip.gap strip.set_gap _ (plane.strips1 _)) as [ok1 l1].
  destruct ok1; cbn; [|reflexivity].
  destruct (assign_gaps strip.gap strip.set_gap _ _) as [ok2 l2].
  destruct ok2; cbn; [|reflexivity].
  destruct (assign_gaps pixel.gap pixel.set_gap _ _) as [ok3 l3].
  reflexivity.
Qed.

Lemma kept_PrepareStrips s : kept (snd (PrepareStrips s)) = kept s.
Proof.
  unfold PrepareStrips.
  match goal with
  | |- context [fold_left (PrepareStrips_plane ?g) _ _] =>
      assert (H : forall l1 r1, kept (snd (fold_left (PrepareStrips_plane g) l1 r1))
                                = kept (snd r1));
      [ intros l0; induction l0 as [|i l0 IH]; intro r0; cbn [fold_left]; [reflexivity|];
        now rewrite IH, kept_PrepareStrips_plane
      | now rewrite H ]
  end.
Qed.

(** [Prepare] changes [kept] only in [m_cellset], which it sets when it
    returns true. *)
Lemma kept_Prepare s :
  kept (snd (Prepare ext s))
  = kept (if fst (Prepare ext s) then set_m_cellset true s else s).
Proof.
  unfold Prepare.
  pose proof (kept_CellCheck s) as H1.
  destruct (CellCheck ext s) as [ok1 s1]; cbv beta iota delta [snd] in H1.
  destruct ok1; cbv beta iota delta [negb snd fst]; [|exact H1].
  pose proof (kept_CellType s1) as H2.
  destruct (CellType s1) as [ok2 s2]; cbv beta iota delta [snd] in H2.
  destruct ok2; cbv beta iota delta [negb snd fst]; [|congruence].
  pose proof (kept_Setup s2) as H3.
  destruct (Setup ext s2) as [ok3 s3]; cbv beta iota delta [snd] in H3.
  destruct ok3; cbv beta iota delta [negb snd fst]; [|congruence].
  pose proof (kept_PrepareStrips s3) as H4.
  destruct (PrepareStrips s3) as [ok4 s4]; cbv beta iota delta [snd] in H4.
  destruct ok4; cbv beta iota delta [negb snd fst]; [|congruence].
  assert (H : kept s4 = kept s) by congruence.
  unfold kept in *. cbn. congruence.
Qed.

End Kept.

Lemma kept_cellset s s' : kept s' = kept s -> m_cellset s' = m_cellset s.
Proof. unfold kept. intro E. now injection E. Qed.

Lemma kept_tube s s' : kept s' = kept s -> m_tube s' = m_tube s.
Proof. unfold kept. intro E. now injection E. Qed.

Lemma Prepare_sets_cellset ext s :
  fst (Prepare ext s) = true -> m_cellset (snd (Prepare ext s)) = true.
Proof.
  intro H. pose proof (kept_Prepare ext s) as K. rewrite H in K.
  now rewrite (kept_cellset _ _ K).
Qed.

(** X1.  [Prepare] sets [m_cellset] exactly when it returns true, and
    changes none of: the readout groups, [m_sigset], the coordinate system,
    the requested periodicities, the dipole flag, the presence, radius and
    voltage of the tube, the point charges and their series lengths. *)
Theorem Prepare_keeps :
  forall ext s,
    kept (snd (Prepare ext s))
    = kept (if fst (Prepare ext s) then set_m_cellset true s else s)
    /\ (fst (Prepare ext s) = true -> m_cellset (snd (Prepare ext s)) = true)
    /\ (fst (Prepare ext s) = false -> m_cellset (snd (Prepare ext s)) = m_cellset s).
Proof.
  intros ext s. pose proof (kept_Prepare ext s) as K.
  split; [exact K|]. split; [apply Prepare_sets_cellset|].
  intro H. rewrite H in K. exact (kept_cellset _ _ K).
Qed.

(** ** Field queries *)

Lemma Some_quad_inv {A B C D : Type} (a a' : A) (b b' : B) (c c' : C) (d d' : D) :
  Some (a, b, c, d) = Some (a', b', c', d') -> a = a' /\ b = b' /\ c = c' /\ d = d'.
Proof. intro H. injection H as -> -> -> ->. repeat split. Qed.

Lemma ElectricField_prepared ext s x y z opt :
  m_cellset s = true ->
  ElectricField ext s x y z opt
  = match Field ext s x y z opt with
    | None => None
    | Some (status, ev) =>
        if (status =? 0)%Z then
          match GetMedium ext x y z with
          | None => Some (s, ev, None, (-6)%Z)
          | Some driftable =>
              if driftable then Some (s, ev, Some driftable, 0%Z)
              else Some (s, ev, Some driftable, (-5)%Z)
          end
        else Some (s, ev, None, status)
    end.
Proof. intro H. unfold ElectricField. rewrite H. reflexivity. Qed.

(** The status [Field] returns is -4, -10, 0 or the number of a wire in
    use. *)
Lemma Field_status ext s x y z opt st ev :
  Field ext s x y z opt = Some (st, ev) ->
  (st = (-4)%Z /\ Ex ev = 0%float /\ Ey ev = 0%float /\ Ez ev = 0%float)
  \/ ((1 <= st <= m_nWires s)%Z /\ ev = mkEV 0 0 0 (wire.v (w_at s (Z.to_nat (st - 1)))))
  \/ (st = (-10)%Z /\ ev = EV0)
  \/ st = 0%Z.
Proof.
  unfold Field.
  destruct (Field_fold ext s x y) as [[xpos ypos] arot].
  destruct (Field_behind ext s xpos ypos) as [v|].
  { intro H. injection H as <- <-. left. repeat split. }
  destruct (Field_wire s xpos ypos) as [i|] eqn:Ew.
  { intro H. injection H as <- <-. right; left.
    unfold Field_wire, down_indices in Ew.
    apply find_some in Ew. destruct Ew as [Hin _].
    apply in_rev, in_seq in Hin.
    replace (Z.to_nat (Z.of_nat i + 1 - 1)) with i by lia.
    split; [lia|reflexivity]. }
  destruct (has_evaluator (m_cellType s)); cbn [negb].
  2:{ intro H. injection H as <- <-. right; right; left. split; reflexivity. }
  destruct (FieldWires ext s xpos ypos opt) as [[ex ey] volt].
  destruct (dipole s); destruct (m_pery s && m_tube s);
    try destruct (Cartesian2Polar ext _ _) as [xaux yaux];
    try destruct (Polar2Cartesian ext _ _) as [ex' ey'];
    destruct (m_ch3d s); try destruct (Field3d ext s x y z);
    intro H; try discriminate H; injection H as <- <-; right; right; right; reflexivity.
Qed.

(** X2.  Every result of [ElectricField] falls in one of seven classes:
    unsolvable cell (-11), unknown potential (-10), behind a plane or
    outside the tube (-4), inside a wire in use (its number, with the wire
    voltage), no medium (-6), medium not driftable (-5), or a regular point
    in a drift medium (0).  The first four come with no medium, and with no
    field at all. *)
Theorem ElectricField_status :
  forall ext s x y z opt s' ev m st,
    ElectricField ext s x y z opt = Some (s', ev, m, st) ->
    (st = (-11)%Z /\ ev = EV0 /\ m = None)
    \/ (st = (-10)%Z /\ ev = EV0 /\ m = None)
    \/ (st = (-4)%Z /\ Ex ev = 0%float /\ Ey ev = 0%float /\ Ez ev = 0%float /\ m = None)
    \/ ((1 <= st <= m_nWires s')%Z
        /\ ev = mkEV 0 0 0 (wire.v (w_at s' (Z.to_nat (st - 1)))) /\ m = None)
    \/ (st = (-6)%Z /\ m = None)
    \/ (st = (-5)%Z /\ m = Some false)
    \/ (st = 0%Z /\ m = Some true).
Proof.
  intros ext s x y z opt s' ev m st H.
  unfold ElectricField in H.
  destruct (if negb (m_cellset s) then Prepare ext s else (true, s)) as [ok s1].
  destruct ok; cbn [negb] in H.
  2:{ injection H as <- <- <- <-. left. repeat split. }
  destruct (Field ext s1 x y z opt) as [[st1 ev1]|] eqn:F; [|discriminate H].
  apply Field_status in F.
  destruct (st1 =? 0)%Z eqn:E0.
  - apply Z.eqb_eq in E0. subst st1.
    destruct (GetMedium ext x y z) as [[|]|]; injection H as <- <- <- <-.
    + do 6 right. split; reflexivity.
    + do 5 right. left. split; reflexivity.
    + do 4 right. left. split; reflexivity.
  - apply Z.eqb_neq in E0. injection H as <- <- <- <-.
    destruct F as [[-> F] | [[Hr ->] | [[-> ->] | ->]]].
    + right; right; left. tauto.
    + right; right; right; left. repeat split; lia.
    + right; left. repeat split.
    + contradiction.
Qed.


Lemma ElectricField_first ext s x y z opt :
  m_cellset s = false ->
  ElectricField ext s x y z opt
  = if fst (Prepare ext s)
    then ElectricField ext (snd (Prepare ext s)) x y z opt
    else Some (snd (Prepare ext s), EV0, None, (-11)%Z).
Proof.
  intro H.
  pose proof (Prepare_sets_cellset ext s) as Hc.
  unfold ElectricField at 1. rewrite H. cbv beta iota delta [negb].
  destruct (Prepare ext s) as [ok s1]. cbv beta iota delta [fst snd] in *.
  destruct ok; cbv beta iota delta [negb]; [|reflexivity].
  rewrite ElectricField_prepared by (apply Hc; reflexivity).
  reflexivity.
Qed.

(** A query on a prepared cell hands the object back as it is. *)
Lemma ElectricField_prepared_state ext s x y z opt r :
  m_cellset s = true ->
  ElectricField ext s x y z opt = Some r -> fst (fst (fst r)) = s.
Proof.
  intros Ec H. rewrite ElectricField_prepared in H by exact Ec.
  destruct (Field ext s x y z opt) as [[st1 ev1]|]; [|discriminate H].
  destruct (st1 =? 0)%Z; [destruct (GetMedium ext x y z) as [[|]|]|];
    now injection H as <-.
Qed.

(** The prepared strip cell at a regular point. *)
Lemma ElectricField_status_witness :
  exists s' ev,
    ElectricField Examples.ext_inert (run Examples.ext_inert Examples.strip_cell) 0.5 5 4 true
    = Some (s', ev, Some true, 0%Z).
Proof.
  destruct (ElectricField Examples.ext_inert (run Examples.ext_inert Examples.strip_cell)
              0.5 5 4 true) as [[[[s' ev] m] st]|] eqn:H.
  - exists s', ev.
    pose proof (ElectricField_status _ _ _ _ _ _ _ _ _ _ H) as C.
    vm_compute in H. injection H as _ _ Hm Hst. subst m st.
    reflexivity.
  - vm_compute in H. discriminate H.
Defined.

(** X3.  A field query that does not report an unsolvable cell leaves the
    cell prepared: the same query on the resulting object gives the same
    answer, and no later query changes the object again. *)
Theorem ElectricField_caches :
  forall ext s x y z opt s' ev m st,
    ElectricField ext s x y z opt = Some (s', ev, m, st) ->
    st <> (-11)%Z ->
    m_cellset s' = true
    /\ ElectricField ext s' x y z opt = Some (s', ev, m, st)
    /\ forall x' y' z' opt' r,
         ElectricField ext s' x' y' z' opt' = Some r -> fst (fst (fst r)) = s'.
Proof.
  intros ext s x y z opt s' ev m st H Hst.
  assert (P : m_cellset s' = true
              /\ ElectricField ext s' x y z opt = Some (s', ev, m, st)).
  { destruct (m_cellset s) eqn:Ec.
    - pose proof (ElectricField_prepared_state _ _ _ _ _ _ _ Ec H) as E.
      cbv beta iota delta [fst] in E. subst s'. split; assumption.
    - rewrite ElectricField_first in H by exact Ec.
      pose proof (Prepare_sets_cellset ext s) as Hc.
      destruct (fst (Prepare ext s)).
      + specialize (Hc eq_refl).
        pose proof (ElectricField_prepared_state _ _ _ _ _ _ _ Hc H) as E.
        cbv beta iota delta [fst] in E. rewrite <- E in *. split; assumption.
      + apply Some_quad_inv in H. destruct H as [_ [_ [_ E]]].
        symmetry in E. contradiction. }
  destruct P as [Hc Hq]. split; [exact Hc|]. split; [exact Hq|].
  intros x' y' z' opt' r Hr. exact (ElectricField_prepared_state _ _ _ _ _ _ _ Hc Hr).
Qed.

(** The strip cell before its first query. *)
Lemma ElectricField_caches_witness :
  let s := SetPeriodicityX Examples.ext_inert 3
             (AddPlaneY 0 0 "p" (AddWire 0 1 0.01 1000 "s" 100 50 19.3 5 construct)) in
  exists s' ev m st,
    ElectricField Examples.ext_inert s 0.5 5 4 true = Some (s', ev, m, st)
    /\ m_cellset s = false /\ m_cellset s' = true
    /\ ElectricField Examples.ext_inert s' 0.5 5 4 true = Some (s', ev, m, st).
Proof.
  intro s.
  destruct (ElectricField Examples.ext_inert s 0.5 5 4 true) as [[[[s' ev] m] st]|] eqn:H.
  - exists s', ev, m, st.
    assert (Hst : st <> (-11)%Z).
    { vm_compute in H. injection H as _ _ _ <-. discriminate. }
    destruct (ElectricField_caches _ _ _ _ _ _ _ _ _ _ H Hst) as [A [B _]].
    repeat split; assumption.
  - vm_compute in H. discriminate H.
Defined.

(** ** Classification *)

(** X4.  [CellType] recognises every cell: it always returns true, the name
    and the tag it stores belong together, and with a tube the cell is of a
    D type.  The branch "cell is not recognised" is never taken. *)
Theorem CellType_always_succeeds :
  forall s,
    fst (CellType s) = true
    /\ m_scellType (snd (CellType s)) = Cell_name (m_cellType (snd (CellType s)))
    /\ m_cellType (snd (CellType s)) <> Unknown
    /\ (m_tube s = true <->
        In (m_cellType (snd (CellType s))) [D10; D20; D30; D40]).
Proof.
  intro s. unfold CellType.
  destruct (m_tube s).
  - destruct (m_ntube s =? 0)%Z; [|destruct ((3 <=? m_ntube s) && (m_ntube s <=? 8))%Z];
      try destruct (m_pery s); cbn;
      (repeat split; try discriminate; try reflexivity; intros; tauto).
  - destruct (m_perx s), (m_pery s), (ynplan s 0), (ynplan s 1), (ynplan s 2), (ynplan s 3);
      cbn;
      (repeat split; try discriminate; try reflexivity;
       intros H; try discriminate H;
       repeat (destruct H as [H|H]; [discriminate H|]); contradiction H).
Qed.

(** ** Sizes: every indexed access stays in bounds *)

Lemma upd_length {A : Type} (v : A) : forall l i, List.length (upd i v l) = List.length l.
Proof.
  induction l as [|a l IH]; intros [|i]; cbn; try reflexivity. now rewrite IH.
Qed.

Lemma nth_upd_same {A : Type} (v d : A) :
  forall l i, (i < List.length l)%nat -> nth i (upd i v l) d = v.
Proof.
  induction l as [|a l IH]; intros [|i] H; cbn in *; try lia; [reflexivity|].
  apply IH. lia.
Qed.

Lemma nth_upd_other {A : Type} (v d : A) :
  forall l i j, i <> j -> nth j (upd i v l) d = nth j l d.
Proof.
  induction l as [|a l IH]; intros [|i] [|j] H; cbn; try reflexivity; try congruence.
  apply IH. congruence.
Qed.

Ltac frame_sizes :=
  intros;
  cbv beta delta [invalidate set_ynplan set_coplan set_vtplan set_planes_at set_corvt set_type];
  split_ifs; unfold sizes; cbn -[upd]; rewrite ?upd_length; reflexivity.

Section Sizes.
Variable ext : Extern.

Lemma sizes_CellCheck_planes lo sp s : sizes (fst (CellCheck_planes lo sp s)) = sizes s.
Proof. unfold CellCheck_planes. frame_sizes. Qed.

Lemma sizes_CellCheck_order i s : sizes (CellCheck_order i s) = sizes s.
Proof. unfold CellCheck_order. frame_sizes. Qed.

Lemma sizes_CellCheck_conflict i j s : sizes (CellCheck_conflict i j s) = sizes s.
Proof. unfold CellCheck_conflict. frame_sizes. Qed.

Lemma sizes_planes_phase s : sizes (CellCheck_planes_phase s) = sizes s.
Proof.
  unfold CellCheck_planes_phase.
  rewrite !sizes_CellCheck_order, !sizes_CellCheck_conflict.
  assert (X : forall t, sizes (if m_perx t
                               then let '(t', per) := CellCheck_planes 0 (m_sx t) t in
                                    set_m_perx per t'
                               else t) = sizes t).
  { intro t. destruct (m_perx t); [|reflexivity].
    pose proof (sizes_CellCheck_planes 0 (m_sx t) t) as H.
    destruct (CellCheck_planes 0 (m_sx t) t) as [t' per]. exact H. }
  assert (Y : forall t, sizes (if m_pery t
                               then let '(t', per) := CellCheck_planes 2 (m_sy t) t in
                                    set_m_pery per t'
                               else t) = sizes t).
  { intro t. destruct (m_pery t); [|reflexivity].
    pose proof (sizes_CellCheck_planes 2 (m_sy t) t) as H.
    destruct (CellCheck_planes 2 (m_sy t) t) as [t' per]. exact H. }
  now rewrite Y, X.
Qed.

Lemma sizes_CellCheck_keep lo a b s : sizes (fst (fst (CellCheck_keep lo a b s))) = sizes s.
Proof. unfold CellCheck_keep. frame_sizes. Qed.

Lemma sizes_CellCheck_move a b s : sizes (CellCheck_move a b s) = sizes s.
Proof. unfold CellCheck_move. frame_sizes. Qed.

Lemma sizes_numbering s : sizes (CellCheck_numbering s) = sizes s.
Proof.
  unfold CellCheck_numbering.
  pose proof (sizes_CellCheck_keep 0
    (if ynplan s 0 then count_le wire.x (coplan s 0) s else 0%Z)
    (if ynplan s 1 then count_le wire.x (coplan s 1) s else 0%Z) s) as H1.
  destruct (CellCheck_keep 0 _ _ s) as [[s1 a1] b1]. cbn [fst] in H1.
  pose proof (sizes_CellCheck_keep 2
    (if ynplan s 2 then count_le wire.y (coplan s 2) s else 0%Z)
    (if ynplan s 3 then count_le wire.y (coplan s 3) s else 0%Z) s1) as H2.
  destruct (CellCheck_keep 2 _ _ s1) as [[s2 a2] b2]. cbn [fst] in H2.
  split_ifs; rewrite ?sizes_CellCheck_move; congruence.
Qed.

Lemma sizes_box s : sizes (snd (CellCheck_box ext s)) = sizes s.
Proof. unfold CellCheck_box. frame_sizes. Qed.

Lemma sizes_CellType s : sizes (snd (CellType s)) = sizes s.
Proof. unfold CellType. frame_sizes. Qed.

Lemma sizes_PrepareStrips_plane gapDef r i :
  sizes (snd (PrepareStrips_plane gapDef r i)) = sizes (snd r).
Proof.
  unfold PrepareStrips_plane. destruct r as [ok s].
  destruct ok; cbn [negb snd]; [|reflexivity].
  destruct (assign_gaps strip.gap strip.set_gap _ (plane.strips1 _)) as [ok1 l1].
  destruct ok1; cbn [negb snd]; [|frame_sizes].
  destruct (assign_gaps strip.gap strip.set_gap _ _) as [ok2 l2].
  destruct ok2; cbn [negb snd]; [|frame_sizes].
  destruct (assign_gaps pixel.gap pixel.set_gap _ _) as [ok3 l3].
  frame_sizes.
Qed.

Lemma sizes_PrepareStrips s : sizes (snd (PrepareStrips s)) = sizes s.
Proof.
  unfold PrepareStrips.
  match goal with
  | |- context [fold_left (PrepareStrips_plane ?g) _ _] =>
      assert (H : forall l1 r1, sizes (snd (fold_left (PrepareStrips_plane g) l1 r1))
                                = sizes (snd r1));
      [ intros l0; induction l0 as [|i l0 IH]; intro r0; cbn [fold_left]; [reflexivity|];
        now rewrite IH, sizes_PrepareStrips_plane
      | now rewrite H ]
  end.
Qed.

End Sizes.

Lemma shaped_sizes s s' : sizes s' = sizes s -> shaped s -> shaped s'.
Proof.
  unfold sizes, shaped. intros E H.
  injection E as E1 E2 E3 E4 E5 E6. now rewrite E1, E2, E3, E4, E5, E6.
Qed.

Lemma sizes_nWires s s' : sizes s' = sizes s -> m_nWires s' = m_nWires s.
Proof. unfold sizes. intro E. now injection E. Qed.

Lemma sizes_ynplan_length s s' :
  sizes s' = sizes s -> List.length (m_ynplan s') = List.length (m_ynplan s).
Proof. unfold sizes. intro E. now injection E. Qed.

Lemma shaped_wires s s' :
  plane_sizes s' = plane_sizes s ->
  (0 <= m_nWires s' <= Z.of_nat (List.length (m_w s')))%Z ->
  shaped s -> shaped s'.
Proof.
  unfold plane_sizes, shaped. intros E Hw H.
  injection E as E1 E2 E3 E4. rewrite E1, E2, E3, E4. tauto.
Qed.

Lemma nth_mapi_from {A B : Type} (f : nat -> A -> B) (d : A) (d' : B) :
  forall l k i, (i < List.length l)%nat ->
    nth i (mapi_from k f l) d' = f (k + i)%nat (nth i l d).
Proof.
  induction l as [|a l IH]; intros k i H; cbn in H; [lia|].
  destruct i as [|i]; cbn.
  - now rewrite Nat.add_0_r.
  - rewrite IH by lia. f_equal. lia.
Qed.

Lemma uincr_bounds n : (0 <= n)%Z -> (0 <= uincr n <= n + 1)%Z.
Proof.
  intro H. unfold uincr, UINT_MOD.
  pose proof (Z.mod_pos_bound (n + 1) (2 ^ 32) ltac:(lia)).
  pose proof (Z.mod_le (n + 1) (2 ^ 32) ltac:(lia) ltac:(lia)). lia.
Qed.

Section Shape.
Variable ext : Extern.

Lemma map_wires_shape f s :
  plane_sizes (map_wires f s) = plane_sizes s
  /\ m_nWires (map_wires f s) = m_nWires s
  /\ List.length (m_w (map_wires f s)) = List.length (m_w s).
Proof.
  unfold map_wires, wires. cbn. repeat split.
  rewrite length_app, length_map, length_firstn, length_skipn. lia.
Qed.

Lemma wires_phase_shape s :
  plane_sizes (CellCheck_wires_phase ext s) = plane_sizes s
  /\ m_nWires (CellCheck_wires_phase ext s) = m_nWires s
  /\ List.length (m_w (CellCheck_wires_phase ext s)) = List.length (m_w s).
Proof.
  unfold CellCheck_wires_phase.
  set (s1 := if m_perx s then map_wires _ s else s).
  assert (H1 : plane_sizes s1 = plane_sizes s /\ m_nWires s1 = m_nWires s
               /\ List.length (m_w s1) = List.length (m_w s)).
  { unfold s1. destruct (m_perx s); [apply map_wires_shape|repeat split]. }
  clearbody s1. destruct H1 as [A [B C]].
  destruct (m_tube s1 && m_pery s1); [|destruct (m_pery s1)].
  - destruct (map_wires_shape (CellCheck_phi ext s1) s1) as [A' [B' C']].
    repeat split; congruence.
  - destruct (map_wires_shape
                (fun w => wire.set_y (fold_period (wire.y w) (m_sy s1)) w) s1)
      as [A' [B' C']].
    repeat split; congruence.
  - repeat split; assumption.
Qed.

Lemma remove_shape wrong :
  forall l s,
    (0 <= m_nWires s)%Z ->
    plane_sizes (fold_left (CellCheck_remove_i wrong) l s) = plane_sizes s
    /\ (0 <= m_nWires (fold_left (CellCheck_remove_i wrong) l s)
         <= m_nWires s + Z.of_nat (List.length l))%Z
    /\ List.length (m_w (fold_left (CellCheck_remove_i wrong) l s)) = List.length (m_w s).
Proof.
  induction l as [|i l IH]; intros s H; cbn [fold_left].
  - cbn. repeat split; lia.
  - set (t := CellCheck_remove_i wrong s i).
    assert (T : plane_sizes t = plane_sizes s
                /\ (0 <= m_nWires t <= m_nWires s + 1)%Z
                /\ List.length (m_w t) = List.length (m_w s)).
    { unfold t, CellCheck_remove_i. destruct (nth i wrong false).
      - repeat split; lia.
      - pose proof (uincr_bounds _ H) as U.
        repeat split; try (cbn; lia).
        unfold set_w_at. cbn -[upd]. apply upd_length. }
    clearbody t. destruct T as [T1 [T2 T3]].
    destruct (IH t ltac:(lia)) as [A [B C]].
    repeat split; try congruence; cbn [List.length]; lia.
Qed.

Lemma prune_shape s :
  shaped s -> shaped (CellCheck_prune ext s)
              /\ (m_nWires (CellCheck_prune ext s) <= m_nWires s)%Z.
Proof.
  intro H. unfold CellCheck_prune, CellCheck_remove.
  pose proof (remove_shape (CellCheck_spacing ext s (map (CellCheck_wrong ext s) (wires s)))
                (seq 0 (nW s)) (set_m_nWires 0 s) ltac:(cbn; lia)) as R.
  destruct R as [A [B C]].
  rewrite length_seq in B.
  change (m_nWires (set_m_nWires 0 s)) with 0%Z in B.
  change (m_w (set_m_nWires 0 s)) with (m_w s) in C.
  change (plane_sizes (set_m_nWires 0 s)) with (plane_sizes s) in A.
  destruct H as [H1 [H2 [H3 [H4 H5]]]].
  assert (N : Z.of_nat (nW s) = m_nWires s) by (unfold nW; lia).
  split; [|lia].
  eapply shaped_wires; [exact A | rewrite C; lia | repeat split; assumption || lia].
Qed.

Lemma CellCheck_shape s : shaped s -> shaped (snd (CellCheck ext s)).
Proof.
  intro H. unfold CellCheck.
  apply (shaped_sizes _ _ (sizes_box ext _)).
  apply prune_shape.
  apply (shaped_sizes _ _ (sizes_numbering _)).
  destruct (wires_phase_shape (CellCheck_planes_phase s)) as [A [B C]].
  pose proof (shaped_sizes _ _ (sizes_planes_phase s) H) as H'.
  eapply shaped_wires; [exact A | rewrite B, C; apply H' | exact H'].
Qed.

Lemma Charge_shape s :
  plane_sizes (snd (Charge ext s)) = plane_sizes s
  /\ m_nWires (snd (Charge ext s)) = m_nWires s
  /\ List.length (m_w (snd (Charge ext s))) = List.length (m_w s).
Proof.
  unfold Charge, Charge_core.
  destruct (negb (anchored s)).
  - destruct (Deqinv ext _ _ _) as [[ifail a] b].
    destruct (negb (ifail =? 0)%Z); [repeat split|].
    destruct (neb _ _); cbn; repeat split.
    unfold store_charges. apply mapi_from_length.
  - destruct (Deqinv ext _ _ _) as [[ifail a] b]. cbn. repeat split.
    unfold store_charges. apply mapi_from_length.
Qed.

Lemma Setup_shape s :
  plane_sizes (snd (Setup ext s)) = plane_sizes s
  /\ m_nWires (snd (Setup ext s)) = m_nWires s
  /\ List.length (m_w (snd (Setup ext s))) = List.length (m_w s).
Proof.
  unfold Setup.
  set (s1 := Setup_corrections (Setup_shorthand s)).
  assert (H1 : sizes s1 = sizes s)
    by (unfold s1, Setup_corrections, Setup_shorthand; frame_sizes).
  clearbody s1. cbv zeta.
  assert (G : plane_sizes s1 = plane_sizes s /\ m_nWires s1 = m_nWires s
              /\ List.length (m_w s1) = List.length (m_w s)).
  { unfold sizes in H1. injection H1 as E1 E2 E3 E4 E5 E6.
    unfold plane_sizes. now rewrite E1, E2, E3, E4, E5, E6. }
  clear H1. destruct G as [G1 [G2 G3]].
  destruct (m_nWires s1 <=? 0)%Z; [repeat split; assumption|].
  destruct (existsb _ setup_types); [|cbn; repeat split; assumption].
  unfold SetupCell.
  destruct (SetupFill ext _) as [a der].
  match goal with
  | |- context [Charge ext ?t] =>
      assert (D : plane_sizes t = plane_sizes s1 /\ m_nWires t = m_nWires s1
                  /\ List.length (m_w t) = List.length (m_w s1))
        by (repeat split; reflexivity);
      destruct (Charge_shape t) as [C1 [C2 C3]]; destruct (Charge ext t) as [ok s2]
  end.
  cbn [snd] in C1, C2, C3. destruct D as [D1 [D2 D3]].
  destruct ok; cbn [snd];
    (repeat split;
     [ transitivity (plane_sizes s2); [reflexivity|congruence]
     | transitivity (m_nWires s2); [reflexivity|congruence]
     | transitivity (List.length (m_w s2)); [reflexivity|congruence] ]).
Qed.

Lemma Prepare_shape s : shaped s -> shaped (snd (Prepare ext s)).
Proof.
  intro H. unfold Prepare.
  pose proof (CellCheck_shape s H) as H1.
  destruct (CellCheck ext s) as [ok1 s1]; cbv beta iota delta [snd] in H1.
  destruct ok1; cbv beta iota delta [negb snd]; [|exact H1].
  pose proof (shaped_sizes _ _ (sizes_CellType s1) H1) as H2.
  destruct (CellType s1) as [ok2 s2]; cbv beta iota delta [snd] in H2.
  destruct ok2; cbv beta iota delta [negb snd]; [|exact H2].
  destruct (Setup_shape s2) as [A [B C]].
  assert (H3 : shaped (snd (Setup ext s2))).
  { eapply shaped_wires; [exact A | rewrite B, C; apply H2 | exact H2]. }
  destruct (Setup ext s2) as [ok3 s3]; cbv beta iota delta [snd] in H3.
  destruct ok3; cbv beta iota delta [negb snd]; [|exact H3].
  pose proof (shaped_sizes _ _ (sizes_PrepareStrips s3) H3) as H4.
  destruct (PrepareStrips s3) as [ok4 s4]; cbv beta iota delta [snd] in H4.
  destruct ok4; cbv beta iota delta [negb snd]; [|exact H4].
  eapply shaped_sizes; [|exact H4]. reflexivity.
Qed.

(** The signal preparation changes no size and no count. *)
Lemma signal_steps_shape :
  (forall g s, shaped s -> shaped (set_m_signals g s))
  /\ (forall d s, shaped s -> shaped (set_m_derived d s))
  /\ (forall k c s, shaped s -> shaped (set_ewxcor k c s))
  /\ (forall k c s, shaped s -> shaped (set_ewycor k c s))
  /\ (forall s i label, shaped s -> shaped (associate s i label))
  /\ (forall b s, shaped s -> shaped (set_m_sigset b s)).
Proof.
  assert (G : forall t t',
             plane_sizes t' = plane_sizes t -> m_nWires t' = m_nWires t ->
             List.length (m_w t') = List.length (m_w t) -> shaped t -> shaped t').
  { intros t t' E1 E2 E3 H. apply (shaped_wires t t' E1); [|exact H].
    rewrite E2, E3. apply H. }
  split; [intros g s H; exact H|].
  split; [intros d s H; exact H|].
  split; [intros k c s; apply G; unfold plane_sizes, set_ewxcor, set_planes_at;
          cbn -[upd]; rewrite ?upd_length; reflexivity|].
  split; [intros k c s; apply G; unfold plane_sizes, set_ewycor, set_planes_at;
          cbn -[upd]; rewrite ?upd_length; reflexivity|].
  split; [intros s i label; apply G; unfold plane_sizes, associate;
          cbn; rewrite ?mapi_from_length; reflexivity|].
  intros b s H; exact H.
Qed.

Lemma signal_steps_count n :
  let P := fun s => shaped s /\ (m_nWires s < n)%Z in
  (forall g s, P s -> P (set_m_signals g s))
  /\ (forall d s, P s -> P (set_m_derived d s))
  /\ (forall k c s, P s -> P (set_ewxcor k c s))
  /\ (forall k c s, P s -> P (set_ewycor k c s))
  /\ (forall s i label, P s -> P (associate s i label))
  /\ (forall b s, P s -> P (set_m_sigset b s)).
Proof.
  destruct signal_steps_shape as [A1 [A2 [A3 [A4 [A5 A6]]]]].
  cbv zeta.
  split; [intros g s [H B]; split; [apply A1, H|exact B]|].
  split; [intros d s [H B]; split; [apply A2, H|exact B]|].
  split; [intros k c s [H B]; split; [apply A3, H|exact B]|].
  split; [intros k c s [H B]; split; [apply A4, H|exact B]|].
  split; [intros s i label [H B]; split; [apply A5, H|exact B]|].
  intros b s [H B]; split; [apply A6, H|exact B].
Qed.

Lemma call_shape s c : shaped s -> shaped (call ext s c).
Proof.
  intro H. destruct c; cbn [call].
  - unfold AddWire. split_ifs; try exact H.
    destruct H as [H1 [H2 [H3 [H4 H5]]]].
    apply (shaped_wires s); [reflexivity| |unfold shaped; tauto].
    cbn. rewrite length_app. cbn.
    pose proof (uincr_bounds (m_nWires s) ltac:(lia)). lia.
  - eapply shaped_sizes; [|exact H]. unfold AddTube. frame_sizes.
  - eapply shaped_sizes; [|exact H]. unfold AddPlaneX, AddPlane. frame_sizes.
  - eapply shaped_sizes; [|exact H]. unfold AddPlaneY, AddPlane. frame_sizes.
  - eapply shaped_sizes; [|exact H]. unfold AddStripOnPlaneX, AddStripOnPlane. frame_sizes.
  - eapply shaped_sizes; [|exact H]. unfold AddStripOnPlaneY, AddStripOnPlane. frame_sizes.
  - eapply shaped_sizes; [|exact H]. unfold AddPixelOnPlaneX, AddPixelOnPlane. frame_sizes.
  - eapply shaped_sizes; [|exact H]. unfold AddPixelOnPlaneY, AddPixelOnPlane. frame_sizes.
  - eapply shaped_sizes; [|exact H]. unfold SetPeriodicityX, UpdatePeriodicity. frame_sizes.
  - eapply shaped_sizes; [|exact H]. unfold SetPeriodicityY, UpdatePeriodicity. frame_sizes.
  - eapply shaped_sizes; [|exact H]. reflexivity.
  - eapply shaped_sizes; [|exact H]. reflexivity.
  - eapply shaped_sizes; [|exact H]. unfold AddReadout. frame_sizes.
  - destruct (m_cellset s); [exact H|apply Prepare_shape, H].
  - rewrite GetVoltageRange_state.
    destruct (m_cellset s); [exact H|apply Prepare_shape, H].
  - destruct signal_steps_shape as [A1 [A2 [A3 [A4 [A5 A6]]]]].
    apply inv_WeightingField; try assumption. intros t _. apply Prepare_shape.
  - destruct signal_steps_shape as [A1 [A2 [A3 [A4 [A5 A6]]]]].
    apply inv_WeightingPotential; try assumption. intros t _. apply Prepare_shape.
Qed.

End Shape.

Section Count.
Variable ext : Extern.

(** [Prepare] never adds a wire. *)
Lemma Prepare_count s :
  shaped s -> (m_nWires (snd (Prepare ext s)) <= m_nWires s)%Z.
Proof.
  intro H. unfold Prepare.
  assert (H1 : (m_nWires (snd (CellCheck ext s)) <= m_nWires s)%Z).
  { unfold CellCheck.
    rewrite (sizes_nWires _ _ (sizes_box ext _)).
    destruct (wires_phase_shape ext (CellCheck_planes_phase s)) as [A [B C]].
    pose proof (shaped_sizes _ _ (sizes_planes_phase s) H) as H'.
    assert (W : shaped (CellCheck_numbering (CellCheck_wires_phase ext (CellCheck_planes_phase s)))).
    { apply (shaped_sizes _ _ (sizes_numbering _)).
      eapply shaped_wires; [exact A | rewrite B, C; apply H' | exact H']. }
    destruct (prune_shape ext _ W) as [_ P].
    rewrite (sizes_nWires _ _ (sizes_numbering _)), B,
      (sizes_nWires _ _ (sizes_planes_phase s)) in P. exact P. }
  destruct (CellCheck ext s) as [ok1 s1]; cbv beta iota delta [snd] in H1.
  destruct ok1; cbv beta iota delta [negb snd]; [|exact H1].
  pose proof (sizes_nWires _ _ (sizes_CellType s1)) as H2.
  destruct (CellType s1) as [ok2 s2]; cbv beta iota delta [snd] in H2.
  destruct ok2; cbv beta iota delta [negb snd]; [|lia].
  destruct (Setup_shape ext s2) as [_ [H3 _]].
  destruct (Setup ext s2) as [ok3 s3]; cbv beta iota delta [snd] in H3.
  destruct ok3; cbv beta iota delta [negb snd]; [|lia].
  pose proof (sizes_nWires _ _ (sizes_PrepareStrips s3)) as H4.
  destruct (PrepareStrips s3) as [ok4 s4]; cbv beta iota delta [snd] in H4.
  destruct ok4; cbv beta iota delta [negb snd];
    try change (m_nWires (set_m_cellset true s4)) with (m_nWires s4); lia.
Qed.

Lemma call_count s c :
  shaped s -> (m_nWires s < UINT_MOD)%Z -> (m_nWires (call ext s c) < UINT_MOD)%Z.
Proof.
  intros H B. destruct c; cbn [call].
  - unfold AddWire. split_ifs; try exact B.
    cbn. unfold uincr, UINT_MOD.
    pose proof (Z.mod_pos_bound (m_nWires s + 1) (2 ^ 32) ltac:(lia)). lia.
  - erewrite sizes_nWires; [exact B|]. unfold AddTube. frame_sizes.
  - erewrite sizes_nWires; [exact B|]. unfold AddPlaneX, AddPlane. frame_sizes.
  - erewrite sizes_nWires; [exact B|]. unfold AddPlaneY, AddPlane. frame_sizes.
  - erewrite sizes_nWires; [exact B|]. unfold AddStripOnPlaneX, AddStripOnPlane. frame_sizes.
  - erewrite sizes_nWires; [exact B|]. unfold AddStripOnPlaneY, AddStripOnPlane. frame_sizes.
  - erewrite sizes_nWires; [exact B|]. unfold AddPixelOnPlaneX, AddPixelOnPlane. frame_sizes.
  - erewrite sizes_nWires; [exact B|]. unfold AddPixelOnPlaneY, AddPixelOnPlane. frame_sizes.
  - erewrite sizes_nWires; [exact B|]. unfold SetPeriodicityX, UpdatePeriodicity. frame_sizes.
  - erewrite sizes_nWires; [exact B|]. unfold SetPeriodicityY, UpdatePeriodicity. frame_sizes.
  - exact B.
  - exact B.
  - erewrite sizes_nWires; [exact B|]. unfold AddReadout. frame_sizes.
  - destruct (m_cellset s); [exact B|]. pose proof (Prepare_count s H). lia.
  - rewrite GetVoltageRange_state.
    destruct (m_cellset s); [exact B|]. pose proof (Prepare_count s H). lia.
  - destruct (signal_steps_count UINT_MOD) as [A1 [A2 [A3 [A4 [A5 A6]]]]].
    apply (inv_WeightingField ext (fun t => shaped t /\ (m_nWires t < UINT_MOD)%Z));
      try assumption; [|now split].
    intros t _ [Ht Bt]. split; [apply Prepare_shape, Ht|].
    pose proof (Prepare_count t Ht). lia.
  - destruct (signal_steps_count UINT_MOD) as [A1 [A2 [A3 [A4 [A5 A6]]]]].
    apply (inv_WeightingPotential ext (fun t => shaped t /\ (m_nWires t < UINT_MOD)%Z));
      try assumption; [|now split].
    intros t _ [Ht Bt]. split; [apply Prepare_shape, Ht|].
    pose proof (Prepare_count t Ht). lia.
Qed.

End Count.

(** X5.  On every object reached from the constructor by public calls, the
    plane vectors have their four slots, [planes] has its five records, and
    the wire count is at most the size of the wire vector and below 2^32:
    the accesses [m_w[i]] for i below [m_nWires], [m_coplan[0..3]] and
    [planes[0..4]] of every member function are in range. *)
Theorem reachable_shaped :
  forall ext calls,
    shaped (run ext calls) /\ (m_nWires (run ext calls) < UINT_MOD)%Z.
Proof.
  intros ext calls. unfold run.
  assert (G : forall l s, shaped s /\ (m_nWires s < UINT_MOD)%Z ->
                shaped (fold_left (call ext) l s)
                /\ (m_nWires (fold_left (call ext) l s) < UINT_MOD)%Z).
  { induction l as [|c l IH]; intros s [H B]; cbn [fold_left]; [now split|].
    apply IH. split; [apply call_shape, H|apply call_count; assumption]. }
  apply G. split; [unfold shaped; cbn; repeat split; lia|reflexivity].
Qed.

(** ** The readout groups and the signal preparation (C10) *)

(** Induction over the calls. *)
Lemma run_invariant ext (P : State -> Prop) :
  P construct -> (forall s c, P s -> P (call ext s c)) ->
  forall calls, P (run ext calls).
Proof.
  intros H0 Hc calls. unfold run.
  assert (G : forall l s, P s -> P (fold_left (call ext) l s)).
  { induction l as [|c l IH]; intros s H; cbn [fold_left]; [exact H|].
    apply IH, Hc, H. }
  apply G, H0.
Qed.

Section Rebuild.
Variable ext : Extern.

Lemma associate_counter l :
  forall r, fst (fold_left (fun (r : Z * State) (label : string) =>
                              ((fst r + 1)%Z, associate (snd r) (fst r) label)) l r)
            = (fst r + Z.of_nat (List.length l))%Z.
Proof.
  induction l as [|a l IH]; intro r; cbn [fold_left List.length]; [lia|].
  rewrite IH. cbn [fst]. lia.
Qed.

Lemma associate_all_last t old label :
  m_readout t = old ++ [label] ->
  exists t', associate_all t = associate t' (Z.of_nat (List.length old)) label
             /\ m_nWires t' = m_nWires t
             /\ List.length (m_w t') = List.length (m_w t).
Proof.
  intro E. unfold associate_all. rewrite E, fold_left_app. cbn [fold_left snd].
  rewrite associate_counter. cbn [fst].
  set (F := fun (r : Z * State) (label : string) =>
              ((fst r + 1)%Z, associate (snd r) (fst r) label)).
  exists (snd (fold_left F old (0%Z, t))). split; [reflexivity|].
  assert (G : forall l r,
             m_nWires (snd (fold_left F l r)) = m_nWires (snd r)
             /\ List.length (m_w (snd (fold_left F l r))) = List.length (m_w (snd r))).
  { induction l as [|a l IH]; intro r; cbn [fold_left]; [now split|].
    destruct (IH (F r a)) as [-> ->]. unfold F, associate. cbn.
    now rewrite mapi_from_length. }
  apply (G old (0%Z, t)).
Qed.

Lemma associate_wire t k label i :
  (i < nW t)%nat -> (i < List.length (m_w t))%nat ->
  wire.type (w_at (associate t k label) i) = label ->
  wire.ind (w_at (associate t k label) i) = k.
Proof.
  intros Hn Hl. unfold w_at, associate.
  change (m_w (set_planes _ (set_m_w ?ws t))) with ws.
  rewrite (nth_mapi_from _ wire.dflt wire.dflt) by exact Hl.
  cbn [Nat.add]. apply Nat.ltb_lt in Hn. rewrite Hn. cbn [andb].
  destruct (String.eqb (wire.type (nth i (m_w t) wire.dflt)) label) eqn:E.
  - reflexivity.
  - cbn. intro H. apply String.eqb_neq in E. contradiction.
Qed.

Lemma SetupPlaneSignals_true s : fst (SetupPlaneSignals s) = true.
Proof. reflexivity. Qed.

Lemma kept_sigset s s' : kept s' = kept s -> m_sigset s' = m_sigset s.
Proof. unfold kept. intro E. now injection E. Qed.

(** The flag follows the return value. *)
Lemma PrepareSignals_setup_flag s :
  m_sigset s = false ->
  m_sigset (snd (PrepareSignals_setup ext s)) = fst (PrepareSignals_setup ext s).
Proof.
  intro H. unfold PrepareSignals_setup.
  destruct (Fourier_type s) as [tf|]; [|exact H].
  pose proof (inv_SetupWireSignals ext (fun t => m_sigset t = false)
                ltac:(intros g t Ht; exact Ht) ltac:(intros d t Ht; exact Ht)
                (set_m_signals (Fourier_settings ext tf s) s) H) as H1.
  destruct (SetupWireSignals ext _) as [ok1 s1]; cbv beta iota delta [snd] in H1.
  destruct ok1; cbv beta iota delta [negb snd fst]; [|exact H1].
  pose proof (SetupPlaneSignals_true s1) as T.
  destruct (SetupPlaneSignals s1) as [ok2 s2]. cbv beta iota delta [fst] in T.
  subst ok2. reflexivity.
Qed.

Lemma PrepareSignals_flag s :
  m_sigset s = false ->
  m_sigset (snd (PrepareSignals ext s)) = fst (PrepareSignals ext s).
Proof.
  intro H. unfold PrepareSignals. destruct (m_readout s) as [|r rs]; [exact H|].
  destruct (m_cellset s); cbv beta iota delta [negb].
  - apply PrepareSignals_setup_flag, H.
  - pose proof (kept_Prepare ext s) as K.
    assert (H1 : m_sigset (snd (Prepare ext s)) = false).
    { rewrite (kept_sigset _ _ K). now destruct (fst (Prepare ext s)). }
    destruct (Prepare ext s) as [ok s1]; cbv beta iota delta [snd] in H1.
    destruct ok; cbv beta iota delta [negb snd fst]; [|exact H1].
    apply PrepareSignals_setup_flag, H1.
Qed.


(** The plane charges, the bias fields and the readout indices leave the
    signal matrix and the readout list alone. *)
Lemma SetupPlaneSignals_keeps s :
  m_sigmat (m_signals (snd (SetupPlaneSignals s))) = m_sigmat (m_signals s)
  /\ m_readout (snd (SetupPlaneSignals s)) = m_readout s.
Proof.
  unfold SetupPlaneSignals. cbn [snd].
  apply (inv_bias (fun t => m_sigmat (m_signals t) = m_sigmat (m_signals s)
                            /\ m_readout t = m_readout s)).
  - intros k c t H. exact H.
  - intros k c t H. exact H.
  - split; reflexivity.
Qed.

Lemma associate_all_keeps s :
  m_sigmat (m_signals (associate_all s)) = m_sigmat (m_signals s).
Proof.
  apply (inv_associate_all (fun t => m_sigmat (m_signals t) = m_sigmat (m_signals s))).
  - intros t i l H. exact H.
  - reflexivity.
Qed.

Lemma PrepareSignals_setup_spec s :
  (fst (PrepareSignals_setup ext s) = true <->
   exists tf, Fourier_type s = Some tf
              /\ fst (fst (SignalMatrix ext (set_m_signals (Fourier_settings ext tf s) s)))
                 = true)
  /\ (fst (PrepareSignals_setup ext s) = true ->
      (forall tf, Fourier_type s = Some tf ->
         m_sigmat (m_signals (snd (PrepareSignals_setup ext s)))
         = snd (fst (SignalMatrix ext (set_m_signals (Fourier_settings ext tf s) s))))
      /\ exists s3, snd (PrepareSignals_setup ext s) = set_m_sigset true (associate_all s3)
                    /\ m_readout s3 = m_readout s).
Proof.
  unfold PrepareSignals_setup.
  destruct (Fourier_type s) as [tf|].
  2:{ split; [split; [discriminate|intros [tf [E _]]; discriminate E]|discriminate]. }
  set (s0 := set_m_signals (Fourier_settings ext tf s) s).
  unfold SetupWireSignals.
  destruct (SignalMatrix ext s0) as [[ok m] b2] eqn:ES. cbn [fst snd].
  destruct ok; cbn [negb].
  2:{ split; [|discriminate].
      split; [discriminate|]. intros [tf' [E H]]. injection E as <-.
      fold s0 in H. rewrite ES in H. discriminate H. }
  set (s1 := set_m_sigmat m (set_m_derived (set_b2sin b2 (m_derived s0)) s0)).
  assert (R1 : m_readout s1 = m_readout s) by reflexivity.
  assert (M1 : m_sigmat (m_signals s1) = m) by reflexivity.
  clearbody s1.
  pose proof (SetupPlaneSignals_true s1) as T.
  destruct (SetupPlaneSignals_keeps s1) as [K1 K2].
  destruct (SetupPlaneSignals s1) as [ok2 s2]. cbn [fst snd] in T, K1, K2.
  subst ok2. cbn [negb fst snd].
  split.
  - split; [intros _; exists tf; split; [reflexivity|fold s0; now rewrite ES]|reflexivity].
  - intros _. split.
    + intros tf' E. injection E as <-. fold s0. rewrite ES. cbn [fst snd].
      rewrite <- M1, <- K1. apply (associate_all_keeps s2).
    + exists s2. split; [reflexivity|congruence].
Qed.

End Rebuild.

Lemma PrepareSignals_unfold ext s :
  m_readout s <> [] ->
  PrepareSignals ext s
  = if m_cellset s then PrepareSignals_setup ext s
    else if fst (Prepare ext s) then PrepareSignals_setup ext (snd (Prepare ext s))
         else (false, snd (Prepare ext s)).
Proof.
  intro H. unfold PrepareSignals. destruct (m_readout s) as [|r rs]; [congruence|].
  destruct (m_cellset s); cbv beta iota delta [negb]; [reflexivity|].
  destruct (Prepare ext s) as [ok s1]. now destruct ok.
Qed.

(** C10.  On every component reached by public calls the readout list has
    no duplicate label.  [AddReadout] with a label already in the list
    changes nothing; with a new label it appends that one label and clears
    [m_sigset].  The next weighting-field query then runs [PrepareSignals],
    which sets [m_sigset] again exactly when it succeeds; it succeeds
    exactly when the cell is or can be prepared, its type has a signal
    matrix and the kernel delivers that matrix; the matrix stored is the one
    the kernel computes for the cell as it is now, and the wires in use that
    carry the new label have the index of the new group. *)
Theorem AddReadout_no_duplicates :
  forall ext calls label x y z lab,
    let s := run ext calls in
    let s' := AddReadout label s in
    let r := PrepareSignals ext s' in
    let s1 := if m_cellset s' then s' else snd (Prepare ext s') in
    let sigs := fun tf => SignalMatrix ext (set_m_signals (Fourier_settings ext tf s1) s1) in
    NoDup (m_readout s)
    /\ NoDup (m_readout s')
    /\ (In label (m_readout s) -> s' = s)
    /\ (~ In label (m_readout s) ->
        m_readout s' = m_readout s ++ [label]
        /\ m_sigset s' = false
        /\ fst (WeightingField ext s' x y z lab) = snd r
        /\ fst (WeightingPotential ext s' x y z lab) = snd r
        /\ m_sigset (snd r) = fst r
        /\ (fst r = true <->
            m_cellset s1 = true
            /\ exists tf, Fourier_type s1 = Some tf /\ fst (fst (sigs tf)) = true)
        /\ (fst r = true ->
            (forall tf, Fourier_type s1 = Some tf ->
               m_sigmat (m_signals (snd r)) = snd (fst (sigs tf)))
            /\ forall i, (i < nW (snd r))%nat ->
                 wire.type (w_at (snd r) i) = label ->
                 wire.ind (w_at (snd r) i) = Z.of_nat (List.length (m_readout s)))).
Proof.
  intros ext calls label x y z lab s s' r s1 sigs.
  split; [apply readout_NoDup|].
  split; [apply AddReadout_NoDup, readout_NoDup|].
  split; [apply AddReadout_known|].
  intro Hnew.
  assert (R : m_readout s' = m_readout s ++ [label])
    by (unfold s'; now rewrite AddReadout_new).
  assert (F : m_sigset s' = false) by (unfold s'; now rewrite AddReadout_new).
  assert (N : m_readout s' <> []) by (rewrite R; now destruct (m_readout s)).
  split; [exact R|]. split; [exact F|].
  split; [rewrite WeightingField_state, F; now destruct (m_readout s')|].
  split; [rewrite WeightingPotential_state, F; now destruct (m_readout s')|].
  split; [apply PrepareSignals_flag, F|].
  (* the component stays well-formed *)
  assert (Hs : shaped s')
    by (apply (shaped_sizes s s'); [unfold s', AddReadout; frame_sizes|];
        apply run_invariant; [unfold shaped; cbn; repeat split; lia|apply call_shape]).
  assert (H1 : shaped s1 /\ m_readout s1 = m_readout s'
               /\ (m_cellset s' = false -> m_cellset s1 = fst (Prepare ext s'))).
  { unfold s1. destruct (m_cellset s') eqn:Ec;
      [split; [exact Hs|split; [reflexivity|discriminate]]|].
    split; [apply Prepare_shape, Hs|]. split; [apply readout_Prepare|].
    intros _. pose proof (kept_Prepare ext s') as K.
    rewrite (kept_cellset _ _ K). destruct (fst (Prepare ext s')); [reflexivity|exact Ec]. }
  destruct H1 as [Hs1 [R1 C1]].
  assert (U : r = if m_cellset s1 then PrepareSignals_setup ext s1 else (false, s1)).
  { unfold r. rewrite PrepareSignals_unfold by exact N. unfold s1 in *.
    destruct (m_cellset s') eqn:Ec; [now rewrite Ec|].
    rewrite (C1 eq_refl). reflexivity. }
  destruct (PrepareSignals_setup_spec ext s1) as [S1 S2].
  rewrite U. destruct (m_cellset s1).
  2:{ split; [split; [discriminate|intros [E _]; discriminate E]|discriminate]. }
  split; [rewrite S1; tauto|].
  intro Ok. destruct (S2 Ok) as [M [s3 [E3 R3]]].
  split; [exact M|].
  destruct (associate_all_last s3 (m_readout s) label ltac:(congruence)) as [t' [A [A1 A2]]].
  rewrite E3, A.
  assert (L : (nW t' <= List.length (m_w t'))%nat).
  { pose proof (inv_setup ext shaped) as I.
    destruct signal_steps_shape as [B1 [B2 [B3 [B4 [B5 B6]]]]].
    specialize (I B1 B2 B3 B4 B5 B6 s1 Hs1). rewrite E3, A in I.
    destruct I as [_ [_ [_ [_ I]]]]. revert I. unfold nW, associate. cbn.
    rewrite mapi_from_length. lia. }
  intros i Hi.
  assert (Hi' : (i < nW t')%nat) by exact Hi.
  change (w_at (set_m_sigset true (associate t' (Z.of_nat (List.length (m_readout s))) label)) i)
    with (w_at (associate t' (Z.of_nat (List.length (m_readout s))) label) i).
  apply associate_wire; [exact Hi'|lia].
Qed.

(** A cell whose signals are prepared: the flag is set before the call,
    cleared by it and set again by the next query. *)
Lemma AddReadout_no_duplicates_witness :
  let s := run Examples.ext_signals Examples.readout_cell in
  m_sigset s = true
  /\ m_sigset (AddReadout "t" s) = false
  /\ m_sigset (fst (WeightingField Examples.ext_signals (AddReadout "t" s) 0 0 0 "t")) = true.
Proof.
  intro s.
  assert (Hnew : ~ In "t"%string (m_readout s))
    by (vm_compute; intros [E|[]]; discriminate E).
  destruct (AddReadout_no_duplicates Examples.ext_signals Examples.readout_cell "t" 0 0 0 "t")
    as [_ [_ [_ H]]].
  destruct (H Hnew) as [_ [F [W [_ [G _]]]]].
  split; [vm_compute; reflexivity|]. split; [exact F|].
  fold s in W, G. rewrite W, G. vm_compute. reflexivity.
Defined.

(** ** Cells with too few conductors *)

Section Elements.
Variable ext : Extern.

Lemma ynplan_CellCheck_planes lo sp s :
  m_ynplan (fst (CellCheck_planes lo sp s)) = m_ynplan s.
Proof. unfold CellCheck_planes. frame. Qed.

Lemma nth_upd_false l j k :
  nth k (upd j false l) false = true -> nth k l false = true.
Proof.
  destruct (Nat.eq_dec j k) as [->|Hne].
  - destruct (Nat.lt_ge_cases k (List.length l)) as [Hlt|Hge].
    + rewrite nth_upd_same by exact Hlt. discriminate.
    + rewrite nth_overflow by (rewrite upd_length; exact Hge). discriminate.
  - now rewrite nth_upd_other by exact Hne.
Qed.

Lemma plane_count_mono s s' :
  (forall k, ynplan s' k = true -> ynplan s k = true) ->
  (plane_count s' <= plane_count s)%Z.
Proof.
  intro H. unfold plane_count.
  pose proof (H 0%nat); pose proof (H 1%nat); pose proof (H 2%nat); pose proof (H 3%nat).
  destruct (ynplan s' 0), (ynplan s' 1), (ynplan s' 2), (ynplan s' 3);
    destruct (ynplan s 0), (ynplan s 1), (ynplan s 2), (ynplan s 3);
    try lia; intuition discriminate.
Qed.

Lemma ynplan_conflict i j s k :
  ynplan (CellCheck_conflict i j s) k = true -> ynplan s k = true.
Proof.
  unfold CellCheck_conflict.
  destruct (ynplan s i && ynplan s j && neb (vtplan s i) (vtplan s j)); [|tauto].
  unfold ynplan, set_ynplan. cbn -[upd]. apply nth_upd_false.
Qed.

Lemma ynplan_order i s k :
  ynplan (CellCheck_order i s) k = true -> ynplan s k = true.
Proof.
  unfold CellCheck_order.
  destruct (ynplan s i && ynplan s (S i)); [|tauto].
  set (s1 := if (coplan s i =? coplan s (S i))%float then set_ynplan (S i) false s else s).
  assert (H1 : ynplan s1 k = true -> ynplan s k = true).
  { unfold s1. destruct (coplan s i =? coplan s (S i))%float; [|tauto].
    unfold ynplan, set_ynplan. cbn -[upd]. apply nth_upd_false. }
  clearbody s1. destruct (gtb (coplan s1 i) (coplan s1 (S i))); exact H1.
Qed.

(** The phases of the cell check before the wires are pruned never raise
    the number of planes, and leave the wire count and the tube alone. *)
Lemma planes_phase_elements s :
  (plane_count (CellCheck_planes_phase s) <= plane_count s)%Z.
Proof.
  unfold CellCheck_planes_phase.
  apply plane_count_mono. intros k H.
  apply ynplan_order, ynplan_order, ynplan_conflict, ynplan_conflict in H.
  revert H. unfold ynplan.
  assert (X : forall t, m_ynplan (if m_perx t
                                  then let '(t', per) := CellCheck_planes 0 (m_sx t) t in
                                       set_m_perx per t'
                                  else t) = m_ynplan t).
  { intro t. destruct (m_perx t); [|reflexivity].
    pose proof (ynplan_CellCheck_planes 0 (m_sx t) t) as E.
    destruct (CellCheck_planes 0 (m_sx t) t) as [t' per]. exact E. }
  assert (Y : forall t, m_ynplan (if m_pery t
                                  then let '(t', per) := CellCheck_planes 2 (m_sy t) t in
                                       set_m_pery per t'
                                  else t) = m_ynplan t).
  { intro t. destruct (m_pery t); [|reflexivity].
    pose proof (ynplan_CellCheck_planes 2 (m_sy t) t) as E.
    destruct (CellCheck_planes 2 (m_sy t) t) as [t' per]. exact E. }
  now rewrite Y, X.
Qed.

Lemma ynplan_wires_phase s : m_ynplan (CellCheck_wires_phase ext s) = m_ynplan s.
Proof. unfold CellCheck_wires_phase, map_wires. frame. Qed.

(** [CellCheck_keep] only ever removes a plane of its pair, and changes
    nothing when the pair has no plane. *)
Lemma keep_facts lo ipl iph s :
  (forall k, ynplan (fst (fst (CellCheck_keep lo ipl iph s))) k = true -> ynplan s k = true)
  /\ (ynplan s lo = false -> ynplan s (S lo) = false ->
      snd (fst (CellCheck_keep lo ipl iph s)) = ipl
      /\ snd (CellCheck_keep lo ipl iph s) = iph).
Proof.
  unfold CellCheck_keep.
  destruct (ynplan s lo) eqn:E0, (ynplan s (S lo)) eqn:E1; cbn [andb negb].
  - destruct (m_nWires s / 2 <? ipl)%Z.
    + set (s1 := set_ynplan (S lo) false s).
      assert (M1 : forall k, ynplan s1 k = true -> ynplan s k = true)
        by (intro k; unfold s1, ynplan, set_ynplan; cbn -[upd]; apply nth_upd_false).
      assert (N1 : m_nWires s1 = m_nWires s) by reflexivity.
      clearbody s1. rewrite <- N1.
      destruct (iph <? m_nWires s1 / 2)%Z.
      * set (s2 := set_ynplan lo false s1).
        assert (M2 : forall k, ynplan s2 k = true -> ynplan s1 k = true)
          by (intro k; unfold s2, ynplan, set_ynplan; cbn -[upd]; apply nth_upd_false).
        clearbody s2. cbn [fst snd]. split; [intros k H; apply M1, M2, H|discriminate].
      * cbn [fst snd]. split; [exact M1|discriminate].
    + destruct (iph <? m_nWires s / 2)%Z.
      * set (s2 := set_ynplan lo false s).
        assert (M2 : forall k, ynplan s2 k = true -> ynplan s k = true)
          by (intro k; unfold s2, ynplan, set_ynplan; cbn -[upd]; apply nth_upd_false).
        clearbody s2. cbn [fst snd]. split; [exact M2|discriminate].
      * cbn [fst snd]. split; [tauto|discriminate].
  - rewrite E0, E1. cbn [andb negb fst snd]. split; [tauto|discriminate].
  - rewrite E0, E1. cbn [andb negb fst snd]. split; [tauto|discriminate].
  - rewrite E0, E1. cbn [andb negb fst snd]. split; [tauto|]. intros _ _. split; reflexivity.
Qed.

Lemma ynplan_move from to s k :
  List.length (m_ynplan s) = 4%nat -> (to < 4)%nat -> from <> to ->
  ynplan (CellCheck_move from to s) k
  = if Nat.eqb k to then true else if Nat.eqb k from then false else ynplan s k.
Proof.
  intros L Ht Hne. unfold CellCheck_move, ynplan, set_ynplan, set_coplan, set_vtplan,
    set_planes_at. cbn -[upd].
  destruct (Nat.eqb k to) eqn:E1.
  - apply Nat.eqb_eq in E1. subst k. apply nth_upd_same. rewrite upd_length. lia.
  - apply Nat.eqb_neq in E1. rewrite nth_upd_other by congruence.
    destruct (Nat.eqb k from) eqn:E2.
    + apply Nat.eqb_eq in E2. subst k.
      destruct (Nat.lt_ge_cases from (List.length (m_ynplan s))) as [Hlt|Hge].
      * now apply nth_upd_same.
      * apply nth_overflow. now rewrite upd_length.
    + apply Nat.eqb_neq in E2. now rewrite nth_upd_other by congruence.
Qed.

Lemma move_length from to s :
  List.length (m_ynplan (CellCheck_move from to s)) = List.length (m_ynplan s).
Proof.
  unfold CellCheck_move, set_ynplan, set_coplan, set_vtplan, set_planes_at.
  cbn -[upd]. now rewrite !upd_length.
Qed.

Lemma numbering_elements s :
  List.length (m_ynplan s) = 4%nat ->
  (plane_count (CellCheck_numbering s) <= plane_count s)%Z.
Proof.
  intro L. unfold CellCheck_numbering.
  set (i1 := if ynplan s 0 then count_le wire.x (coplan s 0) s else 0%Z).
  set (i2 := if ynplan s 1 then count_le wire.x (coplan s 1) s else 0%Z).
  set (i3 := if ynplan s 2 then count_le wire.y (coplan s 2) s else 0%Z).
  set (i4 := if ynplan s 3 then count_le wire.y (coplan s 3) s else 0%Z).
  destruct (keep_facts 0 i1 i2 s) as [K1 K2].
  pose proof (sizes_CellCheck_keep 0 i1 i2 s) as Z1.
  destruct (CellCheck_keep 0 i1 i2 s) as [[s1 a1] b1]. cbn [fst snd] in K1, K2, Z1.
  destruct (keep_facts 2 i3 i4 s1) as [K3 K4].
  pose proof (sizes_CellCheck_keep 2 i3 i4 s1) as Z2.
  destruct (CellCheck_keep 2 i3 i4 s1) as [[s2 a2] b2]. cbn [fst snd] in K3, K4, Z2.
  assert (L2 : List.length (m_ynplan s2) = 4%nat).
  { unfold sizes in Z1, Z2. injection Z1 as E1 _ _ _ _ _. injection Z2 as E2 _ _ _ _ _.
    congruence. }
  clear Z1 Z2.
  assert (A : a1 = (-1)%Z \/ b1 = 1%Z -> ynplan s 0 = true \/ ynplan s 1 = true).
  { intro H. destruct (ynplan s 0) eqn:E0; [now left|].
    destruct (ynplan s 1) eqn:E1; [now right|].
    destruct (K2 eq_refl eq_refl) as [-> ->]. unfold i1, i2 in H.
    rewrite ?E0, ?E1 in H. destruct H; discriminate. }
  assert (B : a2 = (-1)%Z \/ b2 = 1%Z -> ynplan s 2 = true \/ ynplan s 3 = true).
  { intro H. destruct (ynplan s1 2) eqn:E0; [left; now apply K1|].
    destruct (ynplan s1 3) eqn:E1; [right; now apply K1|].
    destruct (K4 eq_refl eq_refl) as [-> ->]. unfold i3, i4 in H.
    destruct (ynplan s 2) eqn:F0; [now left|].
    destruct (ynplan s 3) eqn:F1; [now right|].
    destruct H; discriminate. }
  assert (M : forall k, ynplan s2 k = true -> ynplan s k = true)
    by (intros k H; apply K1, K3, H).
  clear K1 K2 K3 K4. clearbody i1 i2 i3 i4. clear i1 i2 i3 i4 s1.
  pose proof (M 0%nat) as M0. pose proof (M 1%nat) as M1.
  pose proof (M 2%nat) as M2. pose proof (M 3%nat) as M3. clear M.
  set (f := if (b2 =? 1)%Z then CellCheck_move 3 2 _ else _).
  assert (X : ((if ynplan f 0 then 1 else 0) + (if ynplan f 1 then 1 else 0)
               <= (if ynplan s 0 then 1 else 0) + (if ynplan s 1 then 1 else 0))%Z).
  { clear B M2 M3. unfold f.
    destruct (a1 =? -1)%Z eqn:T1; destruct (b1 =? 1)%Z eqn:T2;
      destruct (a2 =? -1)%Z eqn:T3; destruct (b2 =? 1)%Z eqn:T4;
      rewrite ?Z.eqb_eq in *;
      rewrite ?ynplan_move by (rewrite ?move_length; (exact L2 || lia || discriminate));
      cbn [Nat.eqb];
      try (assert (A' := A (or_introl T1)); clear A);
      try (assert (A' := A (or_intror T2)); clear A);
      destruct (ynplan s2 0), (ynplan s2 1);
      destruct (ynplan s 0), (ynplan s 1);
      try lia; intuition discriminate. }
  assert (Y : ((if ynplan f 2 then 1 else 0) + (if ynplan f 3 then 1 else 0)
               <= (if ynplan s 2 then 1 else 0) + (if ynplan s 3 then 1 else 0))%Z).
  { clear A M0 M1 X. unfold f.
    destruct (a1 =? -1)%Z eqn:T1; destruct (b1 =? 1)%Z eqn:T2;
      destruct (a2 =? -1)%Z eqn:T3; destruct (b2 =? 1)%Z eqn:T4;
      rewrite ?Z.eqb_eq in *;
      rewrite ?ynplan_move by (rewrite ?move_length; (exact L2 || lia || discriminate));
      cbn [Nat.eqb];
      try (assert (B' := B (or_introl T3)); clear B);
      try (assert (B' := B (or_intror T4)); clear B);
      destruct (ynplan s2 2), (ynplan s2 3);
      destruct (ynplan s 2), (ynplan s 3);
      try lia; intuition discriminate. }
  clearbody f. unfold plane_count. lia.
Qed.

Lemma ynplan_prune s : m_ynplan (CellCheck_prune ext s) = m_ynplan s.
Proof.
  unfold CellCheck_prune, CellCheck_remove.
  rewrite (fold_left_keeps m_ynplan); [reflexivity|].
  intros; unfold CellCheck_remove_i; frame.
Qed.

Lemma plane_count_ext s s' : m_ynplan s' = m_ynplan s -> plane_count s' = plane_count s.
Proof. intro E. unfold plane_count, ynplan. now rewrite E. Qed.

(** The cell check up to the pruning of the wires never adds a conductor. *)
Lemma CellCheck_elements s :
  shaped s ->
  (elements (CellCheck_prune ext
               (CellCheck_numbering (CellCheck_wires_phase ext (CellCheck_planes_phase s))))
   <= elements s)%Z.
Proof.
  intro H.
  set (s1 := CellCheck_planes_phase s).
  set (s2 := CellCheck_wires_phase ext s1).
  set (s3 := CellCheck_numbering s2).
  pose proof (shaped_sizes _ _ (sizes_planes_phase s) H) as H1. fold s1 in H1.
  destruct (wires_phase_shape ext s1) as [A2 [B2 C2]]. fold s2 in A2, B2, C2.
  assert (H2 : shaped s2)
    by (eapply shaped_wires; [exact A2 | rewrite B2, C2; apply H1 | exact H1]).
  pose proof (shaped_sizes _ _ (sizes_numbering s2) H2) as H3. fold s3 in H3.
  destruct (prune_shape ext s3 H3) as [_ N4].
  pose proof (planes_phase_elements s) as P1. fold s1 in P1.
  pose proof (plane_count_ext _ _ (ynplan_wires_phase s1)) as P2. fold s2 in P2.
  pose proof (numbering_elements s2 ltac:(apply H2)) as P3. fold s3 in P3.
  pose proof (plane_count_ext _ _ (ynplan_prune s3)) as P4.
  pose proof (sizes_nWires _ _ (sizes_planes_phase s)) as N1. fold s1 in N1.
  pose proof (sizes_nWires _ _ (sizes_numbering s2)) as N3. fold s3 in N3.
  pose proof (kept_tube _ _ (kept_planes_phase s)) as T1. fold s1 in T1.
  pose proof (kept_tube _ _ (kept_wires_phase ext s1)) as T2. fold s2 in T2.
  pose proof (kept_tube _ _ (kept_numbering s2)) as T3. fold s3 in T3.
  pose proof (kept_tube _ _ (kept_prune ext s3)) as T4.
  clearbody s1 s2 s3. unfold elements.
  rewrite T4, T3, T2, T1. lia.
Qed.

Lemma CellCheck_box_few s : (elements s < 2)%Z -> CellCheck_box ext s = (false, s).
Proof.
  intro H. unfold CellCheck_box.
  match goal with |- context [(?n <? 2)%Z] => assert (E : (n <? 2)%Z = true) end.
  { apply Z.ltb_lt. unfold elements, plane_count in H.
    destruct (ynplan s 0), (ynplan s 1), (ynplan s 2), (ynplan s 3), (m_tube s); lia. }
  now rewrite E.
Qed.

End Elements.

(** X6.  A component with fewer than two conductors (wires in use, planes
    and tube together) is rejected by the cell check, whatever the kernel:
    a field query on it reports an unsolvable cell, with no field and no
    medium, and leaves it unprepared. *)
Theorem too_few_elements :
  forall ext s x y z opt,
    shaped s -> m_cellset s = false -> (elements s < 2)%Z ->
    fst (CellCheck ext s) = false
    /\ ElectricField ext s x y z opt = Some (snd (Prepare ext s), EV0, None, (-11)%Z)
    /\ m_cellset (snd (Prepare ext s)) = false.
Proof.
  intros ext s x y z opt H Hc He.
  assert (C : fst (CellCheck ext s) = false).
  { unfold CellCheck. rewrite CellCheck_box_few; [reflexivity|].
    pose proof (CellCheck_elements ext s H). lia. }
  assert (P : fst (Prepare ext s) = false).
  { unfold Prepare. destruct (CellCheck ext s) as [ok s1]. cbn [fst] in C. now subst ok. }
  split; [exact C|]. split.
  - rewrite ElectricField_first by exact Hc. rewrite P. reflexivity.
  - pose proof (kept_Prepare ext s) as K. rewrite P in K.
    rewrite (kept_cellset _ _ K). exact Hc.
Qed.

(** A single wire and nothing else. *)
Lemma too_few_elements_witness :
  let s := AddWire 0 0 0.01 1000 "s" 100 50 19.3 5 construct in
  fst (CellCheck Examples.ext_inert s) = false
  /\ ElectricField Examples.ext_inert s 1 1 0 true
     = Some (snd (Prepare Examples.ext_inert s), EV0, None, (-11)%Z)
  /\ m_cellset (snd (Prepare Examples.ext_inert s)) = false.
Proof.
  apply too_few_elements.
  - unfold shaped. cbn. repeat split; lia.
  - reflexivity.
  - vm_compute. reflexivity.
Defined.

(** ** Round trips of the mutators and accessors *)

Lemma UpdatePeriodicity_request ext s :
  GetPeriodicityX (UpdatePeriodicity ext s) = GetPeriodicityX s
  /\ GetPeriodicityY (UpdatePeriodicity ext s) = GetPeriodicityY s.
Proof.
  assert (E : (m_xPeriodic (UpdatePeriodicity ext s), m_sx (UpdatePeriodicity ext s),
               m_yPeriodic (UpdatePeriodicity ext s), m_sy (UpdatePeriodicity ext s))
              = (m_xPeriodic s, m_sx s, m_yPeriodic s, m_sy s))
    by (unfold UpdatePeriodicity; frame).
  injection E as E1 E2 E3 E4.
  unfold GetPeriodicityX, GetPeriodicityY. now rewrite E1, E2, E3, E4.
Qed.

(** X7.  A period of at least [Small] (or a NaN) given to [SetPeriodicityX]
    is what [GetPeriodicityX] returns afterwards, whatever the cell and
    whether or not the periodicity comes into force; the y periodicity is
    not affected.  A period below [Small] is refused and changes nothing. *)
Theorem SetPeriodicityX_GetPeriodicityX :
  forall ext sp s,
    ((sp <? Small ext)%float = false ->
     GetPeriodicityX (SetPeriodicityX ext sp s) = (true, sp)
     /\ GetPeriodicityY (SetPeriodicityX ext sp s) = GetPeriodicityY s)
    /\ ((sp <? Small ext)%float = true -> SetPeriodicityX ext sp s = s).
Proof.
  intros ext sp s. unfold SetPeriodicityX. split; intro H; rewrite H; [|reflexivity].
  destruct (UpdatePeriodicity_request ext (set_m_sx sp (set_m_xPeriodic true s))) as [A B].
  rewrite A, B. split; reflexivity.
Qed.

(** X8.  The same for [SetPeriodicityY] and [GetPeriodicityY]. *)
Theorem SetPeriodicityY_GetPeriodicityY :
  forall ext sp s,
    ((sp <? Small ext)%float = false ->
     GetPeriodicityY (SetPeriodicityY ext sp s) = (true, sp)
     /\ GetPeriodicityX (SetPeriodicityY ext sp s) = GetPeriodicityX s)
    /\ ((sp <? Small ext)%float = true -> SetPeriodicityY ext sp s = s).
Proof.
  intros ext sp s. unfold SetPeriodicityY. split; intro H; rewrite H; [|reflexivity].
  destruct (UpdatePeriodicity_request ext (set_m_sy sp (set_m_yPeriodic true s))) as [A B].
  rewrite A, B. split; reflexivity.
Qed.

Lemma planes_at_set i p s k :
  planes_at (set_planes_at i p s) k = nth k (upd i p (planes s)) plane.dflt.
Proof. reflexivity. Qed.

(** The slots of the plane pair [lo], [lo+1] after [AddPlane]. *)
Lemma AddPlane_slots lo c v lab s :
  (S lo < 4)%nat -> shaped s ->
  (ynplan s lo = false ->
   let s' := AddPlane lo c v lab s in
   ynplan s' lo = true /\ coplan s' lo = c /\ vtplan s' lo = v
   /\ plane.type (planes_at s' lo) = lab
   /\ ynplan s' (S lo) = ynplan s (S lo) /\ coplan s' (S lo) = coplan s (S lo)
   /\ vtplan s' (S lo) = vtplan s (S lo) /\ planes_at s' (S lo) = planes_at s (S lo))
  /\ (ynplan s lo = true -> ynplan s (S lo) = false ->
      let s' := AddPlane lo c v lab s in
      ynplan s' (S lo) = true /\ coplan s' (S lo) = c /\ vtplan s' (S lo) = v
      /\ plane.type (planes_at s' (S lo)) = lab
      /\ ynplan s' lo = true /\ coplan s' lo = coplan s lo
      /\ vtplan s' lo = vtplan s lo /\ planes_at s' lo = planes_at s lo)
  /\ (ynplan s lo = true -> ynplan s (S lo) = true -> AddPlane lo c v lab s = s).
Proof.
  intros Hlo [L1 [L2 [L3 [L4 _]]]].
  unfold AddPlane. repeat split; intros;
    repeat match goal with H : ynplan s _ = _ |- _ => rewrite H end;
    cbn [andb]; try reflexivity;
    unfold ynplan, coplan, vtplan, planes_at, set_ynplan, set_coplan, set_vtplan,
      set_planes_at, invalidate; cbn -[upd];
    rewrite ?nth_upd_same by lia; rewrite ?nth_upd_other by lia; try reflexivity.
  - match goal with H : ynplan s _ = true |- _ => exact H end.
Qed.

Lemma GetPlaneX_0 s :
  GetPlaneX s 0 = Some (coplan s 0, vtplan s 0, plane.type (planes_at s 0)).
Proof. reflexivity. Qed.

Lemma GetPlaneX_1 s :
  GetPlaneX s 1
  = if ynplan s 1 then Some (coplan s 1, vtplan s 1, plane.type (planes_at s 1)) else None.
Proof. unfold GetPlaneX. cbn [Z.leb Z.eqb Z.compare Pos.compare Pos.compare_cont orb andb].
  now destruct (ynplan s 1). Qed.

Lemma GetPlaneY_0 s :
  GetPlaneY s 0 = Some (coplan s 2, vtplan s 2, plane.type (planes_at s 2)).
Proof. reflexivity. Qed.

Lemma GetPlaneY_1 s :
  GetPlaneY s 1
  = if ynplan s 3 then Some (coplan s 3, vtplan s 3, plane.type (planes_at s 3)) else None.
Proof. unfold GetPlaneY. cbn [Z.leb Z.eqb Z.compare Pos.compare Pos.compare_cont orb andb].
  now destruct (ynplan s 3). Qed.

(** X9.  [AddPlaneX] puts the plane in slot 0 when that slot is free and
    else in slot 1, where [GetPlaneX] finds it with the coordinate, voltage
    and label given, while the other slot keeps its plane; with both slots
    taken the call changes nothing. *)
Theorem AddPlaneX_GetPlaneX :
  forall x v lab s,
    shaped s ->
    (ynplan s 0 = false -> GetPlaneX (AddPlaneX x v lab s) 0 = Some (x, v, lab))
    /\ (ynplan s 0 = true -> ynplan s 1 = false ->
        GetPlaneX (AddPlaneX x v lab s) 1 = Some (x, v, lab)
        /\ GetPlaneX (AddPlaneX x v lab s) 0 = GetPlaneX s 0
        /\ GetNumberOfPlanesX (AddPlaneX x v lab s) = 2%Z)
    /\ (ynplan s 0 = true -> ynplan s 1 = true -> AddPlaneX x v lab s = s).
Proof.
  intros x v lab s H.
  destruct (AddPlane_slots 0 x v lab s ltac:(lia) H) as [A [B C]].
  unfold AddPlaneX. split; [|split].
  - intro E. destruct (A E) as [_ [A2 [A3 [A4 _]]]].
    rewrite GetPlaneX_0. now rewrite A2, A3, A4.
  - intros E0 E1. destruct (B E0 E1) as [B1 [B2 [B3 [B4 [B5 [B6 [B7 B8]]]]]]].
    rewrite GetPlaneX_1, !GetPlaneX_0. unfold GetNumberOfPlanesX.
    rewrite B1, B2, B3, B4, B5, B6, B7, B8. repeat split.
  - exact C.
Qed.

(** The first and the second x plane of a new component. *)
Lemma AddPlaneX_GetPlaneX_witness :
  let s := AddPlaneX 1 100 "a" construct in
  GetPlaneX s 0 = Some (1, 100, "a"%string)%float
  /\ GetPlaneX (AddPlaneX 2 200 "b" s) 1 = Some (2, 200, "b"%string)%float
  /\ GetPlaneX (AddPlaneX 2 200 "b" s) 0 = GetPlaneX s 0.
Proof.
  intro s.
  assert (H0 : shaped construct) by (unfold shaped; cbn; repeat split; lia).
  assert (H1 : shaped s) by (unfold shaped; cbn; repeat split; lia).
  destruct (AddPlaneX_GetPlaneX 1 100 "a" construct H0) as [A _].
  destruct (AddPlaneX_GetPlaneX 2 200 "b" s H1) as [_ [B _]].
  split; [exact (A eq_refl)|].
  destruct (B eq_refl eq_refl) as [B1 [B2 _]]. split; assumption.
Defined.

(** X10.  The same for [AddPlaneY] and [GetPlaneY], on the slots 2 and 3. *)
Theorem AddPlaneY_GetPlaneY :
  forall y v lab s,
    shaped s ->
    (ynplan s 2 = false -> GetPlaneY (AddPlaneY y v lab s) 0 = Some (y, v, lab))
    /\ (ynplan s 2 = true -> ynplan s 3 = false ->
        GetPlaneY (AddPlaneY y v lab s) 1 = Some (y, v, lab)
        /\ GetPlaneY (AddPlaneY y v lab s) 0 = GetPlaneY s 0
        /\ GetNumberOfPlanesY (AddPlaneY y v lab s) = 2%Z)
    /\ (ynplan s 2 = true -> ynplan s 3 = true -> AddPlaneY y v lab s = s).
Proof.
  intros y v lab s H.
  destruct (AddPlane_slots 2 y v lab s ltac:(lia) H) as [A [B C]].
  unfold AddPlaneY. split; [|split].
  - intro E. destruct (A E) as [_ [A2 [A3 [A4 _]]]].
    rewrite GetPlaneY_0. now rewrite A2, A3, A4.
  - intros E0 E1. destruct (B E0 E1) as [B1 [B2 [B3 [B4 [B5 [B6 [B7 B8]]]]]]].
    rewrite GetPlaneY_1, !GetPlaneY_0. unfold GetNumberOfPlanesY.
    rewrite B1, B2, B3, B4, B5, B6, B7, B8. repeat split.
  - exact C.
Qed.

Lemma AddPlaneY_GetPlaneY_witness :
  let s := AddPlaneY 1 100 "a" construct in
  GetPlaneY s 0 = Some (1, 100, "a"%string)%float
  /\ GetPlaneY (AddPlaneY 2 200 "b" s) 1 = Some (2, 200, "b"%string)%float
  /\ GetPlaneY (AddPlaneY 2 200 "b" s) 0 = GetPlaneY s 0.
Proof.
  intro s.
  assert (H0 : shaped construct) by (unfold shaped; cbn; repeat split; lia).
  assert (H1 : shaped s) by (unfold shaped; cbn; repeat split; lia).
  destruct (AddPlaneY_GetPlaneY 1 100 "a" construct H0) as [A _].
  destruct (AddPlaneY_GetPlaneY 2 200 "b" s H1) as [_ [B _]].
  split; [exact (A eq_refl)|].
  destruct (B eq_refl eq_refl) as [B1 [B2 _]]. split; assumption.
Defined.

(** X11.  [AddTube] with a positive radius (or a NaN) and an edge count of 0
    or at least 3 is read back by [GetTube] as given, replacing any tube set
    before, and marks the cell for a new solve; any other call changes
    nothing. *)
Theorem AddTube_GetTube :
  forall radius voltage nEdges label s,
    shaped s ->
    ((radius <=? 0)%float = false -> (nEdges = 0 \/ 3 <= nEdges)%Z ->
     GetTube (AddTube radius voltage nEdges label s)
     = Some (radius, voltage, nEdges, label)
     /\ m_cellset (AddTube radius voltage nEdges label s) = false)
    /\ ((radius <=? 0)%float = true \/ (nEdges < 3 /\ nEdges <> 0)%Z ->
        AddTube radius voltage nEdges label s = s).
Proof.
  intros radius voltage nEdges label s [_ [_ [_ [L4 _]]]].
  unfold AddTube. split.
  - intros Hr Hn. rewrite Hr.
    assert (E : ((nEdges <? 3) && negb (nEdges =? 0))%Z = false).
    { destruct (nEdges <? 3)%Z eqn:E1; [|reflexivity].
      destruct (nEdges =? 0)%Z eqn:E2; [reflexivity|].
      apply Z.ltb_lt in E1. apply Z.eqb_neq in E2. lia. }
    rewrite E. unfold GetTube, planes_at, set_planes_at, invalidate. cbn -[upd].
    rewrite nth_upd_same by lia. repeat split.
  - intros [Hr|[H1 H2]].
    + now rewrite Hr.
    + destruct (radius <=? 0)%float; [reflexivity|].
      apply Z.ltb_lt in H1. apply Z.eqb_neq in H2. now rewrite H1, H2.
Qed.

(** A hexagonal tube replaces a round one. *)
Lemma AddTube_GetTube_witness :
  GetTube (AddTube 2 50 6 "h" (AddTube 1 0 0 "t" construct))
  = Some (2, 50, 6%Z, "h"%string)%float
  /\ m_cellset (AddTube 2 50 6 "h" (AddTube 1 0 0 "t" construct)) = false.
Proof.
  apply AddTube_GetTube.
  - unfold shaped. cbn. repeat split; lia.
  - reflexivity.
  - right. lia.
Defined.

(** ** IsInTrapRadius *)

Lemma find_seq_first (f : nat -> bool) :
  forall n k i, find f (seq k n) = Some i ->
    (k <= i < k + n)%nat /\ f i = true /\ forall j, (k <= j < i)%nat -> f j = false.
Proof.
  induction n as [|n IH]; intros k i H; [discriminate|].
  cbn [seq find] in H. destruct (f k) eqn:E.
  - injection H as <-. repeat split; [lia | lia | assumption | intros j Hj; lia].
  - destruct (IH _ _ H) as [Hr [Hf Hfirst]].
    repeat split; [lia | lia | assumption |].
    intros j Hj. destruct (Nat.eq_dec j k) as [->|Hne]; [assumption|apply Hfirst; lia].
Qed.

Lemma find_seq_none (f : nat -> bool) :
  forall n k, find f (seq k n) = None -> forall j, (k <= j < k + n)%nat -> f j = false.
Proof.
  induction n as [|n IH]; intros k H j Hj; [lia|].
  cbn [seq find] in H. destruct (f k) eqn:E; [discriminate|].
  destruct (Nat.eq_dec j k) as [->|Hne]; [assumption|apply (IH _ H); lia].
Qed.

(** X12.  [IsInTrapRadius] answers with the first wire in use, in index
    order, whose charge does not have the sign of the particle's
    ([qin * e > 0] fails) and whose trap radius, [nTrap] wire radii,
    contains the folded point; the radius handed back is that wire's, and
    without periodicity so is the position.  When no such wire exists, in
    particular when every wire in use carries a charge of the particle's
    sign, it returns false. *)
Theorem IsInTrapRadius_first_wire :
  forall ext s qin xin yin zin,
    let x0 := fst (fst (fst (IsInTrapRadius_fold ext s xin yin))) in
    let y0 := snd (fst (fst (IsInTrapRadius_fold ext s xin yin))) in
    (forall r, IsInTrapRadius ext s qin xin yin zin = Some r ->
       exists i, (i < nW s)%nat
         /\ gtb (qin * wire.e (w_at s i)) 0 = false
         /\ traps s qin x0 y0 i = true
         /\ (forall j, (j < i)%nat -> traps s qin x0 y0 j = false)
         /\ snd r = (wire.d (w_at s i) * 0.5)%float
         /\ (m_perx s = false -> m_pery s = false ->
             r = (wire.x (w_at s i), wire.y (w_at s i), wire.d (w_at s i) * 0.5)%float))
    /\ (IsInTrapRadius ext s qin xin yin zin = None ->
        forall i, (i < nW s)%nat -> traps s qin x0 y0 i = false)
    /\ ((forall i, (i < nW s)%nat -> gtb (qin * wire.e (w_at s i)) 0 = true) ->
        IsInTrapRadius ext s qin xin yin zin = None).
Proof.
  intros ext s qin xin yin zin x0 y0. subst x0 y0.
  unfold IsInTrapRadius.
  destruct (IsInTrapRadius_fold ext s xin yin) as [[[x0 y0] nX] nPhi]. cbn [fst snd].
  split; [|split].
  - intros r H.
    destruct (find _ _) as [i|] eqn:F; [|discriminate H].
    injection H as <-.
    destruct (find_seq_first _ _ _ _ F) as [Hr [Hf Hfirst]].
    exists i. split; [lia|]. split.
    { unfold traps in Hf. destruct (gtb _ 0); [discriminate|reflexivity]. }
    split; [exact Hf|]. split; [intros j Hj; apply Hfirst; lia|].
    unfold trap_result. split.
    + destruct (m_pery s && m_tube s); [destruct (Cartesian2Polar _ _ _);
        destruct (Polar2Cartesian _ _ _)|]; reflexivity.
    + intros Hx Hy. now rewrite Hx, Hy.
  - intro H. destruct (find _ _) as [i|] eqn:F; [discriminate H|].
    intros i Hi. apply (find_seq_none _ _ _ F). lia.
  - intro H. destruct (find _ _) as [i|] eqn:F; [|reflexivity].
    destruct (find_seq_first _ _ _ _ F) as [Hr [Hf _]].
    unfold traps in Hf. rewrite (H i) in Hf by lia. discriminate Hf.
Qed.

(** X13.  [IsInTrapRadius] and [Field] fold a point into the basic cell in
    the same way: the position the first tests against the trap radii is the
    position the second tests against the conductors. *)
Theorem IsInTrapRadius_folds_as_Field :
  forall ext s xin yin,
    fst (fst (IsInTrapRadius_fold ext s xin yin)) = fst (Field_fold ext s xin yin).
Proof.
  intros ext s xin yin. unfold IsInTrapRadius_fold, Field_fold, fold_period.
  destruct (m_perx s), (m_pery s), (m_tube s); cbn [andb];
    try destruct (Cartesian2Polar ext xin yin) as [r t];
    try destruct (Polar2Cartesian ext _ _) as [a b];
    cbn [fst snd]; reflexivity.
Qed.

(** ** PrepareStrips *)

Lemma assign_gaps_ok {A : Type} (gap : A -> float) (set_gap : float -> A -> A) gd
    (Hset : forall g a, gap (set_gap g a) = g) :
  forall l l',
    assign_gaps gap set_gap gd l = (true, l') ->
    Forall (fun a => (gap a <? 0)%float = false) l' /\ List.length l' = List.length l.
Proof.
  induction l as [|a l IH]; intros l' H; cbn [assign_gaps] in H.
  - injection H as <-. split; [constructor|reflexivity].
  - set (a' := if (gap a <? 0)%float then set_gap gd a else a) in H.
    destruct (gap a' <? 0)%float eqn:E; [discriminate H|].
    destruct (assign_gaps gap set_gap gd l) as [ok t] eqn:R.
    injection H as -> <-. destruct (IH t eq_refl) as [F L].
    split; [constructor; assumption|cbn; now rewrite L].
Qed.

Lemma PrepareStrips_plane_failed gapDef s i :
  PrepareStrips_plane gapDef (false, s) i = (false, s).
Proof. reflexivity. Qed.

Lemma PrepareStrips_plane_ok gapDef s i s' :
  (i < List.length (planes s))%nat ->
  PrepareStrips_plane gapDef (true, s) i = (true, s') ->
  List.length (planes s') = List.length (planes s)
  /\ (forall k, k <> i -> planes_at s' k = planes_at s k)
  /\ gaps_set (planes_at s' i)
  /\ strip_counts (planes_at s' i) = strip_counts (planes_at s i).
Proof.
  intros Hi H. unfold PrepareStrips_plane in H. cbn [negb] in H.
  destruct (assign_gaps strip.gap strip.set_gap _ (plane.strips1 _)) as [ok1 l1] eqn:R1.
  destruct ok1; cbn [negb] in H.
  2:{ apply (f_equal fst) in H. discriminate H. }
  destruct (assign_gaps strip.gap strip.set_gap _ (plane.strips2 _)) as [ok2 l2] eqn:R2.
  destruct ok2; cbn [negb] in H.
  2:{ apply (f_equal fst) in H. discriminate H. }
  destruct (assign_gaps pixel.gap pixel.set_gap _ _) as [ok3 l3] eqn:R3.
  assert (ok3 = true) by (apply (f_equal fst) in H; exact H). subst ok3.
  apply (f_equal snd) in H. cbn [snd] in H. subst s'.
  apply assign_gaps_ok in R1; [|reflexivity].
  apply assign_gaps_ok in R2; [|reflexivity].
  apply assign_gaps_ok in R3; [|reflexivity].
  cbn [plane.strips2 plane.set_strips1 plane.pixels plane.set_strips2] in R2, R3.
  destruct R1 as [F1 L1], R2 as [F2 L2], R3 as [F3 L3].
  unfold planes_at, set_planes_at. cbn -[upd].
  split; [apply upd_length|]. split.
  - intros k Hk. apply nth_upd_other. congruence.
  - rewrite nth_upd_same by exact Hi. unfold gaps_set, strip_counts. cbn.
    repeat split; try assumption. now rewrite L1, L2, L3.
Qed.

(** X14.  When [PrepareStrips] returns true, no strip and no pixel of the
    four planes is left with a negative gap, each plane has the strips and
    pixels it had, and the record of the tube is untouched. *)
Theorem PrepareStrips_sets_gaps :
  forall s,
    shaped s -> fst (PrepareStrips s) = true ->
    (forall i, (i < 4)%nat ->
       gaps_set (planes_at (snd (PrepareStrips s)) i)
       /\ strip_counts (planes_at (snd (PrepareStrips s)) i) = strip_counts (planes_at s i))
    /\ planes_at (snd (PrepareStrips s)) 4 = planes_at s 4.
Proof.
  intros s [_ [_ [_ [L _]]]] H. unfold PrepareStrips in *.
  set (g := [_; _; _; _]) in *. clearbody g. cbn [fold_left seq] in *.
  destruct (PrepareStrips_plane g (true, s) 0) as [[|] s0] eqn:E0.
  2:{ rewrite !PrepareStrips_plane_failed in H. discriminate H. }
  destruct (PrepareStrips_plane g (true, s0) 1) as [[|] s1] eqn:E1.
  2:{ rewrite !PrepareStrips_plane_failed in H. discriminate H. }
  destruct (PrepareStrips_plane g (true, s1) 2) as [[|] s2] eqn:E2.
  2:{ rewrite !PrepareStrips_plane_failed in H. discriminate H. }
  destruct (PrepareStrips_plane g (true, s2) 3) as [[|] s3] eqn:E3; [|discriminate H].
  cbn [snd]. clear H.
  apply PrepareStrips_plane_ok in E0; [|lia]. destruct E0 as [L0 [O0 [G0 C0]]].
  apply PrepareStrips_plane_ok in E1; [|lia]. destruct E1 as [L1 [O1 [G1 C1]]].
  apply PrepareStrips_plane_ok in E2; [|lia]. destruct E2 as [L2 [O2 [G2 C2]]].
  apply PrepareStrips_plane_ok in E3; [|lia]. destruct E3 as [L3 [O3 [G3 C3]]].
  split.
  - intros i Hi.
    destruct i as [|[|[|[|i]]]]; [| | | |lia].
    + rewrite O3, O2, O1 by discriminate. split; assumption.
    + rewrite O3, O2 by discriminate. rewrite <- (O0 1%nat) by discriminate.
      split; assumption.
    + rewrite O3 by discriminate. rewrite <- (O0 2%nat), <- (O1 2%nat) by discriminate.
      split; assumption.
    + rewrite <- (O0 3%nat), <- (O1 3%nat), <- (O2 3%nat) by discriminate.
      split; assumption.
  - now rewrite O3, O2, O1, O0 by discriminate.
Qed.

(** A wire above a plane at y = 0 that carries a z strip without a gap. *)
Lemma PrepareStrips_sets_gaps_witness :
  let s := AddStripOnPlaneY Examples.ext_inert "z" 0 1 2 "st" 0
             (AddPlaneY 0 0 "p" (AddWire 0 1 0.01 1000 "s" 100 50 19.3 5 construct)) in
  (forall i, (i < 4)%nat ->
     gaps_set (planes_at (snd (PrepareStrips s)) i)
     /\ strip_counts (planes_at (snd (PrepareStrips s)) i) = strip_counts (planes_at s i))
  /\ planes_at (snd (PrepareStrips s)) 4 = planes_at s 4.
Proof.
  apply PrepareStrips_sets_gaps.
  - unfold shaped. cbn. repeat split; lia.
  - vm_compute. reflexivity.
Defined.

(** ** The charge solve and the geometry *)

Lemma store_charges_nth n b ws i :
  nth i (store_charges float 0%float wire.t wire.set_e n b ws) wire.dflt
  = if (i <? List.length ws)%nat && (i <? n)%nat
    then wire.set_e (nth i b 0%float) (nth i ws wire.dflt)
    else nth i ws wire.dflt.
Proof.
  unfold store_charges.
  destruct (i <? List.length ws)%nat eqn:E; cbn [andb].
  - apply Nat.ltb_lt in E. rewrite (nth_mapi_from _ wire.dflt) by exact E. reflexivity.
  - apply Nat.ltb_ge in E. rewrite !nth_overflow; [reflexivity|exact E|].
    now rewrite mapi_from_length.
Qed.

(** X15.  [Charge] changes nothing of a wire but its charge: positions,
    diameters, voltages, lengths, labels and trap radii stay, as do the
    wire count, the wires beyond the count and the size of the vector; when
    it returns false no wire is touched at all. *)
Theorem Charge_keeps_geometry :
  forall ext s,
    m_nWires (snd (Charge ext s)) = m_nWires s
    /\ List.length (m_w (snd (Charge ext s))) = List.length (m_w s)
    /\ (forall i, wire.set_e 0 (w_at (snd (Charge ext s)) i) = wire.set_e 0 (w_at s i))
    /\ (forall i, (nW s <= i)%nat -> w_at (snd (Charge ext s)) i = w_at s i)
    /\ (fst (Charge ext s) = false -> m_w (snd (Charge ext s)) = m_w s).
Proof.
  intros ext s.
  destruct (Charge_shape ext s) as [_ [N L]].
  split; [exact N|]. split; [exact L|].
  unfold Charge, Charge_core, w_at.
  destruct (negb (anchored s));
    destruct (Deqinv ext _ _ _) as [[ifail a] b];
    [destruct (negb (ifail =? 0)%Z); [|destruct (neb _ _)]|]; cbn [fst snd];
    change (m_w (set_m_w ?w _)) with w; repeat split; try reflexivity; try discriminate;
    intros i; rewrite ?store_charges_nth;
    try (destruct ((i <? List.length (m_w s))%nat && (i <? nW s)%nat) eqn:E;
         [|reflexivity]).
  all: try reflexivity.
  all: intro Hi; apply andb_prop in E; destruct E as [_ E]; apply Nat.ltb_lt in E; lia.
Qed.

(** ** Fields without point charges *)

(** X16.  Without 3-D point charges the field of a query has no z
    component, whatever the cell and the kernel. *)
Theorem Field_planar :
  forall ext s x y z opt st ev,
    m_ch3d s = [] -> Field ext s x y z opt = Some (st, ev) -> Ez ev = 0%float.
Proof.
  intros ext s x y z opt st ev Hc. unfold Field. rewrite Hc.
  destruct (Field_fold ext s x y) as [[xpos ypos] arot].
  destruct (Field_behind ext s xpos ypos) as [v|]; [intro H; now injection H as <- <-|].
  destruct (Field_wire s xpos ypos) as [i|]; [intro H; now injection H as <- <-|].
  destruct (has_evaluator (m_cellType s)); cbn [negb]; [|intro H; now injection H as <- <-].
  destruct (FieldWires ext s xpos ypos opt) as [[ex ey] volt].
  destruct (dipole s); destruct (m_pery s && m_tube s);
    try destruct (Cartesian2Polar ext _ _) as [xaux yaux];
    try destruct (Polar2Cartesian ext _ _) as [ex' ey'];
    intro H; now injection H as <- <-.
Qed.

(** The prepared strip cell, which has no point charge. *)
Lemma Field_planar_witness :
  exists st ev,
    Field Examples.ext_inert (run Examples.ext_inert Examples.strip_cell) 0.5 5 4 true
    = Some (st, ev) /\ Ez ev = 0%float.
Proof.
  destruct (Field Examples.ext_inert (run Examples.ext_inert Examples.strip_cell) 0.5 5 4 true)
    as [[st ev]|] eqn:H.
  - exists st, ev. split; [reflexivity|].
    assert (C : m_ch3d (run Examples.ext_inert Examples.strip_cell) = [])
      by (vm_compute; reflexivity).
    apply (Field_planar _ _ _ _ _ _ _ _ C H).
  - vm_compute in H. discriminate H.
Defined.

(** ** Strips, pixels and point charges *)

(** X17.  Adding a strip, a pixel or a point charge, and clearing the
    charges, touches neither the conductors nor the solve: [m_cellset] and
    [m_sigset] keep their values, so that a prepared cell stays prepared and
    the next field query runs no new [Prepare]. *)
Theorem decorations_keep_the_solve :
  forall ext s c,
    decorates c = true ->
    solved (call ext s c) = solved s
    /\ (m_cellset s = true ->
        forall x y z, call ext (call ext s c) (CallElectricField x y z) = call ext s c).
Proof.
  intros ext s c H.
  assert (E : solved (call ext s c) = solved s).
  { destruct c; try discriminate H; cbn [call].
    - unfold AddStripOnPlaneX, AddStripOnPlane; frame.
    - unfold AddStripOnPlaneY, AddStripOnPlane; frame.
    - unfold AddPixelOnPlaneX, AddPixelOnPlane; frame.
    - unfold AddPixelOnPlaneY, AddPixelOnPlane; frame.
    - reflexivity.
    - reflexivity. }
  split; [exact E|]. intros Hc x y z.
  set (s' := call ext s c) in *. clearbody s'.
  assert (Hc' : m_cellset s' = true).
  { unfold solved in E. injection E as E _. congruence. }
  cbn [call]. now rewrite Hc'.
Qed.

(** A z strip added to the prepared strip cell. *)
Lemma decorations_keep_the_solve_witness :
  let s := run Examples.ext_inert Examples.strip_cell in
  let c := CallAddStripOnPlaneY "z" 0 1 2 "st" 0 in
  solved (call Examples.ext_inert s c) = solved s
  /\ (m_cellset s = true ->
      forall x y z,
        call Examples.ext_inert (call Examples.ext_inert s c) (CallElectricField x y z)
        = call Examples.ext_inert s c).
Proof.
  apply decorations_keep_the_solve. reflexivity.
Defined.

(** ** IsWireCrossed *)

Lemma IsWireCrossed_loop_first s x0 y0 z0 x1 y1 z1 :
  forall idx c,
    IsWireCrossed_loop s x0 y0 z0 x1 y1 z1 idx = Some c ->
    exists pre i post,
      idx = pre ++ i :: post
      /\ IsWireCrossed_wire s x0 y0 z0 x1 y1 z1 i = Some c
      /\ forall j, In j pre -> IsWireCrossed_wire s x0 y0 z0 x1 y1 z1 j = None.
Proof.
  induction idx as [|i idx IH]; intros c H; cbn [IsWireCrossed_loop] in H; [discriminate|].
  destruct (IsWireCrossed_wire s x0 y0 z0 x1 y1 z1 i) as [c'|] eqn:E.
  - injection H as ->. exists [], i, idx. repeat split; [exact E|intros j []].
  - destruct (IH c H) as [pre [k [post [-> [Hk Hpre]]]]].
    exists (i :: pre), k, post. repeat split; [exact Hk|].
    intros j [<-|Hj]; [exact E|apply Hpre, Hj].
Qed.

(** X18.  When [IsWireCrossed] returns false the crossing point it hands
    back is the start of the segment; when it returns true the point is the
    one computed for the highest-numbered wire in use that the segment
    crosses. *)
Theorem IsWireCrossed_result :
  forall ext s x0 y0 z0 x1 y1 z1,
    (fst (IsWireCrossed ext s x0 y0 z0 x1 y1 z1) = false ->
     snd (IsWireCrossed ext s x0 y0 z0 x1 y1 z1) = (x0, y0, z0))
    /\ (fst (IsWireCrossed ext s x0 y0 z0 x1 y1 z1) = true ->
        exists i, (i < nW s)%nat
          /\ IsWireCrossed_wire s x0 y0 z0 x1 y1 z1 i
             = Some (snd (IsWireCrossed ext s x0 y0 z0 x1 y1 z1))
          /\ forall j, (i < j < nW s)%nat ->
               IsWireCrossed_wire s x0 y0 z0 x1 y1 z1 j = None).
Proof.
  intros ext s x0 y0 z0 x1 y1 z1. unfold IsWireCrossed.
  destruct (m_w s) as [|w ws]; [split; [reflexivity|discriminate]|].
  destruct (_ <? Small ext)%float; [split; [reflexivity|discriminate]|].
  destruct (_ || _); [split; [reflexivity|discriminate]|].
  destruct (IsWireCrossed_loop s x0 y0 z0 x1 y1 z1 (down_indices (m_nWires s)))
    as [c|] eqn:E; cbn [fst snd]; (split; [try reflexivity; try discriminate|try discriminate]).
  intros _. destruct (IsWireCrossed_loop_first _ _ _ _ _ _ _ _ _ E) as [pre [i [post [D [Hi Hpre]]]]].
  unfold down_indices in D. fold (nW s) in D.
  assert (In i (rev (seq 0 (nW s)))) by (rewrite D; apply in_elt).
  apply in_rev, in_seq in H.
  exists i. split; [lia|]. split; [exact Hi|].
  intros j Hj. apply Hpre.
  (* the indices before [i] in the descending enumeration are those above it *)
  assert (R : seq 0 (nW s) = rev post ++ i :: rev pre).
  { rewrite <- (rev_involutive (seq 0 (nW s))), D, rev_app_distr. cbn.
    now rewrite <- app_assoc. }
  assert (Lp : List.length (rev post) = i).
  { assert (N : nth (List.length (rev post)) (seq 0 (nW s)) 0%nat = i)
      by (rewrite R, nth_middle; reflexivity).
    rewrite seq_nth in N; [exact N|].
    rewrite <- (length_seq (nW s) 0), R, length_app. cbn. lia. }
  assert (Ij : In j (seq 0 (nW s))) by (apply in_seq; lia).
  rewrite R in Ij. apply in_app_or in Ij. destruct Ij as [Ij|[Ij|Ij]].
  - exfalso. apply In_nth with (d := 0%nat) in Ij. destruct Ij as [k [Hk Ek]].
    assert (N : nth k (seq 0 (nW s)) 0%nat = j) by (rewrite R, app_nth1; assumption).
    rewrite seq_nth in N; [lia|].
    rewrite <- (length_seq (nW s) 0), R, length_app. cbn. lia.
  - lia.
  - now apply in_rev.
Qed.

(** ** The polygonal tube that is periodic in phi *)

(** X19.  A cell tagged D4, a polygonal tube periodic in phi, is accepted
    but never evaluated: [Setup] returns true without calling a setup
    routine, so the wires keep the charges they had, and [Field] has no
    evaluator for it, so no point of the cell ever gets the status 0 or a
    field. *)
Theorem polygon_phi_cell_unevaluated :
  forall ext s,
    m_scellType s = "D4 "%string -> m_cellType s = D40 -> dipole s = false ->
    (fst (Setup ext s) = true /\ m_w (snd (Setup ext s)) = m_w s)
    /\ forall x y z opt st ev,
         Field ext s x y z opt = Some (st, ev) ->
         st <> 0%Z /\ Ex ev = 0%float /\ Ey ev = 0%float /\ Ez ev = 0%float.
Proof.
  intros ext s Hn Ht Hd. split.
  - unfold Setup.
    set (s1 := Setup_corrections (Setup_shorthand s)).
    assert (H1 : (m_scellType s1, dipole s1, m_w s1) = (m_scellType s, dipole s, m_w s))
      by (unfold s1, Setup_corrections, Setup_shorthand, set_corvt; frame).
    clearbody s1. injection H1 as E1 E2 E3. cbv zeta.
    destruct (m_nWires s1 <=? 0)%Z; [split; [reflexivity|exact E3]|].
    change (m_scellType (set_m_a ?a s1)) with (m_scellType s1).
    rewrite E1, Hn. cbn [existsb setup_types String.eqb Ascii.eqb Bool.eqb orb andb].
    change (dipole (set_m_a ?a s1)) with (dipole s1). rewrite E2, Hd.
    cbn [andb fst snd]. split; [reflexivity|exact E3].
  - intros x y z opt st ev. unfold Field. rewrite Ht.
    destruct (Field_fold ext s x y) as [[xpos ypos] arot].
    destruct (Field_behind ext s xpos ypos) as [v|].
    { intro H. injection H as <- <-. repeat split. discriminate. }
    destruct (Field_wire s xpos ypos) as [i|].
    { intro H. injection H as <- <-. repeat split. lia. }
    cbn [has_evaluator negb]. intro H. injection H as <- <-. repeat split. discriminate.
Qed.

(** The hexagonal tube of period 60 degrees. *)
Lemma polygon_phi_cell_unevaluated_witness :
  let s := run Examples.ext_inert MoreExamples.hex_cell in
  (fst (Setup Examples.ext_inert s) = true
   /\ m_w (snd (Setup Examples.ext_inert s)) = m_w s)
  /\ forall x y z opt st ev,
       Field Examples.ext_inert s x y z opt = Some (st, ev) ->
       st <> 0%Z /\ Ex ev = 0%float /\ Ey ev = 0%float /\ Ez ev = 0%float.
Proof.
  apply polygon_phi_cell_unevaluated; vm_compute; reflexivity.
Defined.

(** ** The voltage range *)

Section Checked.
Variable ext : Extern.

Lemma checked_CellType s :
  (vmin (snd (CellType s)), vmax (snd (CellType s))) = (vmin s, vmax s).
Proof. unfold CellType. frame. Qed.

Lemma range_Charge s :
  (vmin (snd (Charge ext s)), vmax (snd (Charge ext s))) = (vmin s, vmax s).
Proof.
  unfold Charge.
  destruct (Charge_core _ _ _ _ _ _ _ _ _ _ _ _ _ _ _ _ _ _ _ _ _ _) as [ok [[a v0] ws]].
  reflexivity.
Qed.

Lemma range_Setup s :
  (vmin (snd (Setup ext s)), vmax (snd (Setup ext s))) = (vmin s, vmax s).
Proof.
  unfold Setup.
  set (s1 := Setup_corrections (Setup_shorthand s)).
  assert (H1 : (vmin s1, vmax s1) = (vmin s, vmax s))
    by (unfold s1, Setup_corrections, Setup_shorthand, set_corvt; frame).
  clearbody s1. cbv zeta.
  destruct (m_nWires s1 <=? 0)%Z; [exact H1|].
  destruct (existsb _ setup_types); [|cbn; exact H1].
  unfold SetupCell. destruct (SetupFill ext _) as [a der].
  match goal with
  | |- context [Charge ext ?t] =>
      pose proof (range_Charge t) as C; destruct (Charge ext t) as [ok s2]
  end.
  cbn [snd] in C. rewrite <- H1.
  destruct ok; cbn [snd]; exact C.
Qed.

Lemma range_PrepareStrips s :
  (vmin (snd (PrepareStrips s)), vmax (snd (PrepareStrips s))) = (vmin s, vmax s).
Proof.
  unfold PrepareStrips.
  match goal with
  | |- context [fold_left (PrepareStrips_plane ?g) _ _] =>
      assert (H : forall l1 r1,
                 (vmin (snd (fold_left (PrepareStrips_plane g) l1 r1)),
                  vmax (snd (fold_left (PrepareStrips_plane g) l1 r1)))
                 = (vmin (snd r1), vmax (snd r1)))
  end.
  { intros l0; induction l0 as [|i l0 IH]; intro r0; cbn [fold_left]; [reflexivity|].
    rewrite IH. unfold PrepareStrips_plane. destruct r0 as [ok s0].
    destruct ok; cbn [negb snd]; [|reflexivity].
    destruct (assign_gaps strip.gap strip.set_gap _ (plane.strips1 _)) as [ok1 l1].
    destruct ok1; cbn [negb snd]; [|reflexivity].
    destruct (assign_gaps strip.gap strip.set_gap _ _) as [ok2 l2].
    destruct ok2; cbn [negb snd]; [|reflexivity].
    destruct (assign_gaps pixel.gap pixel.set_gap _ _) as [ok3 l3].
    reflexivity. }
  now rewrite H.
Qed.

Lemma range_box s :
  fst (CellCheck_box ext s) = true ->
  (vmin (snd (CellCheck_box ext s)) =? vmax (snd (CellCheck_box ext s)))%float = false.
Proof.
  unfold CellCheck_box.
  destruct (_ <? 2)%Z; [discriminate|].
  set (b := Box_fill _). clearbody b.
  destruct (bvmin b =? bvmax b)%float eqn:E; [discriminate|].
  destruct (negb (setv b)); [discriminate|]. intros _. exact E.
Qed.

(** A successful [Prepare] leaves a voltage range with two different ends. *)
Lemma range_Prepare s :
  fst (Prepare ext s) = true ->
  (vmin (snd (Prepare ext s)) =? vmax (snd (Prepare ext s)))%float = false.
Proof.
  unfold Prepare, CellCheck.
  set (s0 := CellCheck_prune ext _). clearbody s0.
  pose proof (range_box s0) as B.
  destruct (CellCheck_box ext s0) as [ok1 s1]. cbn [fst snd] in B.
  destruct ok1; cbv beta iota delta [negb fst snd]; [|discriminate].
  specialize (B eq_refl).
  pose proof (checked_CellType s1) as H2.
  destruct (CellType s1) as [ok2 s2]; cbv beta iota delta [snd] in H2.
  destruct ok2; cbv beta iota delta [negb fst snd]; [|discriminate].
  pose proof (range_Setup s2) as H3.
  destruct (Setup ext s2) as [ok3 s3]; cbv beta iota delta [snd] in H3.
  destruct ok3; cbv beta iota delta [negb fst snd]; [|discriminate].
  pose proof (range_PrepareStrips s3) as H4.
  destruct (PrepareStrips s3) as [ok4 s4]; cbv beta iota delta [snd] in H4.
  destruct ok4; cbv beta iota delta [negb fst snd]; [|discriminate].
  intros _. change (vmin (set_m_cellset true s4)) with (vmin s4).
  change (vmax (set_m_cellset true s4)) with (vmax s4).
  assert (E : (vmin s4, vmax s4) = (vmin s1, vmax s1)) by congruence.
  injection E as -> ->. exact B.
Qed.

(** Every call either clears [m_cellset], or leaves it and the voltage range
    as they are, or is a successful [Prepare]. *)
(** A query that runs [Prepare] on an unprepared cell. *)
Lemma range_lazy s :
  (m_cellset s = true -> (vmin s =? vmax s)%float = false) ->
  m_cellset s = false ->
  m_cellset (snd (Prepare ext s)) = true ->
  (vmin (snd (Prepare ext s)) =? vmax (snd (Prepare ext s)))%float = false.
Proof.
  intros J Ec H. pose proof (kept_Prepare ext s) as K.
  destruct (fst (Prepare ext s)) eqn:P.
  - apply range_Prepare, P.
  - rewrite (kept_cellset _ _ K) in H. congruence.
Qed.

Lemma range_call s c :
  (m_cellset s = true -> (vmin s =? vmax s)%float = false) ->
  m_cellset (call ext s c) = true ->
  (vmin (call ext s c) =? vmax (call ext s c))%float = false.
Proof.
  intros J.
  assert (G : forall s', (m_cellset s' = false
                          \/ (m_cellset s', vmin s', vmax s') = (m_cellset s, vmin s, vmax s)) ->
                         m_cellset s' = true -> (vmin s' =? vmax s')%float = false).
  { intros s' [E|E] H; [congruence|]. injection E as E1 E2 E3.
    rewrite E2, E3. apply J. congruence. }
  destruct c; cbn [call].
  1-13: apply G.
  - unfold AddWire. cbv beta delta [invalidate]. split_ifs; (right; reflexivity) || (left; reflexivity).
  - unfold AddTube. cbv beta delta [invalidate]. split_ifs; (right; reflexivity) || (left; reflexivity).
  - unfold AddPlaneX, AddPlane. cbv beta delta [invalidate]. split_ifs; (right; reflexivity) || (left; reflexivity).
  - unfold AddPlaneY, AddPlane. cbv beta delta [invalidate]. split_ifs; (right; reflexivity) || (left; reflexivity).
  - right. unfold AddStripOnPlaneX, AddStripOnPlane. frame.
  - right. unfold AddStripOnPlaneY, AddStripOnPlane. frame.
  - right. unfold AddPixelOnPlaneX, AddPixelOnPlane. frame.
  - right. unfold AddPixelOnPlaneY, AddPixelOnPlane. frame.
  - unfold SetPeriodicityX, UpdatePeriodicity. cbv beta delta [invalidate].
    split_ifs; (right; reflexivity) || (left; reflexivity).
  - unfold SetPeriodicityY, UpdatePeriodicity. cbv beta delta [invalidate].
    split_ifs; (right; reflexivity) || (left; reflexivity).
  - right. reflexivity.
  - right. reflexivity.
  - right. unfold AddReadout. frame.
  - destruct (Bool.bool_dec (m_cellset s) true) as [Ec|Ec].
    + rewrite Ec. intros _. apply J, Ec.
    + apply Bool.not_true_is_false in Ec. rewrite Ec. apply range_lazy; assumption.
  - rewrite GetVoltageRange_state.
    destruct (Bool.bool_dec (m_cellset s) true) as [Ec|Ec].
    + rewrite Ec. intros _. apply J, Ec.
    + apply Bool.not_true_is_false in Ec. rewrite Ec. apply range_lazy; assumption.
  - apply (inv_WeightingField ext
             (fun t => m_cellset t = true -> (vmin t =? vmax t)%float = false));
      [ intros g t Ht; exact Ht | intros d t Ht; exact Ht
      | intros k c0 t Ht; exact Ht | intros k c0 t Ht; exact Ht
      | intros t i l Ht; exact Ht | intros b t Ht; exact Ht
      | intros t Ec Ht; apply range_lazy; assumption | exact J ].
  - apply (inv_WeightingPotential ext
             (fun t => m_cellset t = true -> (vmin t =? vmax t)%float = false));
      [ intros g t Ht; exact Ht | intros d t Ht; exact Ht
      | intros k c0 t Ht; exact Ht | intros k c0 t Ht; exact Ht
      | intros t i l Ht; exact Ht | intros b t Ht; exact Ht
      | intros t Ec Ht; apply range_lazy; assumption | exact J ].
Qed.

Lemma range_run calls :
  m_cellset (run ext calls) = true ->
  (vmin (run ext calls) =? vmax (run ext calls))%float = false.
Proof.
  induction calls as [|c calls IH] using rev_ind.
  - discriminate.
  - rewrite run_snoc. apply range_call, IH.
Qed.

End Checked.

(** X20.  On every object reached from the constructor by public calls,
    [GetVoltageRange] prepares the cell if need be, and when it returns
    true the two ends of the range it hands back are different; it returns
    false exactly when that preparation fails.  [GetBoundingBox] without a
    geometry never prepares the cell: it returns false until the cell is
    prepared. *)
Theorem GetVoltageRange_ends_differ :
  forall ext calls,
    let s := run ext calls in
    (forall pmin pmax,
       snd (GetVoltageRange ext s) = Some (pmin, pmax) ->
       (pmin =? pmax)%float = false /\ m_cellset (fst (GetVoltageRange ext s)) = true)
    /\ (snd (GetVoltageRange ext s) = None <->
        m_cellset s = false /\ fst (Prepare ext s) = false)
    /\ (GetBoundingBox None s = None <-> m_cellset s = false).
Proof.
  intros ext calls s. pose proof (range_run ext calls) as J. fold s in J. clearbody s.
  unfold GetVoltageRange, GetBoundingBox.
  destruct (m_cellset s) eqn:Ec; cbn [negb].
  - split; [|split].
    + intros pmin pmax H. injection H as <- <-. split; [apply J; reflexivity|exact Ec].
    + split; [discriminate|intros [H _]; discriminate H].
    + split; [discriminate|discriminate].
  - pose proof (range_Prepare ext s) as R. pose proof (Prepare_sets_cellset ext s) as C.
    destruct (Prepare ext s) as [ok s1]. cbn [fst snd] in R, C.
    destruct ok; cbn [negb fst snd].
    + split; [|split].
      * intros pmin pmax H. apply (f_equal (option_map fst)) in H as H1.
        apply (f_equal (option_map snd)) in H. cbn [option_map fst snd] in H, H1.
        assert (vmin s1 = pmin) by congruence. assert (vmax s1 = pmax) by congruence.
        subst. split; [apply R; reflexivity|apply C; reflexivity].
      * split; [discriminate|intros [_ H]; discriminate H].
      * split; reflexivity.
    + split; [|split].
      * discriminate.
      * split; [split; reflexivity|reflexivity].
      * split; reflexivity.
Qed.

(** ** The pruning of the wires *)

Lemma firstn_upd_snoc {A : Type} (v : A) :
  forall l k, (k < List.length l)%nat -> firstn (S k) (upd k v l) = firstn k l ++ [v].
Proof.
  induction l as [|a l IH]; intros k H; cbn in H; [lia|].
  destruct k as [|k]; [reflexivity|].
  cbn [upd]. rewrite firstn_cons, IH by lia. reflexivity.
Qed.

Lemma kept_indices_S wrong n :
  kept_indices wrong (S n)
  = kept_indices wrong n ++ (if nth n wrong false then [] else [n]).
Proof.
  unfold kept_indices. rewrite seq_S, filter_app. cbn.
  now destruct (nth n wrong false).
Qed.

Lemma kept_indices_bound wrong n : (List.length (kept_indices wrong n) <= n)%nat.
Proof.
  unfold kept_indices.
  etransitivity; [apply filter_length_le|]. now rewrite length_seq.
Qed.

Lemma kept_indices_in wrong n i :
  In i (kept_indices wrong n) <-> (i < n)%nat /\ nth i wrong false = false.
Proof.
  unfold kept_indices. rewrite filter_In, in_seq, negb_true_iff. intuition lia.
Qed.

(** The kept indices come in increasing order. *)
Lemma kept_indices_sorted wrong n :
  forall a b, (a < b < List.length (kept_indices wrong n))%nat ->
    (nth a (kept_indices wrong n) 0 < nth b (kept_indices wrong n) 0)%nat.
Proof.
  induction n as [|n IH]; intros a b H; [cbn in H; lia|].
  rewrite kept_indices_S in *. rewrite length_app in H.
  destruct (nth n wrong false); cbn [List.length] in H.
  - rewrite app_nil_r. apply IH. lia.
  - destruct (Nat.eq_dec b (List.length (kept_indices wrong n))) as [->|Hb].
    + rewrite (app_nth1 _ _ _ (proj1 H)), nth_middle.
      assert (I : In (nth a (kept_indices wrong n) 0%nat) (kept_indices wrong n))
        by (apply nth_In; lia).
      apply kept_indices_in in I. lia.
    + rewrite !app_nth1 by lia. apply IH. lia.
Qed.

Section Prune.
Variable ext : Extern.

(** The removal loop, after the indices below [i]: the kept wires have been
    copied down in order and counted, the wires from [i] on are still in
    place. *)
Lemma remove_inv wrong s :
  (nW s <= List.length (m_w s))%nat -> (0 <= m_nWires s < UINT_MOD)%Z ->
  forall i, (i <= nW s)%nat ->
    let t := fold_left (CellCheck_remove_i wrong) (seq 0 i) (set_m_nWires 0 s) in
    m_nWires t = Z.of_nat (List.length (kept_indices wrong i))
    /\ firstn (List.length (kept_indices wrong i)) (m_w t)
       = map (w_at s) (kept_indices wrong i)
    /\ (forall j, (i <= j)%nat -> nth j (m_w t) wire.dflt = nth j (m_w s) wire.dflt)
    /\ List.length (m_w t) = List.length (m_w s).
Proof.
  intros Hl Hn. induction i as [|i IH]; intro Hi; cbv zeta.
  - cbn. repeat split.
  - specialize (IH ltac:(lia)). cbv zeta in IH.
    rewrite seq_S, fold_left_app. cbn [fold_left Nat.add].
    set (t := fold_left (CellCheck_remove_i wrong) (seq 0 i) (set_m_nWires 0 s)) in *.
    clearbody t. destruct IH as [N [F [U L]]].
    rewrite kept_indices_S. unfold CellCheck_remove_i.
    pose proof (kept_indices_bound wrong i) as B.
    set (k := List.length (kept_indices wrong i)) in *.
    destruct (nth i wrong false).
    + rewrite app_nil_r. fold k. repeat split; try assumption.
      intros j Hj. apply U. lia.
    + rewrite length_app, map_app. cbn [List.length map]. fold k.
      assert (Ek : nW t = k) by (unfold nW; rewrite N; apply Nat2Z.id).
      assert (Ew : w_at t i = w_at s i) by (apply U; lia).
      rewrite Ek, Ew. unfold set_w_at. cbn -[upd].
      assert (Hk : (k < List.length (m_w t))%nat) by lia.
      split; [|split; [|split]].
      * rewrite N. unfold uincr, UINT_MOD, nW in *. rewrite Z.mod_small; lia.
      * replace (k + 1)%nat with (S k) by lia.
        rewrite firstn_upd_snoc by exact Hk. now rewrite F.
      * intros j Hj. rewrite nth_upd_other by lia. apply U. lia.
      * now rewrite upd_length.
Qed.

(** The pruning loop keeps, in order, exactly the wires that are not marked,
    and counts them. *)
Lemma remove_spec wrong s :
  (nW s <= List.length (m_w s))%nat -> (0 <= m_nWires s < UINT_MOD)%Z ->
  m_nWires (CellCheck_remove wrong s) = Z.of_nat (List.length (kept_indices wrong (nW s)))
  /\ wires (CellCheck_remove wrong s) = map (w_at s) (kept_indices wrong (nW s))
  /\ List.length (m_w (CellCheck_remove wrong s)) = List.length (m_w s).
Proof.
  intros Hl Hn.
  destruct (remove_inv wrong s Hl Hn (nW s) (le_n _)) as [N [F [_ L]]].
  unfold CellCheck_remove. split; [exact N|]. split; [|exact L].
  unfold wires at 1, nW at 1. rewrite N, Nat2Z.id. exact F.
Qed.

(** The inner spacing loop of wire [i] over the wires [a .. a+m-1]. *)
Lemma spacing_j_spec s i :
  forall m a w,
    (i < a)%nat ->
    let w' := fold_left (CellCheck_spacing_j ext s i) (seq a m) w in
    List.length w' = List.length w
    /\ (forall k, nth k w false = true -> nth k w' false = true)
    /\ (forall k, (k < a)%nat -> nth k w' false = nth k w false)
    /\ (forall j, (a <= j < a + m)%nat -> (j < List.length w)%nat ->
          nth j w' false = false ->
          CellCheck_overlap ext s (w_at s i) (w_at s j) = false).
Proof.
  induction m as [|m IH]; intros a w Ha; cbv zeta.
  - cbn. repeat split; intros; try assumption; try reflexivity; lia.
  - cbn [seq fold_left].
    set (w1 := CellCheck_spacing_j ext s i w a).
    assert (W1 : List.length w1 = List.length w
                 /\ (forall k, nth k w false = true -> nth k w1 false = true)
                 /\ (forall k, k <> a -> nth k w1 false = nth k w false)
                 /\ ((a < List.length w)%nat -> nth a w1 false = false ->
                     CellCheck_overlap ext s (w_at s i) (w_at s a) = false)).
    { unfold w1, CellCheck_spacing_j.
      destruct (nth a w false) eqn:E; [repeat split; try tauto; congruence|].
      destruct (CellCheck_overlap ext s (w_at s i) (w_at s a)) eqn:O;
        [|repeat split; try tauto].
      split; [apply upd_length|]. split; [|split].
      - intros k Hk. destruct (Nat.eq_dec k a) as [->|Hne]; [congruence|].
        now rewrite nth_upd_other by congruence.
      - intros k Hk. now rewrite nth_upd_other by congruence.
      - intros Hl Hf. rewrite nth_upd_same in Hf by exact Hl. discriminate Hf. }
    clearbody w1. destruct W1 as [L1 [M1 [O1 P1]]].
    destruct (IH (S a) w1 ltac:(lia)) as [L2 [M2 [O2 P2]]].
    split; [congruence|]. split; [intros k Hk; apply M2, M1, Hk|]. split.
    + intros k Hk. rewrite O2 by lia. apply O1. lia.
    + intros j Hj Hl Hf. destruct (Nat.eq_dec j a) as [->|Hne].
      * apply P1; [exact Hl|]. rewrite <- (O2 a) by lia. exact Hf.
      * apply P2; [lia|congruence|exact Hf].
Qed.

(** After the spacing loops, what was marked is still marked, and no two
    unmarked wires overlap. *)
Lemma spacing_spec s w0 :
  (nW s <= List.length w0)%nat ->
  let w' := CellCheck_spacing ext s w0 in
  List.length w' = List.length w0
  /\ (forall k, nth k w0 false = true -> nth k w' false = true)
  /\ (forall i j, (i < j < nW s)%nat ->
        nth i w' false = false -> nth j w' false = false ->
        CellCheck_overlap ext s (w_at s i) (w_at s j) = false).
Proof.
  intro Hl. cbv zeta. unfold CellCheck_spacing.
  assert (G : forall m, (m <= nW s)%nat ->
            let w' := fold_left (CellCheck_spacing_i ext s) (seq 0 m) w0 in
            List.length w' = List.length w0
            /\ (forall k, nth k w0 false = true -> nth k w' false = true)
            /\ (forall i j, (i < m)%nat -> (i < j < nW s)%nat ->
                  nth i w' false = false -> nth j w' false = false ->
                  CellCheck_overlap ext s (w_at s i) (w_at s j) = false)).
  { induction m as [|m IH]; intro Hm; cbv zeta.
    - cbn. repeat split; intros; try assumption; try reflexivity; lia.
    - specialize (IH ltac:(lia)). cbv zeta in IH.
      rewrite seq_S, fold_left_app. cbn [fold_left Nat.add].
      set (w := fold_left (CellCheck_spacing_i ext s) (seq 0 m) w0) in *. clearbody w.
      destruct IH as [L [M P]].
      unfold CellCheck_spacing_i.
      destruct (nth m w false) eqn:E.
      + split; [exact L|]. split; [exact M|].
        intros i j Hi Hij Fi Fj. destruct (Nat.eq_dec i m) as [->|Hne]; [congruence|].
        apply P; [lia|exact Hij|exact Fi|exact Fj].
      + destruct (spacing_j_spec s m (nW s - S m) (S m) w ltac:(lia)) as [L2 [M2 [O2 P2]]].
        split; [congruence|]. split; [intros k Hk; apply M2, M, Hk|].
        intros i j Hi Hij Fi Fj. destruct (Nat.eq_dec i m) as [->|Hne].
        * apply P2; [lia|lia|exact Fj].
        * apply P; [lia|exact Hij| |].
          -- destruct (nth i w false) eqn:Ei; [|reflexivity].
             rewrite (M2 i Ei) in Fi. discriminate Fi.
          -- destruct (nth j w false) eqn:Ej; [|reflexivity].
             rewrite (M2 j Ej) in Fj. discriminate Fj. }
  destruct (G (nW s) (le_n _)) as [L [M P]].
  split; [exact L|]. split; [exact M|].
  intros i j Hij. apply P; lia.
Qed.

(** The tests of the pruning read the planes, the tube and the
    periodicities, which the removal loop leaves alone. *)
Lemma remove_tests wrong s w w2 :
  CellCheck_wrong ext (CellCheck_remove wrong s) w = CellCheck_wrong ext s w
  /\ CellCheck_overlap ext (CellCheck_remove wrong s) w w2 = CellCheck_overlap ext s w w2.
Proof.
  assert (E : (m_ynplan (CellCheck_remove wrong s), m_coplan (CellCheck_remove wrong s),
               m_tube (CellCheck_remove wrong s), m_cotube (CellCheck_remove wrong s),
               m_ntube (CellCheck_remove wrong s),
               (m_perx (CellCheck_remove wrong s), m_pery (CellCheck_remove wrong s),
                m_sx (CellCheck_remove wrong s), m_sy (CellCheck_remove wrong s)))
              = (m_ynplan s, m_coplan s, m_tube s, m_cotube s, m_ntube s,
                 (m_perx s, m_pery s, m_sx s, m_sy s))).
  { unfold CellCheck_remove.
    rewrite (fold_left_keeps (fun t => (m_ynplan t, m_coplan t, m_tube t, m_cotube t,
                                        m_ntube t, (m_perx t, m_pery t, m_sx t, m_sy t))));
      [reflexivity|].
    intros; unfold CellCheck_remove_i; frame. }
  set (s' := CellCheck_remove wrong s) in *. clearbody s'.
  injection E as E1 E2 E3 E4 E5 E6 E7 E8 E9.
  unfold CellCheck_wrong, CellCheck_overlap, ynplan, coplan.
  now rewrite E1, E2, E3, E4, E5, E6, E7, E8, E9.
Qed.

End Prune.

(** X21.  After the pruning of the cell check, the wires in use are wires
    that were in use before, in their old order; each of them has passed the
    test against the planes, the tube and the periods, and no two of them
    overlap.  The wire count is their number. *)
Theorem CellCheck_prune_survivors :
  forall ext s,
    shaped s -> (m_nWires s < UINT_MOD)%Z ->
    let s' := CellCheck_prune ext s in
    (exists idx,
        wires s' = map (w_at s) idx
        /\ m_nWires s' = Z.of_nat (List.length idx)
        /\ (forall a, (a < List.length idx)%nat -> (nth a idx 0 < nW s)%nat)
        /\ (forall a b, (a < b < List.length idx)%nat -> (nth a idx 0 < nth b idx 0)%nat))
    /\ (forall i, (i < nW s')%nat -> CellCheck_wrong ext s' (w_at s' i) = false)
    /\ (forall i j, (i < j < nW s')%nat ->
          CellCheck_overlap ext s' (w_at s' i) (w_at s' j) = false).
Proof.
  intros ext s [_ [_ [_ [_ Hw]]]] Hmax s'. subst s'. unfold CellCheck_prune.
  assert (Hl : (nW s <= List.length (m_w s))%nat) by (unfold nW; lia).
  set (w0 := map (CellCheck_wrong ext s) (wires s)).
  assert (L0 : List.length w0 = nW s)
    by (unfold w0, wires; rewrite length_map, length_firstn; lia).
  destruct (spacing_spec ext s w0 ltac:(lia)) as [L [M P]].
  set (w := CellCheck_spacing ext s w0) in *. clearbody w.
  destruct (remove_spec w s Hl ltac:(lia)) as [N [W _]].
  set (idx := kept_indices w (nW s)) in *.
  assert (Hn : nW (CellCheck_remove w s) = List.length idx)
    by (unfold nW at 1; rewrite N; apply Nat2Z.id).
  assert (Hat : forall a, (a < List.length idx)%nat ->
                  w_at (CellCheck_remove w s) a = w_at s (nth a idx 0%nat)).
  { intros a Ha.
    assert (E : nth a (wires (CellCheck_remove w s)) wire.dflt
                = nth a (map (w_at s) idx) wire.dflt) by now rewrite W.
    unfold wires in E at 1. rewrite nth_firstn in E.
    assert (T : (a <? nW (CellCheck_remove w s))%nat = true) by (apply Nat.ltb_lt; lia).
    rewrite T in E. unfold w_at at 1. rewrite E.
    rewrite (nth_indep _ wire.dflt (w_at s 0%nat)) by (rewrite length_map; exact Ha).
    apply map_nth. }
  assert (Hin : forall a, (a < List.length idx)%nat ->
                  (nth a idx 0 < nW s)%nat /\ nth (nth a idx 0%nat) w false = false).
  { intros a Ha. apply kept_indices_in. apply nth_In. exact Ha. }
  split; [|split].
  - exists idx. split; [exact W|]. split; [exact N|]. split.
    + intros a Ha. apply Hin, Ha.
    + apply kept_indices_sorted.
  - intros i Hi. rewrite Hn in Hi.
    destruct (remove_tests ext w s (w_at (CellCheck_remove w s) i) wire.dflt) as [-> _].
    rewrite Hat by exact Hi. destruct (Hin i Hi) as [Hb Hf].
    destruct (CellCheck_wrong ext s (w_at s (nth i idx 0%nat))) eqn:E; [|reflexivity].
    assert (T : nth (nth i idx 0%nat) w0 false = true).
    { unfold w0. rewrite (nth_indep _ false (CellCheck_wrong ext s wire.dflt))
        by (fold w0; lia).
      rewrite map_nth. unfold wires. rewrite nth_firstn.
      assert (Q : (nth i idx 0 <? nW s)%nat = true) by (apply Nat.ltb_lt; exact Hb).
      rewrite Q. exact E. }
    rewrite (M _ T) in Hf. discriminate Hf.
  - intros i j Hij. rewrite Hn in Hij.
    destruct (remove_tests ext w s (w_at (CellCheck_remove w s) i)
                (w_at (CellCheck_remove w s) j)) as [_ ->].
    rewrite !Hat by lia.
    destruct (Hin i ltac:(lia)) as [Hbi Hfi]. destruct (Hin j ltac:(lia)) as [Hbj Hfj].
    apply P; [|exact Hfi|exact Hfj].
    pose proof (kept_indices_sorted w (nW s) i j Hij). fold idx in H. lia.
Qed.

(** Two overlapping wires: the second one goes. *)
Lemma CellCheck_prune_survivors_witness :
  let s := AddWire 0.5 0 1 2000 "t" 100 50 19.3 5
             (AddWire 0 0 1 1000 "s" 100 50 19.3 5 construct) in
  let s' := CellCheck_prune Examples.ext_inert s in
  (exists idx,
      wires s' = map (w_at s) idx
      /\ m_nWires s' = Z.of_nat (List.length idx)
      /\ (forall a, (a < List.length idx)%nat -> (nth a idx 0 < nW s)%nat)
      /\ (forall a b, (a < b < List.length idx)%nat -> (nth a idx 0 < nth b idx 0)%nat))
  /\ (forall i, (i < nW s')%nat -> CellCheck_wrong Examples.ext_inert s' (w_at s' i) = false)
  /\ (forall i j, (i < j < nW s')%nat ->
        CellCheck_overlap Examples.ext_inert s' (w_at s' i) (w_at s' j) = false).
Proof.
  apply CellCheck_prune_survivors.
  - unfold shaped. cbn. repeat split; lia.
  - vm_compute. reflexivity.
Defined.

(** ** Comparisons of doubles *)

Lemma SFcompare_antisym f1 f2 :
  SFcompare f2 f1 = option_map CompOpp (SFcompare f1 f2).
Proof.
  destruct f1 as [s1|s1| |s1 m1 e1], f2 as [s2|s2| |s2 m2 e2]; cbn;
    try reflexivity; try (destruct s1; reflexivity); try (destruct s2; reflexivity);
    try (destruct s1, s2; reflexivity).
  pose proof (Pos.compare_cont_antisym m1 m2 Eq) as P. cbn [CompOpp] in P.
  destruct s1, s2; try reflexivity; f_equal;
    rewrite (Z.compare_antisym e1 e2);
    destruct (e1 ?= e2)%Z; cbn; try reflexivity;
    rewrite <- P; now destruct (Pos.compare_cont Eq m1 m2).
Qed.

Lemma ltb_asym (a b : float) : (a <? b)%float = true -> (b <? a)%float = false.
Proof.
  rewrite !FloatAxioms.ltb_spec. unfold SFltb.
  rewrite (SFcompare_antisym (Prim2SF a) (Prim2SF b)).
  now destruct (SFcompare (Prim2SF a) (Prim2SF b)) as [[| |]|].
Qed.

Lemma ltb_irrefl (a : float) : (a <? a)%float = false.
Proof.
  destruct (a <? a)%float eqn:E; [|reflexivity].
  pose proof (ltb_asym _ _ E). congruence.
Qed.

(** [std::min] and [std::max] never hand back an inverted pair. *)
Lemma min_max_ordered (a b : float) : (Dbl.max a b <? Dbl.min a b)%float = false.
Proof.
  unfold Dbl.max, Dbl.min.
  destruct (b <? a)%float eqn:E1; destruct (a <? b)%float eqn:E2.
  - pose proof (ltb_asym _ _ E1). congruence.
  - exact E2.
  - exact E1.
  - apply ltb_irrefl.
Qed.

(** ** Weighting-field queries *)

Lemma index_of_none label :
  forall l k, ~ In label l -> index_of label l k = None.
Proof.
  induction l as [|a l IH]; intros k H; cbn [index_of]; [reflexivity|].
  destruct (String.eqb a label) eqn:E.
  - apply String.eqb_eq in E. subst a. contradiction H. now left.
  - apply IH. intro Hin. apply H. now right.
Qed.

(** X22.  [WeightingField] and [WeightingPotential] prepare the signals in
    the same way and leave the object in the same state; without a readout
    group they leave it untouched, and for an empty label or a label that is
    no readout group both return zero. *)
Theorem weighting_queries_agree :
  forall ext s x y z label,
    fst (WeightingField ext s x y z label) = fst (WeightingPotential ext s x y z label)
    /\ (m_readout s = [] ->
        WeightingField ext s x y z label = (s, (0, 0, 0)%float)
        /\ WeightingPotential ext s x y z label = (s, 0%float))
    /\ (label = ""%string \/ ~ In label (m_readout (fst (WeightingField ext s x y z label))) ->
        snd (WeightingField ext s x y z label) = (0, 0, 0)%float
        /\ snd (WeightingPotential ext s x y z label) = 0%float).
Proof.
  intros ext s x y z label. unfold WeightingField, WeightingPotential.
  destruct (m_readout s) as [|r rs] eqn:R.
  { cbn [fst snd]. repeat split. }
  set (q := if negb (m_sigset s) then PrepareSignals ext s else (true, s)).
  clearbody q. destruct q as [ok s1].
  destruct ok; cbn [negb fst snd].
  2:{ repeat split; discriminate. }
  destruct (String.eqb label "") eqn:El.
  { cbn [fst snd]. repeat split; discriminate. }
  destruct (index_of label (m_readout s1) 0) as [k|] eqn:I.
  2:{ cbn [fst snd]. repeat split; discriminate. }
  destruct (Wfield ext s1 x y z k false) as [[[wx wy] wz] v].
  destruct (Wfield ext s1 x y z k true) as [[[wx' wy'] wz'] v'].
  cbn [fst snd]. split; [reflexivity|]. split; [discriminate|].
  intros [->|H].
  - discriminate El.
  - rewrite (index_of_none _ _ _ H) in I. discriminate I.
Qed.

(** ** Strips and pixels have their bounds in order *)

Lemma Forall_upd {A : Type} (P : A -> Prop) (v : A) :
  forall l i, Forall P l -> P v -> Forall P (upd i v l).
Proof.
  induction l as [|a l IH]; intros i H Hv; [destruct i; exact H|].
  inversion H as [|? ? Ha Hl]; subst.
  destruct i as [|i]; cbn [upd]; constructor; try assumption. now apply IH.
Qed.

Lemma plane_ordered_dflt : plane_ordered plane.dflt.
Proof. repeat split; constructor. Qed.

Lemma planes_at_ordered s i : bounds_ordered s -> plane_ordered (planes_at s i).
Proof.
  intro H. unfold planes_at.
  destruct (Nat.lt_ge_cases i (List.length (planes s))) as [Hlt|Hge].
  - apply (proj1 (Forall_forall _ _) H). now apply nth_In.
  - rewrite nth_overflow by exact Hge. apply plane_ordered_dflt.
Qed.

Lemma set_planes_at_ordered s i p :
  bounds_ordered s -> plane_ordered p -> bounds_ordered (set_planes_at i p s).
Proof. intros H Hp. unfold bounds_ordered, set_planes_at. cbn -[upd]. now apply Forall_upd. Qed.

Lemma bounds_ordered_ext s s' : planes s' = planes s -> bounds_ordered s -> bounds_ordered s'.
Proof. unfold bounds_ordered. now intros ->. Qed.

Lemma assign_gaps_Forall {A : Type} (gap : A -> float) (set_gap : float -> A -> A) gd
    (P : A -> Prop) (Hset : forall g a, P a -> P (set_gap g a)) :
  forall l, Forall P l -> Forall P (snd (assign_gaps gap set_gap gd l)).
Proof.
  induction l as [|a l IH]; intro H; cbn [assign_gaps]; [exact H|].
  inversion H as [|? ? Ha Hl]; subst.
  set (a' := if (gap a <? 0)%float then set_gap gd a else a).
  assert (Ha' : P a')
    by (unfold a'; destruct (gap a <? 0)%float; [apply Hset|]; exact Ha).
  clearbody a'.
  destruct (gap a' <? 0)%float; [constructor; assumption|].
  specialize (IH Hl). destruct (assign_gaps gap set_gap gd l) as [ok t].
  cbn [snd] in *. constructor; assumption.
Qed.

Section Ordered.
Variable ext : Extern.

Lemma planes_CellCheck_planes lo sp s : planes (fst (CellCheck_planes lo sp s)) = planes s.
Proof. unfold CellCheck_planes. frame. Qed.

Lemma planes_CellCheck_conflict i j s : planes (CellCheck_conflict i j s) = planes s.
Proof. unfold CellCheck_conflict. frame. Qed.

Lemma ordered_CellCheck_order i s :
  bounds_ordered s -> bounds_ordered (CellCheck_order i s).
Proof.
  intro H. unfold CellCheck_order.
  destruct (ynplan s i && ynplan s (S i)); [|exact H].
  set (s1 := if (coplan s i =? coplan s (S i))%float then set_ynplan (S i) false s else s).
  assert (H1 : bounds_ordered s1)
    by (unfold s1; destruct (coplan s i =? coplan s (S i))%float; exact H).
  clearbody s1. destruct (gtb (coplan s1 i) (coplan s1 (S i))); [|exact H1].
  apply set_planes_at_ordered; [apply set_planes_at_ordered|].
  - exact H1.
  - change (plane_ordered (planes_at s1 (S i))). now apply planes_at_ordered.
  - change (plane_ordered (planes_at s1 i)). now apply planes_at_ordered.
Qed.

Lemma ordered_planes_phase s : bounds_ordered s -> bounds_ordered (CellCheck_planes_phase s).
Proof.
  intro H. unfold CellCheck_planes_phase.
  apply ordered_CellCheck_order, ordered_CellCheck_order.
  eapply bounds_ordered_ext; [|exact H].
  rewrite !planes_CellCheck_conflict.
  assert (X : forall t, planes (if m_perx t
                                then let '(t', per) := CellCheck_planes 0 (m_sx t) t in
                                     set_m_perx per t'
                                else t) = planes t).
  { intro t. destruct (m_perx t); [|reflexivity].
    pose proof (planes_CellCheck_planes 0 (m_sx t) t) as E.
    destruct (CellCheck_planes 0 (m_sx t) t) as [t' per]. exact E. }
  assert (Y : forall t, planes (if m_pery t
                                then let '(t', per) := CellCheck_planes 2 (m_sy t) t in
                                     set_m_pery per t'
                                else t) = planes t).
  { intro t. destruct (m_pery t); [|reflexivity].
    pose proof (planes_CellCheck_planes 2 (m_sy t) t) as E.
    destruct (CellCheck_planes 2 (m_sy t) t) as [t' per]. exact E. }
  now rewrite Y, X.
Qed.

Lemma planes_wires_phase s : planes (CellCheck_wires_phase ext s) = planes s.
Proof. unfold CellCheck_wires_phase, map_wires. frame. Qed.

Lemma planes_CellCheck_keep lo a b s : planes (fst (fst (CellCheck_keep lo a b s))) = planes s.
Proof. unfold CellCheck_keep. frame. Qed.

Lemma ordered_CellCheck_move a b s :
  bounds_ordered s -> bounds_ordered (CellCheck_move a b s).
Proof.
  intro H. unfold CellCheck_move.
  apply set_planes_at_ordered; [exact H|].
  change (plane_ordered (planes_at s a)). now apply planes_at_ordered.
Qed.

Lemma ordered_numbering s : bounds_ordered s -> bounds_ordered (CellCheck_numbering s).
Proof.
  intro H. unfold CellCheck_numbering.
  pose proof (planes_CellCheck_keep 0
    (if ynplan s 0 then count_le wire.x (coplan s 0) s else 0%Z)
    (if ynplan s 1 then count_le wire.x (coplan s 1) s else 0%Z) s) as H1.
  destruct (CellCheck_keep 0 _ _ s) as [[s1 a1] b1]. cbn [fst] in H1.
  pose proof (planes_CellCheck_keep 2
    (if ynplan s 2 then count_le wire.y (coplan s 2) s else 0%Z)
    (if ynplan s 3 then count_le wire.y (coplan s 3) s else 0%Z) s1) as H2.
  destruct (CellCheck_keep 2 _ _ s1) as [[s2 a2] b2]. cbn [fst] in H2.
  assert (O2 : bounds_ordered s2)
    by (eapply bounds_ordered_ext; [|exact H]; congruence).
  split_ifs; repeat apply ordered_CellCheck_move; exact O2.
Qed.

Lemma planes_prune s : planes (CellCheck_prune ext s) = planes s.
Proof.
  unfold CellCheck_prune, CellCheck_remove.
  rewrite (fold_left_keeps planes); [reflexivity|].
  intros; unfold CellCheck_remove_i; frame.
Qed.

Lemma planes_box s : planes (snd (CellCheck_box ext s)) = planes s.
Proof. unfold CellCheck_box. frame. Qed.

Lemma planes_CellType s : planes (snd (CellType s)) = planes s.
Proof. unfold CellType. frame. Qed.

Lemma planes_Setup s : planes (snd (Setup ext s)) = planes s.
Proof.
  unfold Setup.
  set (s1 := Setup_corrections (Setup_shorthand s)).
  assert (H1 : planes s1 = planes s)
    by (unfold s1, Setup_corrections, Setup_shorthand, set_corvt; frame).
  clearbody s1. cbv zeta.
  destruct (m_nWires s1 <=? 0)%Z; [exact H1|].
  destruct (existsb _ setup_types); [|cbn; exact H1].
  unfold SetupCell. destruct (SetupFill ext _) as [a der].
  unfold Charge.
  destruct (Charge_core _ _ _ _ _ _ _ _ _ _ _ _ _ _ _ _ _ _ _ _ _ _) as [ok [[a' v0] ws]].
  destruct ok; cbn; exact H1.
Qed.

Lemma ordered_PrepareStrips_plane gapDef r i :
  bounds_ordered (snd r) -> bounds_ordered (snd (PrepareStrips_plane gapDef r i)).
Proof.
  destruct r as [ok s]. cbn [snd]. intro H. unfold PrepareStrips_plane.
  destruct ok; cbn [negb]; [|exact H].
  destruct (planes_at_ordered s i H) as [O1 [O2 O3]].
  pose proof (assign_gaps_Forall strip.gap strip.set_gap (nth i gapDef 0%float) strip_ordered
                (fun g a Ha => Ha) _ O1) as A1.
  destruct (assign_gaps strip.gap strip.set_gap _ (plane.strips1 _)) as [ok1 l1].
  cbn [snd] in A1.
  destruct ok1; cbn [negb snd].
  2:{ apply set_planes_at_ordered; [exact H|]. repeat split; assumption. }
  pose proof (assign_gaps_Forall strip.gap strip.set_gap (nth i gapDef 0%float) strip_ordered
                (fun g a Ha => Ha) _ O2) as A2.
  cbn [plane.strips2 plane.set_strips1].
  destruct (assign_gaps strip.gap strip.set_gap _ (plane.strips2 _)) as [ok2 l2].
  cbn [snd] in A2.
  destruct ok2; cbn [negb snd].
  2:{ apply set_planes_at_ordered; [exact H|]. repeat split; assumption. }
  pose proof (assign_gaps_Forall pixel.gap pixel.set_gap (nth i gapDef 0%float) pixel_ordered
                (fun g a Ha => Ha) _ O3) as A3.
  cbn [plane.pixels plane.set_strips2].
  destruct (assign_gaps pixel.gap pixel.set_gap _ (plane.pixels _)) as [ok3 l3].
  cbn [snd] in A3 |- *.
  apply set_planes_at_ordered; [exact H|]. repeat split; assumption.
Qed.

Lemma ordered_PrepareStrips s : bounds_ordered s -> bounds_ordered (snd (PrepareStrips s)).
Proof.
  intro H. unfold PrepareStrips.
  match goal with
  | |- context [fold_left (PrepareStrips_plane ?g) _ _] =>
      assert (G : forall l1 r1, bounds_ordered (snd r1) ->
                  bounds_ordered (snd (fold_left (PrepareStrips_plane g) l1 r1)))
  end.
  { intros l0; induction l0 as [|i l0 IH]; intros r0 H0; cbn [fold_left]; [exact H0|].
    apply IH, ordered_PrepareStrips_plane, H0. }
  apply G. exact H.
Qed.

Lemma ordered_Prepare s : bounds_ordered s -> bounds_ordered (snd (Prepare ext s)).
Proof.
  intro H. unfold Prepare, CellCheck.
  assert (H0 : bounds_ordered
                 (CellCheck_prune ext
                    (CellCheck_numbering (CellCheck_wires_phase ext (CellCheck_planes_phase s))))).
  { eapply bounds_ordered_ext; [apply planes_prune|].
    apply ordered_numbering.
    eapply bounds_ordered_ext; [apply planes_wires_phase|].
    apply ordered_planes_phase, H. }
  set (s0 := CellCheck_prune ext _) in *. clearbody s0.
  pose proof (bounds_ordered_ext _ _ (planes_box s0) H0) as H1.
  destruct (CellCheck_box ext s0) as [ok1 s1]; cbv beta iota delta [snd] in H1.
  destruct ok1; cbv beta iota delta [negb snd]; [|exact H1].
  pose proof (bounds_ordered_ext _ _ (planes_CellType s1) H1) as H2.
  destruct (CellType s1) as [ok2 s2]; cbv beta iota delta [snd] in H2.
  destruct ok2; cbv beta iota delta [negb snd]; [|exact H2].
  pose proof (bounds_ordered_ext _ _ (planes_Setup s2) H2) as H3.
  destruct (Setup ext s2) as [ok3 s3]; cbv beta iota delta [snd] in H3.
  destruct ok3; cbv beta iota delta [negb snd]; [|exact H3].
  pose proof (ordered_PrepareStrips s3 H3) as H4.
  destruct (PrepareStrips s3) as [ok4 s4]; cbv beta iota delta [snd] in H4.
  destruct ok4; cbv beta iota delta [negb snd]; exact H4.
Qed.

Lemma plane_ordered_label lab p : plane_ordered p -> plane_ordered (plane.set_label lab p).
Proof. intro H. exact H. Qed.

Lemma ordered_AddStripOnPlane lo d1 d2 dir c smin smax label gap s :
  bounds_ordered s ->
  bounds_ordered (AddStripOnPlane ext lo d1 d2 dir c smin smax label gap s).
Proof.
  intro H. unfold AddStripOnPlane.
  destruct (negb (ynplan s lo) && negb (ynplan s (S lo))); [exact H|].
  destruct (negb (is_char dir d1 d2) && negb (is_char dir "z" "Z")); [exact H|].
  destruct (fabs (smax - smin) <? Small ext)%float; [exact H|].
  set (i := if ynplan s (S lo) && _ then S lo else lo). clearbody i.
  destruct (planes_at_ordered s i H) as [O1 [O2 O3]].
  assert (N : strip_ordered (strip.mk label (-1) (Dbl.min smin smax) (Dbl.max smin smax)
                                      (gap_of ext gap)))
    by apply min_max_ordered.
  destruct (is_char dir d1 d2); (apply set_planes_at_ordered; [exact H|]);
    repeat split; cbn; try assumption; apply Forall_app; split; try assumption;
    constructor; [exact N|constructor|exact N|constructor].
Qed.

Lemma ordered_AddPixelOnPlane lo c smin smax zmin zmax label gap s :
  bounds_ordered s ->
  bounds_ordered (AddPixelOnPlane ext lo c smin smax zmin zmax label gap s).
Proof.
  intro H. unfold AddPixelOnPlane.
  destruct (negb (ynplan s lo) && negb (ynplan s (S lo))); [exact H|].
  destruct (_ || _); [exact H|].
  set (i := if ynplan s (S lo) && _ then S lo else lo). clearbody i.
  destruct (planes_at_ordered s i H) as [O1 [O2 O3]].
  apply set_planes_at_ordered; [exact H|].
  repeat split; cbn; try assumption. apply Forall_app. split; [exact O3|].
  constructor; [|constructor]. split; apply min_max_ordered.
Qed.

Lemma Forall_mapi_from {A : Type} (P : A -> Prop) (f : nat -> A -> A) :
  (forall j a, P a -> P (f j a)) ->
  forall l k, Forall P l -> Forall P (mapi_from k f l).
Proof.
  intros Hf l. induction l as [|a l IH]; intros k H; cbn [mapi_from]; [constructor|].
  inversion H as [|? ? Ha Hl]; subst. constructor; [apply Hf, Ha|apply IH, Hl].
Qed.

Lemma ordered_associate_plane i label p :
  plane_ordered p -> plane_ordered (associate_plane i label p).
Proof.
  intros [O1 [O2 O3]]. unfold associate_plane.
  assert (S1 : forall l, Forall strip_ordered l ->
                         Forall strip_ordered (map (associate_strip i label) l)).
  { intros l Hl. apply Forall_map. eapply Forall_impl; [|exact Hl].
    intros t Ht. unfold associate_strip. destruct (String.eqb _ _); exact Ht. }
  assert (S2 : forall l, Forall pixel_ordered l ->
                         Forall pixel_ordered (map (associate_pixel i label) l)).
  { intros l Hl. apply Forall_map. eapply Forall_impl; [|exact Hl].
    intros t Ht. unfold associate_pixel. destruct (String.eqb _ _); exact Ht. }
  destruct (String.eqb (plane.type p) label); repeat split; cbn;
    (apply S1 || apply S2); assumption.
Qed.

(** The signal preparation writes bias fields and readout indices only. *)
Lemma signal_steps_ordered :
  (forall g s, bounds_ordered s -> bounds_ordered (set_m_signals g s))
  /\ (forall d s, bounds_ordered s -> bounds_ordered (set_m_derived d s))
  /\ (forall k c s, bounds_ordered s -> bounds_ordered (set_ewxcor k c s))
  /\ (forall k c s, bounds_ordered s -> bounds_ordered (set_ewycor k c s))
  /\ (forall s i label, bounds_ordered s -> bounds_ordered (associate s i label))
  /\ (forall b s, bounds_ordered s -> bounds_ordered (set_m_sigset b s)).
Proof.
  split; [intros g s H; exact H|].
  split; [intros d s H; exact H|].
  split; [intros k c s H; unfold set_ewxcor; apply set_planes_at_ordered;
          [exact H|exact (planes_at_ordered s k H)]|].
  split; [intros k c s H; unfold set_ewycor; apply set_planes_at_ordered;
          [exact H|exact (planes_at_ordered s k H)]|].
  split; [|intros b s H; exact H].
  intros s i label H. unfold bounds_ordered, associate.
  change (Forall plane_ordered
            (mapi_from 0 (fun j p => if (j <? 5)%nat then associate_plane i label p else p)
                       (planes s))).
  apply Forall_mapi_from; [|exact H].
  intros j p Hp. destruct (j <? 5)%nat; [apply ordered_associate_plane|]; exact Hp.
Qed.

Lemma ordered_call s c : bounds_ordered s -> bounds_ordered (call ext s c).
Proof.
  intro H. destruct c; cbn [call].
  - eapply bounds_ordered_ext; [|exact H]. unfold AddWire. frame.
  - unfold AddTube. split_ifs; try exact H.
    apply (bounds_ordered_ext (set_planes_at 4 (plane.set_label label (planes_at s 4)) s));
      [reflexivity|].
    apply set_planes_at_ordered; [exact H|]. now apply plane_ordered_label, planes_at_ordered.
  - unfold AddPlaneX, AddPlane. destruct (ynplan s 0 && ynplan s 1); [exact H|].
    set (i := if ynplan s 0 then 1%nat else 0%nat). clearbody i.
    apply (bounds_ordered_ext (set_planes_at i (plane.set_label lab (planes_at s i)) s));
      [reflexivity|].
    apply set_planes_at_ordered; [exact H|]. now apply plane_ordered_label, planes_at_ordered.
  - unfold AddPlaneY, AddPlane. destruct (ynplan s 2 && ynplan s 3); [exact H|].
    set (i := if ynplan s 2 then 3%nat else 2%nat). clearbody i.
    apply (bounds_ordered_ext (set_planes_at i (plane.set_label lab (planes_at s i)) s));
      [reflexivity|].
    apply set_planes_at_ordered; [exact H|]. now apply plane_ordered_label, planes_at_ordered.
  - now apply ordered_AddStripOnPlane.
  - now apply ordered_AddStripOnPlane.
  - now apply ordered_AddPixelOnPlane.
  - now apply ordered_AddPixelOnPlane.
  - eapply bounds_ordered_ext; [|exact H]. unfold SetPeriodicityX, UpdatePeriodicity. frame.
  - eapply bounds_ordered_ext; [|exact H]. unfold SetPeriodicityY, UpdatePeriodicity. frame.
  - exact H.
  - exact H.
  - eapply bounds_ordered_ext; [|exact H]. unfold AddReadout. frame.
  - destruct (m_cellset s); [exact H|apply ordered_Prepare, H].
  - rewrite GetVoltageRange_state.
    destruct (m_cellset s); [exact H|apply ordered_Prepare, H].
  - destruct signal_steps_ordered as [A1 [A2 [A3 [A4 [A5 A6]]]]].
    apply inv_WeightingField; try assumption. intros t _. apply ordered_Prepare.
  - destruct signal_steps_ordered as [A1 [A2 [A3 [A4 [A5 A6]]]]].
    apply inv_WeightingPotential; try assumption. intros t _. apply ordered_Prepare.
Qed.

End Ordered.

(** X23.  On every object reached from the constructor by public calls,
    every strip and every pixel of every plane has its bounds in order: the
    upper bound is not below the lower one, in whatever order the caller
    gave them and however the cell check has moved the planes since. *)
Theorem reachable_bounds_ordered : forall ext calls, bounds_ordered (run ext calls).
Proof.
  intros ext calls. unfold run.
  assert (G : forall l s, bounds_ordered s -> bounds_ordered (fold_left (call ext) l s)).
  { induction l as [|c l IH]; intros s H; cbn [fold_left]; [exact H|].
    apply IH, ordered_call, H. }
  apply G. unfold bounds_ordered. cbn.
  repeat constructor.
Qed.

(** ** The order of the planes after the cell check *)

Lemma eqb_sym (a b : float) : (a =? b)%float = (b =? a)%float.
Proof.
  rewrite !FloatAxioms.eqb_spec. unfold SFeqb.
  rewrite (SFcompare_antisym (Prim2SF a) (Prim2SF b)).
  now destruct (SFcompare (Prim2SF a) (Prim2SF b)) as [[| |]|].
Qed.

Lemma pair_ordered_ext s s' i : slots s' = slots s -> pair_ordered s i -> pair_ordered s' i.
Proof.
  unfold slots, pair_ordered, ynplan, coplan. intros E. injection E as -> ->. tauto.
Qed.

Section Order.
Variable ext : Extern.

Lemma order_orders i s :
  (S i < List.length (m_ynplan s))%nat -> (S i < List.length (m_coplan s))%nat ->
  pair_ordered (CellCheck_order i s) i.
Proof.
  intros L1 L2. unfold pair_ordered, CellCheck_order.
  destruct (ynplan s i && ynplan s (S i)) eqn:B.
  2:{ intros A1 A2. rewrite A1, A2 in B. discriminate B. }
  destruct (coplan s i =? coplan s (S i))%float eqn:E.
  - assert (F : forall t, m_ynplan t = m_ynplan (set_ynplan (S i) false s) ->
                          ynplan t (S i) = true -> False).
    { intros t Et. unfold ynplan. rewrite Et. unfold set_ynplan. cbn -[upd].
      rewrite nth_upd_same by exact L1. discriminate. }
    destruct (gtb _ _); intros _ A2; exfalso; (eapply F; [reflexivity|exact A2]).
  - destruct (gtb (coplan s i) (coplan s (S i))) eqn:G; intros _ _.
    + unfold coplan, set_planes_at, set_vtplan, set_coplan. cbn -[upd].
      rewrite (nth_upd_other _ _ _ (S i) i) by lia.
      rewrite (nth_upd_same _ _ _ i) by lia.
      rewrite (nth_upd_same _ _ _ (S i)) by (rewrite upd_length; lia).
      fold (coplan s i). fold (coplan s (S i)).
      split; [rewrite eqb_sym; exact E|].
      unfold gtb in G. now apply ltb_asym.
    + split; [exact E|exact G].
Qed.

Lemma order_other i s k :
  k <> i -> k <> S i ->
  ynplan (CellCheck_order i s) k = ynplan s k /\ coplan (CellCheck_order i s) k = coplan s k.
Proof.
  intros N1 N2. unfold CellCheck_order.
  destruct (ynplan s i && ynplan s (S i)); [|now split].
  set (s1 := if (coplan s i =? coplan s (S i))%float then set_ynplan (S i) false s else s).
  assert (H1 : ynplan s1 k = ynplan s k /\ coplan s1 k = coplan s k).
  { unfold s1. destruct (coplan s i =? coplan s (S i))%float; [|now split].
    unfold ynplan, coplan, set_ynplan. cbn -[upd]. now rewrite nth_upd_other by congruence. }
  clearbody s1. destruct (gtb (coplan s1 i) (coplan s1 (S i))); [|exact H1].
  destruct H1 as [<- <-].
  unfold ynplan, coplan, set_planes_at, set_vtplan, set_coplan. cbn -[upd].
  now rewrite !nth_upd_other by congruence.
Qed.

Lemma planes_phase_orders s :
  shaped s -> pair_ordered (CellCheck_planes_phase s) 0
              /\ pair_ordered (CellCheck_planes_phase s) 2.
Proof.
  intro H. unfold CellCheck_planes_phase.
  match goal with |- context [CellCheck_order 2 (CellCheck_order 0 ?t)] => set (s0 := t) end.
  assert (Z0 : sizes s0 = sizes s).
  { unfold s0. rewrite !sizes_CellCheck_conflict.
    pose proof (sizes_planes_phase s) as P. unfold CellCheck_planes_phase in P.
    rewrite !sizes_CellCheck_order, !sizes_CellCheck_conflict in P. exact P. }
  clearbody s0.
  pose proof (shaped_sizes _ _ Z0 H) as [L1 [L2 _]].
  pose proof (shaped_sizes _ _ (sizes_CellCheck_order 0 s0) (shaped_sizes _ _ Z0 H))
    as [M1 [M2 _]].
  split.
  - pose proof (order_orders 0 s0 ltac:(lia) ltac:(lia)) as O.
    unfold pair_ordered in *.
    destruct (order_other 2 (CellCheck_order 0 s0) 0 ltac:(lia) ltac:(lia)) as [-> ->].
    destruct (order_other 2 (CellCheck_order 0 s0) 1 ltac:(lia) ltac:(lia)) as [-> ->].
    exact O.
  - apply order_orders; lia.
Qed.

Lemma slots_wires_phase s : slots (CellCheck_wires_phase ext s) = slots s.
Proof. unfold CellCheck_wires_phase, map_wires. frame. Qed.

Lemma coplan_keep lo a b s : m_coplan (fst (fst (CellCheck_keep lo a b s))) = m_coplan s.
Proof. unfold CellCheck_keep. frame. Qed.

Lemma move_other from to s k :
  k <> to ->
  coplan (CellCheck_move from to s) k = coplan s k
  /\ (k <> from -> ynplan (CellCheck_move from to s) k = ynplan s k).
Proof.
  intros N. unfold CellCheck_move, ynplan, coplan, set_ynplan, set_coplan, set_vtplan,
    set_planes_at. cbn -[upd].
  split; [now rewrite nth_upd_other by congruence|].
  intro N'. now rewrite !nth_upd_other by congruence.
Qed.

Lemma move_from from to s :
  List.length (m_ynplan s) = 4%nat -> (to < 4)%nat -> from <> to ->
  ynplan (CellCheck_move from to s) from = false.
Proof.
  intros L Ht Hne. rewrite ynplan_move by assumption.
  destruct (Nat.eqb_spec from to); [contradiction|]. now rewrite Nat.eqb_refl.
Qed.

Lemma numbering_orders s :
  List.length (m_ynplan s) = 4%nat ->
  pair_ordered s 0 -> pair_ordered s 2 ->
  pair_ordered (CellCheck_numbering s) 0 /\ pair_ordered (CellCheck_numbering s) 2.
Proof.
  intros L P0 P2. unfold CellCheck_numbering.
  set (i1 := if ynplan s 0 then count_le wire.x (coplan s 0) s else 0%Z).
  set (i2 := if ynplan s 1 then count_le wire.x (coplan s 1) s else 0%Z).
  set (i3 := if ynplan s 2 then count_le wire.y (coplan s 2) s else 0%Z).
  set (i4 := if ynplan s 3 then count_le wire.y (coplan s 3) s else 0%Z).
  clearbody i1 i2 i3 i4.
  destruct (keep_facts 0 i1 i2 s) as [K1 _].
  pose proof (sizes_CellCheck_keep 0 i1 i2 s) as Z1.
  pose proof (coplan_keep 0 i1 i2 s) as C1.
  destruct (CellCheck_keep 0 i1 i2 s) as [[s1 a1] b1]. cbn [fst snd] in K1, Z1, C1.
  destruct (keep_facts 2 i3 i4 s1) as [K2 _].
  pose proof (sizes_CellCheck_keep 2 i3 i4 s1) as Z2.
  pose proof (coplan_keep 2 i3 i4 s1) as C2.
  destruct (CellCheck_keep 2 i3 i4 s1) as [[s2 a2] b2]. cbn [fst snd] in K2, Z2, C2.
  assert (L2 : List.length (m_ynplan s2) = 4%nat).
  { rewrite (sizes_ynplan_length _ _ Z2), (sizes_ynplan_length _ _ Z1). exact L. }
  assert (Q : forall i, pair_ordered s i -> pair_ordered s2 i).
  { unfold pair_ordered, coplan. intros i Pi A B. rewrite C2, C1. apply Pi; apply K1, K2; assumption. }
  apply Q in P0. apply Q in P2. clear Q K1 K2 Z1 Z2 C1 C2 s1 L s.
  set (s3 := if (a1 =? -1)%Z then CellCheck_move 0 1 s2 else s2).
  set (s4 := if (b1 =? 1)%Z then CellCheck_move 1 0 s3 else s3).
  set (s5 := if (a2 =? -1)%Z then CellCheck_move 2 3 s4 else s4).
  assert (L3 : List.length (m_ynplan s3) = 4%nat)
    by (unfold s3; destruct (a1 =? -1)%Z; [rewrite move_length|]; exact L2).
  assert (L4 : List.length (m_ynplan s4) = 4%nat)
    by (unfold s4; destruct (b1 =? 1)%Z; [rewrite move_length|]; exact L3).
  assert (L5 : List.length (m_ynplan s5) = 4%nat)
    by (unfold s5; destruct (a2 =? -1)%Z; [rewrite move_length|]; exact L4).
  (* the pair 0, 1 after the first two moves *)
  assert (O4 : pair_ordered s4 0).
  { unfold s4. destruct (b1 =? 1)%Z.
    - intros _ A. rewrite move_from in A by (assumption || lia). discriminate A.
    - unfold s3. destruct (a1 =? -1)%Z; [|exact P0].
      intros A _. rewrite move_from in A by (assumption || lia). discriminate A. }
  (* the pair 2, 3 is not touched by them *)
  assert (T4 : pair_ordered s4 2).
  { assert (X : forall t from to, (from < 2)%nat -> (to < 2)%nat ->
                  pair_ordered t 2 -> pair_ordered (CellCheck_move from to t) 2).
    { intros t from to Hf Ht Pt. unfold pair_ordered.
      destruct (move_other from to t 2 ltac:(lia)) as [-> ->]; [|lia].
      destruct (move_other from to t 3 ltac:(lia)) as [-> ->]; [|lia]. exact Pt. }
    unfold s4. destruct (b1 =? 1)%Z; [apply X; try lia|];
      unfold s3; destruct (a1 =? -1)%Z; try apply X; try lia; exact P2. }
  split.
  - assert (X : forall t from to, (2 <= from)%nat -> (2 <= to)%nat ->
                  pair_ordered t 0 -> pair_ordered (CellCheck_move from to t) 0).
    { intros t from to Hf Ht Pt. unfold pair_ordered.
      destruct (move_other from to t 0 ltac:(lia)) as [-> ->]; [|lia].
      destruct (move_other from to t 1 ltac:(lia)) as [-> ->]; [|lia]. exact Pt. }
    fold s3. fold s4. fold s5.
    destruct (b2 =? 1)%Z; [apply X; try lia|];
      unfold s5; destruct (a2 =? -1)%Z; try apply X; try lia; exact O4.
  - fold s3. fold s4. fold s5. destruct (b2 =? 1)%Z.
    + intros _ A. rewrite move_from in A by (assumption || lia). discriminate A.
    + unfold s5. destruct (a2 =? -1)%Z; [|exact T4].
      intros A _. rewrite move_from in A by (assumption || lia). discriminate A.
Qed.

Lemma slots_prune s : slots (CellCheck_prune ext s) = slots s.
Proof.
  unfold CellCheck_prune, CellCheck_remove.
  rewrite (fold_left_keeps slots); [reflexivity|].
  intros; unfold CellCheck_remove_i; frame.
Qed.

Lemma slots_box s : slots (snd (CellCheck_box ext s)) = slots s.
Proof. unfold CellCheck_box. frame. Qed.

Lemma slots_CellType s : slots (snd (CellType s)) = slots s.
Proof. unfold CellType. frame. Qed.

Lemma slots_Setup s : slots (snd (Setup ext s)) = slots s.
Proof.
  unfold Setup.
  set (s1 := Setup_corrections (Setup_shorthand s)).
  assert (H1 : slots s1 = slots s)
    by (unfold s1, Setup_corrections, Setup_shorthand, set_corvt; frame).
  clearbody s1. cbv zeta.
  destruct (m_nWires s1 <=? 0)%Z; [exact H1|].
  destruct (existsb _ setup_types); [|cbn; exact H1].
  unfold SetupCell. destruct (SetupFill ext _) as [a der].
  unfold Charge.
  destruct (Charge_core _ _ _ _ _ _ _ _ _ _ _ _ _ _ _ _ _ _ _ _ _ _) as [ok [[a' v0] ws]].
  destruct ok; cbn; exact H1.
Qed.

Lemma slots_PrepareStrips s : slots (snd (PrepareStrips s)) = slots s.
Proof.
  unfold PrepareStrips.
  match goal with
  | |- context [fold_left (PrepareStrips_plane ?g) _ _] =>
      assert (H : forall l1 r1,
                 slots (snd (fold_left (PrepareStrips_plane g) l1 r1)) = slots (snd r1))
  end.
  { intros l0; induction l0 as [|i l0 IH]; intro r0; cbn [fold_left]; [reflexivity|].
    rewrite IH. unfold PrepareStrips_plane. destruct r0 as [ok s0].
    destruct ok; cbn [negb snd]; [|reflexivity].
    destruct (assign_gaps strip.gap strip.set_gap _ (plane.strips1 _)) as [ok1 l1].
    destruct ok1; cbn [negb snd]; [|reflexivity].
    destruct (assign_gaps strip.gap strip.set_gap _ _) as [ok2 l2].
    destruct ok2; cbn [negb snd]; [|reflexivity].
    destruct (assign_gaps pixel.gap pixel.set_gap _ _) as [ok3 l3].
    reflexivity. }
  now rewrite H.
Qed.

Lemma CellCheck_orders s :
  shaped s -> pair_ordered (snd (CellCheck ext s)) 0 /\ pair_ordered (snd (CellCheck ext s)) 2.
Proof.
  intro H. unfold CellCheck.
  destruct (planes_phase_orders s H) as [A0 A2].
  pose proof (shaped_sizes _ _ (sizes_planes_phase s) H) as [L _].
  set (s1 := CellCheck_planes_phase s) in *. clearbody s1.
  pose proof (slots_wires_phase s1) as E.
  assert (L' : List.length (m_ynplan (CellCheck_wires_phase ext s1)) = 4%nat)
    by (unfold slots in E; injection E as -> _; exact L).
  destruct (numbering_orders _ L' (pair_ordered_ext _ _ 0 E A0) (pair_ordered_ext _ _ 2 E A2))
    as [B0 B2].
  split; (eapply pair_ordered_ext; [apply slots_box|]);
    (eapply pair_ordered_ext; [apply slots_prune|]); assumption.
Qed.

Lemma Prepare_slots s : slots (snd (Prepare ext s)) = slots (snd (CellCheck ext s)).
Proof.
  unfold Prepare.
  destruct (CellCheck ext s) as [ok1 s1].
  destruct ok1; cbv beta iota delta [negb snd]; [|reflexivity].
  pose proof (slots_CellType s1) as H2.
  destruct (CellType s1) as [ok2 s2]; cbv beta iota delta [snd] in H2.
  destruct ok2; cbv beta iota delta [negb snd]; [|exact H2].
  pose proof (slots_Setup s2) as H3.
  destruct (Setup ext s2) as [ok3 s3]; cbv beta iota delta [snd] in H3.
  destruct ok3; cbv beta iota delta [negb snd]; [|congruence].
  pose proof (slots_PrepareStrips s3) as H4.
  destruct (PrepareStrips s3) as [ok4 s4]; cbv beta iota delta [snd] in H4.
  destruct ok4; cbv beta iota delta [negb snd];
    try change (slots (set_m_cellset true s4)) with (slots s4); congruence.
Qed.

End Order.

(** X24.  After [Prepare], whether it succeeded or not, two x planes that
    are both in use are at different coordinates with the lower one in slot
    0, and likewise the y planes in the slots 2 and 3: the check removes one
    of two planes on top of each other and interchanges a pair given in the
    wrong order. *)
Theorem Prepare_orders_planes :
  forall ext s,
    shaped s ->
    pair_ordered (snd (Prepare ext s)) 0 /\ pair_ordered (snd (Prepare ext s)) 2.
Proof.
  intros ext s H.
  destruct (CellCheck_orders ext s H) as [A B].
  split; (eapply pair_ordered_ext; [apply Prepare_slots|]); assumption.
Qed.

(** Two x planes entered with the upper one first. *)
Lemma Prepare_orders_planes_witness :
  let s := AddPlaneX 1 0 "q" (AddPlaneX 2 100 "p" construct) in
  pair_ordered (snd (Prepare Examples.ext_inert s)) 0
  /\ pair_ordered (snd (Prepare Examples.ext_inert s)) 2.
Proof.
  apply Prepare_orders_planes.
  unfold shaped. cbn. repeat split; lia.
Defined.
